(** * Commit-reveal client of the prize wheel: model and verification

    The development embeds the browser client of the wheel-spin program:
    the transaction helper [sendTransaction], the React component's
    [spinWheel], [initializeWheel] and [checkWheelState], and the pieces
    of the platform they call (byte buffers, SHA-256, base64, hex, the
    Borsh wire format, IEEE-754 multiplication for [Math.random() * n]).

    Bytes are integers of [Z] kept in [0, 256); a [Uint8Array] is a
    [list Z].  Text is [string]; a string stands for its UTF-8 bytes. *)

From Stdlib Require Import ZArith String Ascii Bool Lia List.
From Stdlib Require Import Floats.SpecFloat.
Import ListNotations.

Local Open Scope Z_scope.
Local Set Warnings "-register-all".

(* ===================================================================== *)
(** * Byte buffers *)
(* ===================================================================== *)

Definition bytes := list Z.

(** A store into a [Uint8Array] keeps the low eight bits (ToUint8). *)
Definition to_u8 (x : Z) : Z := x mod 256.

(** [new Uint8Array(xs)] for an array of numbers [xs]. *)
Definition Uint8Array_from (xs : list Z) : bytes := map to_u8 xs.

(** [Buffer.concat(list)]. *)
Definition Buffer_concat (parts : list bytes) : bytes := concat parts.

(** [arr.slice(k)] for a non-negative [k]: the elements from index [k] on,
    empty when the array is shorter. *)
Definition slice_from (k : nat) (b : bytes) : bytes := skipn k b.

Definition string_bytes (s : string) : bytes :=
  map (fun c => Z.of_nat (nat_of_ascii c)) (list_ascii_of_string s).

Definition bytes_string (b : bytes) : string :=
  string_of_list_ascii (map (fun x => ascii_of_nat (Z.to_nat x)) b).

(* --------------------------------------------------------------------- *)
(** ** Hexadecimal text: [Buffer.from(b).toString('hex')], [PubkeyUtil.fromHex] *)

Definition hex_digit (d : Z) : ascii :=
  if d <? 10 then ascii_of_nat (Z.to_nat (48 + d))
  else ascii_of_nat (Z.to_nat (87 + d)).

Fixpoint toString_hex (b : bytes) : string :=
  match b with
  | [] => EmptyString
  | x :: r => String (hex_digit (x / 16)) (String (hex_digit (x mod 16)) (toString_hex r))
  end.

Definition hex_value (c : ascii) : option Z :=
  let n := Z.of_nat (nat_of_ascii c) in
  if (48 <=? n) && (n <=? 57) then Some (n - 48)
  else if (97 <=? n) && (n <=? 102) then Some (n - 87)
  else if (65 <=? n) && (n <=? 70) then Some (n - 55)
  else None.

(** Hex text to bytes, two digits per byte; decoding stops at the first
    pair that is not two hex digits, as [Buffer.from(s, 'hex')] does. *)
Fixpoint fromHex (s : string) : bytes :=
  match s with
  | String a (String b r) =>
      match hex_value a, hex_value b with
      | Some h, Some l => (16 * h + l) :: fromHex r
      | _, _ => []
      end
  | _ => []
  end.

Definition PubkeyUtil_fromHex (hex : string) : bytes := fromHex hex.

(* ===================================================================== *)
(** * SHA-256 ([crypto.subtle.digest('SHA-256', data)]), FIPS 180-4 *)
(* ===================================================================== *)

Module SHA256.

Definition w32 (x : Z) : Z := x mod 4294967296.
Definition add32 (x y : Z) : Z := w32 (x + y).
Definition not32 (x : Z) : Z := Z.lxor x 4294967295.
Definition rotr (n x : Z) : Z :=
  Z.lor (Z.shiftr x n) (w32 (Z.shiftl x (32 - n))).

Definition Ch (x y z : Z) : Z := Z.lxor (Z.land x y) (Z.land (not32 x) z).
Definition Maj (x y z : Z) : Z :=
  Z.lxor (Z.lxor (Z.land x y) (Z.land x z)) (Z.land y z).
Definition bsig0 (x : Z) : Z := Z.lxor (Z.lxor (rotr 2 x) (rotr 13 x)) (rotr 22 x).
Definition bsig1 (x : Z) : Z := Z.lxor (Z.lxor (rotr 6 x) (rotr 11 x)) (rotr 25 x).
Definition ssig0 (x : Z) : Z := Z.lxor (Z.lxor (rotr 7 x) (rotr 18 x)) (Z.shiftr x 3).
Definition ssig1 (x : Z) : Z := Z.lxor (Z.lxor (rotr 17 x) (rotr 19 x)) (Z.shiftr x 10).

(** The constants are taken from the roots of the first primes: the
    first 32 bits of the fractional part of the cube root (round
    constants) and of the square root (initial hash value). *)
Definition primes : list Z :=
  [ 2; 3; 5; 7; 11; 13; 17; 19; 23; 29; 31; 37; 41; 43; 47; 53;
    59; 61; 67; 71; 73; 79; 83; 89; 97; 101; 103; 107; 109; 113; 127; 131;
    137; 139; 149; 151; 157; 163; 167; 173; 179; 181; 191; 193; 197; 199; 211; 223;
    227; 229; 233; 239; 241; 251; 257; 263; 269; 271; 277; 281; 283; 293; 307; 311 ].

(** The integer cube root, one bit at a time from bit [i - 1] down. *)
Fixpoint cube_root_bits (i : nat) (n r : Z) : Z :=
  match i with
  | O => r
  | S i' =>
      let r' := r + 2 ^ Z.of_nat i' in
      cube_root_bits i' n (if r' * r' * r' <=? n then r' else r)
  end.

Definition cube_root (n : Z) : Z := cube_root_bits 40 n 0.

Definition K : list Z :=
  map (fun p => w32 (cube_root (p * 2 ^ 96))) primes.

(** The eight working words. *)
Record regs : Type := Regs {
  ra : Z; rb : Z; rc : Z; rd : Z; re : Z; rf : Z; rg : Z; rh : Z }.

Definition root_word (p : Z) : Z := w32 (Z.sqrt (p * 2 ^ 64)).

Definition H0 : regs :=
  Regs (root_word 2) (root_word 3) (root_word 5) (root_word 7)
       (root_word 11) (root_word 13) (root_word 17) (root_word 19).

(** Big-endian words. *)
Definition be32 (x : Z) : bytes :=
  [ Z.shiftr x 24 mod 256; Z.shiftr x 16 mod 256; Z.shiftr x 8 mod 256; x mod 256 ].

Definition be64 (x : Z) : bytes := be32 (Z.shiftr x 32) ++ be32 (w32 x).

Definition word_of (b0 b1 b2 b3 : Z) : Z :=
  Z.lor (Z.lor (Z.shiftl b0 24) (Z.shiftl b1 16)) (Z.lor (Z.shiftl b2 8) b3).

Fixpoint words_of (b : bytes) : list Z :=
  match b with
  | b0 :: b1 :: b2 :: b3 :: r => word_of b0 b1 b2 b3 :: words_of r
  | _ => []
  end.

(** Padding: a one bit, zeros up to 56 mod 64, the bit length on 64 bits. *)
Definition pad (msg : bytes) : bytes :=
  let n := Z.of_nat (length msg) in
  let z := (55 - n) mod 64 in
  msg ++ [128] ++ repeat 0 (Z.to_nat z) ++ be64 (8 * n).

(** The message schedule, newest word first: [extend k ws] adds [k] words. *)
Fixpoint extend (k : nat) (rev_w : list Z) : list Z :=
  match k with
  | O => rev_w
  | S k' =>
      let w := add32 (add32 (ssig1 (nth 1 rev_w 0)) (nth 6 rev_w 0))
                     (add32 (ssig0 (nth 14 rev_w 0)) (nth 15 rev_w 0)) in
      extend k' (w :: rev_w)
  end.

Definition schedule (block_words : list Z) : list Z :=
  rev (extend 48 (rev block_words)).

Definition round (s : regs) (kw : Z * Z) : regs :=
  let t1 := add32 (add32 (add32 (rh s) (bsig1 (re s))) (Ch (re s) (rf s) (rg s)))
                  (add32 (fst kw) (snd kw)) in
  let t2 := add32 (bsig0 (ra s)) (Maj (ra s) (rb s) (rc s)) in
  Regs (add32 t1 t2) (ra s) (rb s) (rc s) (add32 (rd s) t1) (re s) (rf s) (rg s).

Definition compress (h : regs) (block : bytes) : regs :=
  let s := fold_left round (combine K (schedule (words_of block))) h in
  Regs (add32 (ra h) (ra s)) (add32 (rb h) (rb s)) (add32 (rc h) (rc s))
       (add32 (rd h) (rd s)) (add32 (re h) (re s)) (add32 (rf h) (rf s))
       (add32 (rg h) (rg s)) (add32 (rh h) (rh s)).

(** One compression per 64-byte block; [n] bounds the number of blocks. *)
Fixpoint blocks (n : nat) (h : regs) (data : bytes) : regs :=
  match n, data with
  | S n', _ :: _ => blocks n' (compress h (firstn 64 data)) (skipn 64 data)
  | _, _ => h
  end.

Definition output (h : regs) : bytes :=
  be32 (ra h) ++ be32 (rb h) ++ be32 (rc h) ++ be32 (rd h) ++
  be32 (re h) ++ be32 (rf h) ++ be32 (rg h) ++ be32 (rh h).

Definition digest (msg : bytes) : bytes :=
  let p := pad msg in
  output (blocks (length p) H0 p).

End SHA256.

(** [await crypto.subtle.digest('SHA-256', data)], read as a [Uint8Array]. *)
Definition subtle_digest_SHA256 (data : bytes) : bytes := SHA256.digest data.

(* --------------------------------------------------------------------- *)
(** ** Base64 text: [Buffer.from(s, 'base64')]

    The decoder of the [buffer] package: the text is cut at the first
    [=], characters outside the alphabet are dropped, fewer than two
    characters decode to nothing, and the rest is read four characters
    (three bytes) at a time, a tail of two or three characters giving one
    or two bytes. *)

Definition b64_value (c : ascii) : option Z :=
  let n := Z.of_nat (nat_of_ascii c) in
  if (65 <=? n) && (n <=? 90) then Some (n - 65)
  else if (97 <=? n) && (n <=? 122) then Some (n - 71)
  else if (48 <=? n) && (n <=? 57) then Some (n + 4)
  else if (n =? 43) || (n =? 45) then Some 62
  else if (n =? 47) || (n =? 95) then Some 63
  else None.

Fixpoint b64_clean (s : string) : list Z :=
  match s with
  | EmptyString => []
  | String c r =>
      if Ascii.eqb c "="%char then []
      else match b64_value c with
           | Some v => v :: b64_clean r
           | None => b64_clean r
           end
  end.

Fixpoint b64_groups (v : list Z) : bytes :=
  match v with
  | a :: b :: c :: d :: r =>
      let n := 262144 * a + 4096 * b + 64 * c + d in
      (n / 65536) mod 256 :: (n / 256) mod 256 :: n mod 256 :: b64_groups r
  | [a; b; c] =>
      let n := 1024 * a + 16 * b + c / 4 in
      [(n / 256) mod 256; n mod 256]
  | [a; b] => [(4 * a + b / 16) mod 256]
  | _ => []
  end.

Definition Buffer_from_base64 (s : string) : bytes :=
  let v := b64_clean s in
  if (length v <? 2)%nat then [] else b64_groups v.

(* ===================================================================== *)
(** * JavaScript completions *)
(* ===================================================================== *)

(** [new Error(message)]. *)
Inductive JsError : Type := Error (message : string).

(** How a call ends: it returns a value or throws. *)
Inductive Completion (A : Type) : Type :=
| Normal (a : A)
| Thrown (e : JsError).
Arguments Normal {A} a.
Arguments Thrown {A} e.

Definition is_thrown {A} (c : Completion A) : bool :=
  match c with Thrown _ => true | Normal _ => false end.

(* ===================================================================== *)
(** * The Borsh wire format ([borsh.serialize], [borsh.deserialize]) *)
(* ===================================================================== *)

Module borsh.

(** The schemas the client writes: [{struct: {...}}], [{array: {type}}],
    ['string'], ['u8'], ['bool']; ['u32'] is the length prefix. *)
Inductive Schema : Type :=
| s_u8
| s_u32
| s_bool
| s_string
| s_array (elem : Schema)
| s_struct (fields : list (string * Schema)).

(** The JavaScript values handed to the serializer. An [Array] and a
    typed array are both array-like. *)
Inductive Value : Type :=
| v_number (n : Z)
| v_bool (b : bool)
| v_string (s : string)
| v_array (items : list Value)
| v_object (fields : list (string * Value))
| v_undefined.

(** [value[key]]. *)
Fixpoint get_field (key : string) (o : list (string * Value)) : Value :=
  match o with
  | [] => v_undefined
  | (k, v) :: r => if String.eqb k key then v else get_field key r
  end.

(** [value.key] of a decoded value. *)
Definition field (key : string) (v : Value) : Value :=
  match v with
  | v_object o => get_field key o
  | _ => v_undefined
  end.

(** The truth value of a JavaScript value. *)
Definition to_boolean (v : Value) : bool :=
  match v with
  | v_bool b => b
  | v_number n => negb (n =? 0)
  | v_string s => negb (String.eqb s EmptyString)
  | v_array _ | v_object _ => true
  | v_undefined => false
  end.

(** Little-endian 32-bit store and load ([DataView.setUint32(.., true)]). *)
Definition le32 (n : Z) : bytes :=
  [ n mod 256; (n / 256) mod 256; (n / 65536) mod 256; (n / 16777216) mod 256 ].

Definition read32 (b0 b1 b2 b3 : Z) : Z :=
  b0 + 256 * b1 + 65536 * b2 + 16777216 * b3.

Definition expected (what : string) : JsError :=
  Error ("Expected " ++ what).

(** The elements of an array-like, in order, after what is written. *)
Fixpoint encode_items (enc : Value -> Completion bytes) (l : list Value)
    (acc : bytes) : Completion bytes :=
  match l with
  | [] => Normal acc
  | x :: r =>
      match enc x with
      | Normal b => encode_items enc r (acc ++ b)
      | Thrown e => Thrown e
      end
  end.

Fixpoint encode_value (s : Schema) (v : Value) {struct s} : Completion bytes :=
  match s with
  | s_u8 =>
      match v with
      | v_number n => Normal [to_u8 n]
      | _ => Thrown (expected "number")
      end
  | s_u32 =>
      match v with
      | v_number n => Normal (le32 n)
      | _ => Thrown (expected "number")
      end
  | s_bool =>
      match v with
      | v_bool b => Normal [if b then 1 else 0]
      | _ => Thrown (expected "boolean")
      end
  | s_string =>
      match v with
      | v_string str =>
          let utf8 := string_bytes str in
          Normal (le32 (Z.of_nat (length utf8)) ++ utf8)
      | _ => Thrown (expected "string")
      end
  | s_array elem =>
      match v with
      | v_array items =>
          encode_items (encode_value elem) items (le32 (Z.of_nat (length items)))
      | _ => Thrown (expected "Array-like")
      end
  | s_struct fields =>
      match v with
      | v_object o =>
          (fix each (l : list (string * Schema)) (acc : bytes) : Completion bytes :=
             match l with
             | [] => Normal acc
             | (key, sch) :: r =>
                 match encode_value sch (get_field key o) with
                 | Normal b => each r (acc ++ b)
                 | Thrown e => Thrown e
                 end
             end) fields []
      | _ => Thrown (expected "object")
      end
  end.

(** [borsh.serialize(schema, value)]. *)
Definition serialize (schema : Schema) (value : Value) : Completion bytes :=
  encode_value schema value.

Definition out_of_bounds : JsError := Error "Error in schema, the buffer is smaller than expected".

(** Reading [n] elements, one after the other. *)
Fixpoint decode_items (dec : bytes -> Completion (Value * bytes)) (n : nat)
    (acc : list Value) (rest : bytes) : Completion (Value * bytes) :=
  match n with
  | O => Normal (v_array (rev acc), rest)
  | S n' =>
      match dec rest with
      | Normal (x, rest') => decode_items dec n' (x :: acc) rest'
      | Thrown e => Thrown e
      end
  end.

(** Reading: the value and the bytes left. *)
Fixpoint decode_value (s : Schema) (buf : bytes) {struct s}
  : Completion (Value * bytes) :=
  match s with
  | s_u8 =>
      match buf with
      | x :: r => Normal (v_number x, r)
      | [] => Thrown out_of_bounds
      end
  | s_u32 =>
      match buf with
      | b0 :: b1 :: b2 :: b3 :: r => Normal (v_number (read32 b0 b1 b2 b3), r)
      | _ => Thrown out_of_bounds
      end
  | s_bool =>
      match buf with
      | x :: r => Normal (v_bool (0 <? x), r)
      | [] => Thrown out_of_bounds
      end
  | s_string =>
      match buf with
      | b0 :: b1 :: b2 :: b3 :: r =>
          let len := Z.to_nat (read32 b0 b1 b2 b3) in
          if (length r <? len)%nat then Thrown out_of_bounds
          else Normal (v_string (bytes_string (firstn len r)), skipn len r)
      | _ => Thrown out_of_bounds
      end
  | s_array elem =>
      match buf with
      | b0 :: b1 :: b2 :: b3 :: r =>
          decode_items (decode_value elem) (Z.to_nat (read32 b0 b1 b2 b3)) [] r
      | _ => Thrown out_of_bounds
      end
  | s_struct fields =>
      (fix each (l : list (string * Schema)) (acc : list (string * Value))
                (rest : bytes) : Completion (Value * bytes) :=
         match l with
         | [] => Normal (v_object (rev acc), rest)
         | (key, sch) :: l' =>
             match decode_value sch rest with
             | Normal (x, rest') => each l' ((key, x) :: acc) rest'
             | Thrown e => Thrown e
             end
         end) fields [] buf
  end.

(** [borsh.deserialize(schema, buffer)]: the decoded value; bytes after
    it are not looked at. *)
Definition deserialize (schema : Schema) (buffer : bytes) : Completion Value :=
  match decode_value schema buffer with
  | Normal (v, _) => Normal v
  | Thrown e => Thrown e
  end.

End borsh.

(* ===================================================================== *)
(** * The protocol's data ([transactionHelpers.ts]) *)
(* ===================================================================== *)

Record Account : Type := {
  pubkey : bytes;
  is_signer : bool;
  is_writable : bool }.

Record Instruction : Type := {
  program_id : bytes;
  accounts : list Account;
  data : bytes }.

Record Message : Type := {
  signers : list bytes;
  instructions : list Instruction }.

(** A signature slot holds the bytes, or [None] for a [null] left there. *)
Record Transaction : Type := {
  version : Z;
  signatures : list (option bytes);
  message : Message }.

(** The payload handed to the wallet's [signMessage]. *)
Inductive BitcoinNetworkType : Type := Mainnet | Testnet.

Record SignPayload : Type := {
  sp_message : string;
  sp_address : string;
  sp_network : BitcoinNetworkType }.

(* ===================================================================== *)
(** * The environment of the client *)
(* ===================================================================== *)

(** What the wallet does with a [signMessage] request: it calls
    [onFinish(response)] ([None] is an undefined response), it calls
    [onCancel()], or it settles without calling either. An exception
    thrown by a callback reaches the caller that awaits [signMessage]. *)
Inductive WalletOutcome : Type :=
| onFinish (response : option string)
| onCancel
| noCallback.

(** What an RPC call gives: its result, or a rejection. *)
Inductive RpcOutcome (A : Type) : Type :=
| rpc_ok (result : A)
| rpc_error (e : JsError).
Arguments rpc_ok {A} result.
Arguments rpc_error {A} e.

(** [sdk.readAccountInfo]: the account (or nothing) and its data field. *)
Record AccountInfo : Type := { info_data : option bytes }.

(** [sdk.getProcessedTransaction]: only the status is read. *)
Inductive TxStatus : Type := Processed | Processing | Failed (reason : string).

(** React state of the component. *)
Record WheelState : Type := {
  isSpinning : bool;
  currentPrize : option string;
  prizeNumber : Z }.

Record AppState : Type := {
  wheelState : WheelState;
  walletAddress : option string;
  publicKey : option string;
  sdk : bool;
  isAdmin : bool;
  isInitialized : bool }.

(** [useState] initial values. *)
Definition initialWheelState : WheelState :=
  {| isSpinning := false; currentPrize := None; prizeNumber := 0 |}.

Definition initialAppState : AppState :=
  {| wheelState := initialWheelState; walletAddress := None; publicKey := None;
     sdk := false; isAdmin := false; isInitialized := false |}.

Inductive AudioOp : Type := audio_rewind | audio_loop | audio_play | audio_pause.

(** A state updater [prev => ({...prev, ...})]; [None] when evaluating
    the new object fails (a property of [undefined] is read). *)
Definition Updater : Type := WheelState -> option WheelState.

(** What a [setTimeout] callback of the component does. *)
Inductive Action : Type :=
| act_setWheelState (upd : Updater)
| act_audio (op : AudioOp).

(** ** Programs

    An asynchronous function is a tree of the calls it makes to its
    environment, each with the rest of the function as continuation.
    The calls of the second group are awaited: the function is suspended
    there until the environment answers. *)
Inductive Prog (A : Type) : Type :=
| Ret (a : A)
| Throw (e : JsError)
| SetWheelState (upd : Updater) (k : Prog A)
| SetIsInitialized (b : bool) (k : Prog A)
| GetRandomValues (n : nat) (k : bytes -> Prog A)
| MathRandom (k : spec_float -> Prog A)
| MessageHash (m : Message) (k : bytes -> Prog A)
| SetTimeout (callback : list Action) (ms : Z) (k : Prog A)
| Audio (op : AudioOp) (k : Prog A)
| SubtleDigest (input : bytes) (k : bytes -> Prog A)
| SignMessage (p : SignPayload) (k : WalletOutcome -> Prog A)
| SdkSendTransaction (tx : Transaction) (k : RpcOutcome string -> Prog A)
| ReadAccountInfo (address : bytes) (k : RpcOutcome (option AccountInfo) -> Prog A)
| GetProcessedTransaction (txid : string) (k : RpcOutcome (option TxStatus) -> Prog A)
| Sleep (ms : Z) (k : Prog A).

Arguments Ret {A} a.
Arguments Throw {A} e.
Arguments SetWheelState {A} upd k.
Arguments SetIsInitialized {A} b k.
Arguments GetRandomValues {A} n k.
Arguments MathRandom {A} k.
Arguments MessageHash {A} m k.
Arguments SetTimeout {A} callback ms k.
Arguments Audio {A} op k.
Arguments SubtleDigest {A} input k.
Arguments SignMessage {A} p k.
Arguments SdkSendTransaction {A} tx k.
Arguments ReadAccountInfo {A} address k.
Arguments GetProcessedTransaction {A} txid k.
Arguments Sleep {A} ms k.

(** Sequencing: [bind p f] runs [f] on the value [p] returns. *)
Fixpoint bind {A B} (p : Prog A) (f : A -> Prog B) : Prog B :=
  match p with
  | Ret a => f a
  | Throw e => Throw e
  | SetWheelState u k => SetWheelState u (bind k f)
  | SetIsInitialized b k => SetIsInitialized b (bind k f)
  | GetRandomValues n k => GetRandomValues n (fun x => bind (k x) f)
  | MathRandom k => MathRandom (fun x => bind (k x) f)
  | MessageHash m k => MessageHash m (fun x => bind (k x) f)
  | SetTimeout c ms k => SetTimeout c ms (bind k f)
  | Audio op k => Audio op (bind k f)
  | SubtleDigest d k => SubtleDigest d (fun x => bind (k x) f)
  | SignMessage p k => SignMessage p (fun x => bind (k x) f)
  | SdkSendTransaction tx k => SdkSendTransaction tx (fun x => bind (k x) f)
  | ReadAccountInfo a k => ReadAccountInfo a (fun x => bind (k x) f)
  | GetProcessedTransaction t k => GetProcessedTransaction t (fun x => bind (k x) f)
  | Sleep ms k => Sleep ms (bind k f)
  end.

(** [try { p } catch (err) { handler err }]. *)
Fixpoint try_catch {A} (p : Prog A) (handler : JsError -> Prog A) : Prog A :=
  match p with
  | Ret a => Ret a
  | Throw e => handler e
  | SetWheelState u k => SetWheelState u (try_catch k handler)
  | SetIsInitialized b k => SetIsInitialized b (try_catch k handler)
  | GetRandomValues n k => GetRandomValues n (fun x => try_catch (k x) handler)
  | MathRandom k => MathRandom (fun x => try_catch (k x) handler)
  | MessageHash m k => MessageHash m (fun x => try_catch (k x) handler)
  | SetTimeout c ms k => SetTimeout c ms (try_catch k handler)
  | Audio op k => Audio op (try_catch k handler)
  | SubtleDigest d k => SubtleDigest d (fun x => try_catch (k x) handler)
  | SignMessage p k => SignMessage p (fun x => try_catch (k x) handler)
  | SdkSendTransaction tx k => SdkSendTransaction tx (fun x => try_catch (k x) handler)
  | ReadAccountInfo a k => ReadAccountInfo a (fun x => try_catch (k x) handler)
  | GetProcessedTransaction t k =>
      GetProcessedTransaction t (fun x => try_catch (k x) handler)
  | Sleep ms k => Sleep ms (try_catch k handler)
  end.

Declare Scope prog_scope.
Delimit Scope prog_scope with prog.
Notation "x <- c ;; k" := (bind c (fun x => k))
  (at level 61, c at next level, right associativity) : prog_scope.
Notation "c ;;; k" := (bind c (fun _ => k))
  (at level 61, right associativity) : prog_scope.

(** Single calls, to be sequenced with [bind]. *)
Definition setWheelState (u : Updater) : Prog unit := SetWheelState u (Ret tt).
Definition setIsInitialized (b : bool) : Prog unit := SetIsInitialized b (Ret tt).
Definition getRandomValues (n : nat) : Prog bytes := GetRandomValues n Ret.
Definition Math_random : Prog spec_float := MathRandom Ret.
Definition MessageUtil_hash (m : Message) : Prog bytes := MessageHash m Ret.
Definition setTimeout (c : list Action) (ms : Z) : Prog unit := SetTimeout c ms (Ret tt).
Definition audio (op : AudioOp) : Prog unit := Audio op (Ret tt).
Definition subtle_digest (input : bytes) : Prog bytes := SubtleDigest input Ret.
Definition signMessage (p : SignPayload) : Prog WalletOutcome := SignMessage p Ret.
Definition sleep (ms : Z) : Prog unit := Sleep ms (Ret tt).

(** An awaited RPC call returns its result or throws its rejection. *)
Definition settle {A} (r : RpcOutcome A) : Prog A :=
  match r with
  | rpc_ok x => Ret x
  | rpc_error e => Throw e
  end.

(** A library call that returns or throws, inside a program. *)
Definition of_completion {A} (c : Completion A) : Prog A :=
  match c with
  | Normal a => Ret a
  | Thrown e => Throw e
  end.

Definition sdk_sendTransaction (tx : Transaction) : Prog string :=
  SdkSendTransaction tx settle.
Definition sdk_readAccountInfo (address : bytes) : Prog (option AccountInfo) :=
  ReadAccountInfo address settle.
Definition sdk_getProcessedTransaction (txid : string) : Prog (option TxStatus) :=
  GetProcessedTransaction txid settle.

(* ===================================================================== *)
(** * [sendTransaction] ([transactionHelpers.ts]) *)
(* ===================================================================== *)

Local Open Scope string_scope.
Local Open Scope list_scope.
Local Open Scope Z_scope.
Local Open Scope prog_scope.

(** [!x] for a string or absent value: absent and the empty string are falsy. *)
Definition truthy (s : option string) : bool :=
  match s with
  | Some (String _ _) => true
  | _ => false
  end.

(** The [onFinish] and [onCancel] callbacks of [sendTransaction], and the
    variable [signature] they leave behind. *)
Definition signature_of (o : WalletOutcome) : Prog (option bytes) :=
  match o with
  | onFinish response =>
      match response with
      | Some (String c r) =>
          (* Take last 64 bytes of signature *)
          Ret (Some (slice_from 2 (Uint8Array_from (Buffer_from_base64 (String c r)))))
      | _ => Throw (Error "No signature returned")
      end
  | onCancel => Throw (Error "User cancelled signing")
  | noCallback => Ret None
  end.

Definition sendTransaction (walletAddress publicKey : string)
    (instruction : Instruction) : Prog string :=
  let messageObj :=
    {| signers := [PubkeyUtil_fromHex publicKey];
       instructions := [instruction] |} in
  (* Hash and sign the complete message *)
  messageHash <- MessageUtil_hash messageObj ;;
  outcome <- signMessage {| sp_message := toString_hex messageHash;
                            sp_address := walletAddress;
                            sp_network := Testnet |} ;;
  signature <- signature_of outcome ;;
  match signature with
  | None => Throw (Error "No signature returned from wallet")
  | Some signature =>
      let tx := {| version := 0;
                   signatures := [Some signature];
                   message := messageObj |} in
      sdk_sendTransaction tx
  end.

(* ===================================================================== *)
(** * The component ([App.jsx], with [initializeWheel] and [checkWheelState]) *)
(* ===================================================================== *)

(** [import.meta.env]. *)
Record ImportMetaEnv : Type := {
  VITE_PROGRAM_ID : string;
  VITE_WHEEL_STATE_ACCOUNT : string;
  VITE_RECENT_BLOCKHASHES : string;
  VITE_SLOT_INFO : string }.

Record WheelDatum : Type := {
  prize_option : string;
  backgroundColor : string;
  textColor : string }.

Definition wheelData : list WheelDatum :=
  [ {| prize_option := "Pub #123 "; backgroundColor := "#ff8f43"; textColor := "white" |};
    {| prize_option := "Loser"; backgroundColor := "#70bbe0"; textColor := "white" |};
    {| prize_option := "Loser"; backgroundColor := "#ff5252"; textColor := "white" |} ].

(** ** Numbers: IEEE-754 binary64 *)

Definition prec : Z := 53.
Definition emax : Z := 1024.

(** The Number with the value of an integer. *)
Definition Number_of_Z (n : Z) : spec_float := binary_normalize prec emax n 0 false.

(** [a * b] on Numbers. *)
Definition Number_mul (a b : spec_float) : spec_float := SFmul prec emax a b.

(** [Math.floor(x)] as an integer; nothing for [NaN] and the infinities. *)
Definition Math_floor (x : spec_float) : option Z :=
  match x with
  | S754_zero _ => Some 0
  | S754_finite s m e =>
      let v := if s then Z.neg m else Z.pos m in
      Some (if 0 <=? e then v * 2 ^ e else v / 2 ^ (- e))
  | _ => None
  end.

(** [arr[i]] for an integer [i]: [None] is [undefined]. *)
Definition index {A} (arr : list A) (i : Z) : option A :=
  if i <? 0 then None else nth_error arr (Z.to_nat i).

(** ** State updaters *)

(** [prev => ({ ...prev, isSpinning: b })]. *)
Definition set_isSpinning (b : bool) : Updater :=
  fun prev => Some {| isSpinning := b;
                      currentPrize := currentPrize prev;
                      prizeNumber := prizeNumber prev |}.

(** [prev => ({ ...prev, prizeNumber, currentPrize: wheelData[prizeNumber].option })]. *)
Definition set_prize (wheelData : list WheelDatum) (prizeNumber : option Z) : Updater :=
  fun prev =>
    match prizeNumber with
    | Some n =>
        match index wheelData n with
        | Some d => Some {| isSpinning := isSpinning prev;
                            currentPrize := Some (prize_option d);
                            prizeNumber := n |}
        | None => None
        end
    | None => None
    end.

(** The callback that stops the wheel after the animation. *)
Definition stop_wheel : list Action :=
  [ act_setWheelState (set_isSpinning false);
    act_audio audio_pause;
    act_audio audio_rewind ].

(** [Math.floor(Math.random() * wheelData.length)]. *)
Definition draw_prize (wheelData : list WheelDatum) (r : spec_float) : option Z :=
  Math_floor (Number_mul r (Number_of_Z (Z.of_nat (length wheelData)))).

Section Component.

Variable env : ImportMetaEnv.

(** ** Instructions *)

Definition commitData (commitment : bytes) : bytes :=
  Buffer_concat [ Uint8Array_from [1];  (* CommitSpin instruction *)
                  Uint8Array_from commitment ].

Definition commitInstruction (publicKey : string) (commitment : bytes) : Instruction :=
  {| program_id := PubkeyUtil_fromHex (VITE_PROGRAM_ID env);
     accounts :=
       [ {| pubkey := PubkeyUtil_fromHex publicKey;
            is_signer := true;
            is_writable := false |};
         {| pubkey := PubkeyUtil_fromHex (VITE_WHEEL_STATE_ACCOUNT env);
            is_signer := false;
            is_writable := true |} ];
     data := commitData commitment |}.

Definition revealData (userSecret : bytes) : bytes :=
  Buffer_concat [ Uint8Array_from [2];  (* RevealSpin instruction *)
                  userSecret ].

Definition revealInstruction (publicKey : string) (userSecret : bytes) : Instruction :=
  {| program_id := PubkeyUtil_fromHex (VITE_PROGRAM_ID env);
     accounts :=
       [ {| pubkey := PubkeyUtil_fromHex publicKey;
            is_signer := true;
            is_writable := false |};
         {| pubkey := PubkeyUtil_fromHex (VITE_WHEEL_STATE_ACCOUNT env);
            is_signer := false;
            is_writable := true |};
         {| pubkey := PubkeyUtil_fromHex (VITE_RECENT_BLOCKHASHES env);
            is_signer := false;
            is_writable := false |};
         {| pubkey := PubkeyUtil_fromHex (VITE_SLOT_INFO env);
            is_signer := false;
            is_writable := false |} ];
     data := revealData userSecret |}.

(** ** [spinWheel] *)

(** The guard [!sdk || !walletAddress || !publicKey || wheelState.isSpinning]. *)
Definition spin_refused (st : AppState) : bool :=
  negb (sdk st) || negb (truthy (walletAddress st)) || negb (truthy (publicKey st))
  || isSpinning (wheelState st).

(** The [try] block. *)
Definition spin_body (walletAddress publicKey : string) : Prog unit :=
  audio audio_rewind ;;;
  audio audio_loop ;;;
  audio audio_play ;;;
  setWheelState (set_isSpinning true) ;;;
  (* Generate user secret and commitment *)
  userSecret <- getRandomValues 32 ;;
  commitment <- subtle_digest userSecret ;;
  commitTxId <- sendTransaction walletAddress publicKey
                  (commitInstruction publicKey commitment) ;;
  (* Wait for confirmation *)
  sleep 2000 ;;;
  revealTxId <- sendTransaction walletAddress publicKey
                  (revealInstruction publicKey userSecret) ;;
  r <- Math_random ;;
  (* For now, we'll use a random number until we implement getting the
     result from the chain *)
  setWheelState (set_prize wheelData (draw_prize wheelData r)) ;;;
  setTimeout stop_wheel 10000.

(** The [catch] block. *)
Definition spin_failed (err : JsError) : Prog unit :=
  setWheelState (set_isSpinning false) ;;;
  audio audio_pause ;;;
  audio audio_rewind.

(** [st] is the state the component was rendered with. *)
Definition spinWheel (st : AppState) : Prog unit :=
  if spin_refused st then Ret tt
  else
    match walletAddress st, publicKey st with
    | Some walletAddress, Some publicKey =>
        try_catch (spin_body walletAddress publicKey) spin_failed
    | _, _ => Ret tt
    end.

(** ** [checkWheelState] *)

(** The layout the reader decodes: the first fields of the program's
    [WheelState]. *)
Definition wheelStateSchema : borsh.Schema :=
  borsh.s_struct [ ("initialized", borsh.s_bool);
                   ("prizes", borsh.s_array borsh.s_string);
                   ("probabilities", borsh.s_array borsh.s_u8) ].

(** The inner [try]: decode, then [setIsInitialized(wheelState.initialized)]. *)
Definition decode_initialized (data : bytes) : Prog unit :=
  wheelState <- of_completion (borsh.deserialize wheelStateSchema data) ;;
  setIsInitialized (borsh.to_boolean (borsh.field "initialized" wheelState)).

(** The outer [try] block. *)
Definition check_body : Prog (option bytes) :=
  let wheelAccount := PubkeyUtil_fromHex (VITE_WHEEL_STATE_ACCOUNT env) in
  accountInfo <- sdk_readAccountInfo wheelAccount ;;
  match accountInfo with
  | Some {| info_data := Some data |} =>
      (* Try to deserialize the wheel state *)
      try_catch (decode_initialized data)
                (fun err => setIsInitialized false) ;;;
      Ret (Some data)
  | _ =>
      setIsInitialized false ;;;
      Ret None
  end.

Definition checkWheelState (st : AppState) : Prog (option bytes) :=
  if negb (sdk st) then Ret None
  else try_catch check_body
                 (fun err => setIsInitialized false ;;; Ret None).

(** ** [initializeWheel] *)

Definition initializeSchema : borsh.Schema :=
  borsh.s_struct [ ("prizes", borsh.s_array borsh.s_string);
                   ("probabilities", borsh.s_array borsh.s_u8) ].

(** The object [{ prizes, probabilities: new Uint8Array(probabilities) }]. *)
Definition initializeValue (prizes : list string) (probabilities : list Z)
  : borsh.Value :=
  borsh.v_object
    [ ("prizes", borsh.v_array (map borsh.v_string prizes));
      ("probabilities",
       borsh.v_array (map borsh.v_number (Uint8Array_from probabilities))) ].

(** [instructionData] of [initializeWheel], for the prizes and the
    probabilities it is given. *)
Definition initializeData (prizes : list string) (probabilities : list Z)
  : Completion bytes :=
  match borsh.serialize initializeSchema (initializeValue prizes probabilities) with
  | Normal payload =>
      Normal (Buffer_concat [ Uint8Array_from [0];  (* InitializeWheel variant *)
                              payload ])
  | Thrown e => Thrown e
  end.

Definition initInstruction (publicKey : string) (instructionData : bytes)
  : Instruction :=
  {| program_id := PubkeyUtil_fromHex (VITE_PROGRAM_ID env);
     accounts :=
       [ {| pubkey := PubkeyUtil_fromHex (VITE_WHEEL_STATE_ACCOUNT env);
            is_signer := false;      (* wheel account first *)
            is_writable := true |};
         {| pubkey := PubkeyUtil_fromHex publicKey;
            is_signer := true;       (* authority second *)
            is_writable := true |} ];
     data := instructionData |}.

Definition initialize_body (st : AppState) (walletAddress publicKey : string)
  : Prog unit :=
  let wheelAccount := PubkeyUtil_fromHex (VITE_WHEEL_STATE_ACCOUNT env) in
  accountInfo <- sdk_readAccountInfo wheelAccount ;;
  let prizes := map prize_option wheelData in
  let probabilities := [34; 33; 33] in
  instructionData <- of_completion (initializeData prizes probabilities) ;;
  txId <- sendTransaction walletAddress publicKey
            (initInstruction publicKey instructionData) ;;
  (* Wait and check result *)
  sleep 2000 ;;;
  processedTx <- sdk_getProcessedTransaction txId ;;
  finalState <- checkWheelState st ;;
  Ret tt.

Definition initializeWheel (st : AppState) : Prog unit :=
  if negb (sdk st) || negb (truthy (walletAddress st)) || negb (truthy (publicKey st))
  then Ret tt
  else
    match walletAddress st, publicKey st with
    | Some walletAddress, Some publicKey =>
        try_catch (initialize_body st walletAddress publicKey)
                  (fun err => Throw err)
    | _, _ => Ret tt
    end.

End Component.

(* ===================================================================== *)
(** * Running a program against an environment *)
(* ===================================================================== *)

(** The environment's side of every call. Answers are indexed by how many
    calls of the kind came before, so a world fixes one answer per call
    and the worlds together cover every behaviour of the wallet, the
    endpoint and the random sources. [message_hash] is the SDK's
    [MessageUtil.hash]. *)
Record World : Type := {
  entropy : nat -> Z;
  random : nat -> spec_float;
  message_hash : Message -> bytes;
  wallet : nat -> WalletOutcome;
  send_result : nat -> RpcOutcome string;
  read_result : nat -> RpcOutcome (option AccountInfo);
  processed_result : nat -> RpcOutcome (option TxStatus) }.

(** What the environment saw, in order. *)
Inductive Event : Type :=
| ev_setWheelState (next : option WheelState)
| ev_setIsInitialized (b : bool)
| ev_getRandomValues (out : bytes)
| ev_random (r : spec_float)
| ev_hash (m : Message)
| ev_setTimeout (ms : Z)
| ev_audio (op : AudioOp)
| ev_digest (input : bytes)
| ev_signMessage (p : SignPayload) (o : WalletOutcome)
| ev_sendTransaction (tx : Transaction) (r : RpcOutcome string)
| ev_readAccountInfo (address : bytes)
| ev_getProcessedTransaction (txid : string)
| ev_sleep (ms : Z).

(** How many calls of each kind were answered. *)
Record Counters : Type := {
  n_entropy : nat;
  n_random : nat;
  n_sign : nat;
  n_send : nat;
  n_read : nat;
  n_processed : nat }.

Definition no_calls : Counters :=
  {| n_entropy := 0; n_random := 0; n_sign := 0; n_send := 0; n_read := 0;
     n_processed := 0 |}.

(** The page: React state, pending timers, whether an updater failed
    while rendering, the calls answered so far and their record. *)
Record Machine : Type := {
  ui : AppState;
  timers : list (Z * list Action);
  render_error : bool;
  calls : Counters;
  log : list Event }.

Definition start (st : AppState) : Machine :=
  {| ui := st; timers := []; render_error := false; calls := no_calls; log := [] |}.

Definition with_wheelState (ws : WheelState) (st : AppState) : AppState :=
  {| wheelState := ws; walletAddress := walletAddress st; publicKey := publicKey st;
     sdk := sdk st; isAdmin := isAdmin st; isInitialized := isInitialized st |}.

Definition with_isInitialized (b : bool) (st : AppState) : AppState :=
  {| wheelState := wheelState st; walletAddress := walletAddress st;
     publicKey := publicKey st; sdk := sdk st; isAdmin := isAdmin st;
     isInitialized := b |}.

Definition record (ev : Event) (m : Machine) : Machine :=
  {| ui := ui m; timers := timers m; render_error := render_error m;
     calls := calls m; log := log m ++ [ev] |}.

Definition with_ui (st : AppState) (m : Machine) : Machine :=
  {| ui := st; timers := timers m; render_error := render_error m;
     calls := calls m; log := log m |}.

Definition with_calls (c : Counters) (m : Machine) : Machine :=
  {| ui := ui m; timers := timers m; render_error := render_error m;
     calls := c; log := log m |}.

(** React applies an updater to the current state; an updater that fails
    leaves the state as it was. *)
Definition apply_updater (u : Updater) (m : Machine) : Machine :=
  match u (wheelState (ui m)) with
  | Some ws => record (ev_setWheelState (Some ws)) (with_ui (with_wheelState ws (ui m)) m)
  | None =>
      record (ev_setWheelState None)
        {| ui := ui m; timers := timers m; render_error := true;
           calls := calls m; log := log m |}
  end.

Definition add_timer (c : list Action) (ms : Z) (m : Machine) : Machine :=
  record (ev_setTimeout ms)
    {| ui := ui m; timers := timers m ++ [(ms, c)]; render_error := render_error m;
       calls := calls m; log := log m |}.

(** [crypto.getRandomValues(new Uint8Array(n))]: the next [n] bytes of the
    platform's random source. *)
Definition fill_random (w : World) (from n : nat) : bytes :=
  map (fun i => to_u8 (entropy w (from + i)%nat)) (seq 0 n).

Definition bump_entropy (n : nat) (c : Counters) : Counters :=
  {| n_entropy := n_entropy c + n; n_random := n_random c; n_sign := n_sign c;
     n_send := n_send c; n_read := n_read c; n_processed := n_processed c |}.
Definition bump_random (c : Counters) : Counters :=
  {| n_entropy := n_entropy c; n_random := S (n_random c); n_sign := n_sign c;
     n_send := n_send c; n_read := n_read c; n_processed := n_processed c |}.
Definition bump_sign (c : Counters) : Counters :=
  {| n_entropy := n_entropy c; n_random := n_random c; n_sign := S (n_sign c);
     n_send := n_send c; n_read := n_read c; n_processed := n_processed c |}.
Definition bump_send (c : Counters) : Counters :=
  {| n_entropy := n_entropy c; n_random := n_random c; n_sign := n_sign c;
     n_send := S (n_send c); n_read := n_read c; n_processed := n_processed c |}.
Definition bump_read (c : Counters) : Counters :=
  {| n_entropy := n_entropy c; n_random := n_random c; n_sign := n_sign c;
     n_send := n_send c; n_read := S (n_read c); n_processed := n_processed c |}.
Definition bump_processed (c : Counters) : Counters :=
  {| n_entropy := n_entropy c; n_random := n_random c; n_sign := n_sign c;
     n_send := n_send c; n_read := n_read c; n_processed := S (n_processed c) |}.

(** [run w p m]: the program [p] run to its end from the page [m], every
    call answered by the world [w]. *)
Fixpoint run {A} (w : World) (p : Prog A) (m : Machine) : Machine * Completion A :=
  match p with
  | Ret a => (m, Normal a)
  | Throw e => (m, Thrown e)
  | SetWheelState u k => run w k (apply_updater u m)
  | SetIsInitialized b k =>
      run w k (record (ev_setIsInitialized b) (with_ui (with_isInitialized b (ui m)) m))
  | GetRandomValues n k =>
      let out := fill_random w (n_entropy (calls m)) n in
      run w (k out) (record (ev_getRandomValues out)
                       (with_calls (bump_entropy n (calls m)) m))
  | MathRandom k =>
      let r := random w (n_random (calls m)) in
      run w (k r) (record (ev_random r) (with_calls (bump_random (calls m)) m))
  | MessageHash msg k => run w (k (message_hash w msg)) (record (ev_hash msg) m)
  | SetTimeout c ms k => run w k (add_timer c ms m)
  | Audio op k => run w k (record (ev_audio op) m)
  | SubtleDigest input k =>
      run w (k (subtle_digest_SHA256 input)) (record (ev_digest input) m)
  | SignMessage p k =>
      let o := wallet w (n_sign (calls m)) in
      run w (k o) (record (ev_signMessage p o) (with_calls (bump_sign (calls m)) m))
  | SdkSendTransaction tx k =>
      let r := send_result w (n_send (calls m)) in
      run w (k r) (record (ev_sendTransaction tx r)
                     (with_calls (bump_send (calls m)) m))
  | ReadAccountInfo a k =>
      let r := read_result w (n_read (calls m)) in
      run w (k r) (record (ev_readAccountInfo a) (with_calls (bump_read (calls m)) m))
  | GetProcessedTransaction t k =>
      let r := processed_result w (n_processed (calls m)) in
      run w (k r) (record (ev_getProcessedTransaction t)
                     (with_calls (bump_processed (calls m)) m))
  | Sleep ms k => run w k (record (ev_sleep ms) m)
  end.

(* ===================================================================== *)
(** * Earlier revisions of the component *)
(* ===================================================================== *)

(** The callback of the earlier revisions: it only stops the wheel. *)
Definition stop_spinning : list Action := [ act_setWheelState (set_isSpinning false) ].

(** The revision that signs inside [spinWheel]: the commit signs the
    message hash, the reveal signs a fixed text. *)
Module InlineSigning.
Section Component.

Variable env : ImportMetaEnv.

Definition commitInstruction (publicKey : string) (commitment : bytes) : Instruction :=
  {| program_id := PubkeyUtil_fromHex (VITE_PROGRAM_ID env);
     accounts := [ {| pubkey := PubkeyUtil_fromHex publicKey;
                      is_signer := true;
                      is_writable := false |} ];
     data := Buffer_concat [ Uint8Array_from [1]; Uint8Array_from commitment ] |}.

Definition revealInstruction (publicKey : string) (userSecret : bytes) : Instruction :=
  {| program_id := PubkeyUtil_fromHex (VITE_PROGRAM_ID env);
     accounts := [ {| pubkey := PubkeyUtil_fromHex publicKey;
                      is_signer := true;
                      is_writable := false |} ];
     data := Buffer_concat [ Uint8Array_from [2]; userSecret ] |}.

(** The commit's callbacks and the variable [commitSignature]. *)
Definition commitSignature_of (o : WalletOutcome) : Prog (option bytes) :=
  match o with
  | onFinish (Some (String c r)) =>
      (* Take last 64 bytes of signature *)
      Ret (Some (slice_from 2 (Uint8Array_from (Buffer_from_base64 (String c r)))))
  | onFinish _ => Throw (Error "No signature returned")
  | onCancel => Throw (Error "User cancelled signing")
  | noCallback => Ret None
  end.

(** The reveal's callbacks and the variable [revealSignature]. *)
Definition revealSignature_of (o : WalletOutcome) : Prog (option bytes) :=
  match o with
  | onFinish (Some (String c r)) =>
      Ret (Some (Uint8Array_from (Buffer_from_base64 (String c r))))
  | onFinish _ => Throw (Error "No signature returned")
  | onCancel => Throw (Error "User cancelled signing")
  | noCallback => Ret None
  end.

Definition spin_body (walletAddress publicKey : string) : Prog unit :=
  setWheelState (set_isSpinning true) ;;;
  userSecret <- getRandomValues 32 ;;
  commitment <- subtle_digest userSecret ;;
  let messageObj :=
    {| signers := [PubkeyUtil_fromHex publicKey];
       instructions := [commitInstruction publicKey commitment] |} in
  messageHash <- MessageUtil_hash messageObj ;;
  o <- signMessage {| sp_message := toString_hex messageHash;
                      sp_address := walletAddress;
                      sp_network := Testnet |} ;;
  commitSignature <- commitSignature_of o ;;
  let commitTx := {| version := 0;
                     signatures := [commitSignature];
                     message := messageObj |} in
  commitTxId <- sdk_sendTransaction commitTx ;;
  sleep 2000 ;;;
  (* Second transaction: reveal *)
  o <- signMessage {| sp_message := "Reveal wheel spin";
                      sp_address := walletAddress;
                      sp_network := Testnet |} ;;
  revealSignature <- revealSignature_of o ;;
  match revealSignature with
  | None => Throw (Error "No reveal signature returned from wallet")
  | Some _ =>
      let revealTx :=
        {| version := 0;
           signatures := [revealSignature];
           message := {| signers := [PubkeyUtil_fromHex publicKey];
                         instructions := [revealInstruction publicKey userSecret] |} |} in
      revealTxId <- sdk_sendTransaction revealTx ;;
      r <- Math_random ;;
      setWheelState (set_prize wheelData (draw_prize wheelData r)) ;;;
      setTimeout stop_spinning 10000
  end.

Definition spin_failed (err : JsError) : Prog unit :=
  setWheelState (set_isSpinning false).

Definition spinWheel (st : AppState) : Prog unit :=
  if negb (sdk st) || negb (truthy (walletAddress st)) || negb (truthy (publicKey st))
     || isSpinning (wheelState st)
  then Ret tt
  else
    match walletAddress st, publicKey st with
    | Some walletAddress, Some publicKey =>
        try_catch (spin_body walletAddress publicKey) spin_failed
    | _, _ => Ret tt
    end.

End Component.
End InlineSigning.

(** The first revision ([src/app/frontend/src/App.jsx]): one signed text,
    one transaction, then the draw. *)
Module SingleSpin.
Section Component.

Variable env : ImportMetaEnv.

Definition wheelData : list WheelDatum :=
  [ {| prize_option := "Prize 1"; backgroundColor := "#ff8f43"; textColor := "white" |};
    {| prize_option := "Prize 2"; backgroundColor := "#70bbe0"; textColor := "white" |};
    {| prize_option := "Prize 3"; backgroundColor := "#ff5252"; textColor := "white" |} ].

Definition final_signature_of (o : WalletOutcome) : Prog (option bytes) :=
  match o with
  | onFinish (Some (String c r)) =>
      (* Convert base64 to Uint8Array *)
      Ret (Some (Uint8Array_from (Buffer_from_base64 (String c r))))
  | onFinish _ => Throw (Error "No signature returned")
  | onCancel => Throw (Error "User cancelled signing")
  | noCallback => Ret None
  end.

Definition instruction (publicKey : string) : Instruction :=
  {| program_id := PubkeyUtil_fromHex (VITE_PROGRAM_ID env);
     accounts := [ {| pubkey := PubkeyUtil_fromHex publicKey;
                      is_signer := true;
                      is_writable := false |} ];
     data := Uint8Array_from [1] (* 1 represents SpinWheel instruction *) |}.

Definition spin_body (walletAddress publicKey : string) : Prog unit :=
  setWheelState (set_isSpinning true) ;;;
  (* Sign the spin transaction *)
  o <- signMessage {| sp_message := "Spin the wheel!";
                      sp_address := walletAddress;
                      sp_network := Testnet |} ;;
  final_signature <- final_signature_of o ;;
  match final_signature with
  | None => Throw (Error "No signature returned from wallet")
  | Some _ =>
      let transaction :=
        {| version := 0;
           signatures := [final_signature];
           message := {| signers := [PubkeyUtil_fromHex publicKey];
                         instructions := [instruction publicKey] |} |} in
      txid <- sdk_sendTransaction transaction ;;
      r <- Math_random ;;
      setWheelState (set_prize wheelData (draw_prize wheelData r)) ;;;
      setTimeout stop_spinning 10000
  end.

Definition spin_failed (err : JsError) : Prog unit :=
  setWheelState (set_isSpinning false).

Definition spinWheel (st : AppState) : Prog unit :=
  if negb (sdk st) || negb (truthy (walletAddress st)) || negb (truthy (publicKey st))
     || isSpinning (wheelState st)
  then Ret tt
  else
    match walletAddress st, publicKey st with
    | Some walletAddress, Some publicKey =>
        try_catch (spin_body walletAddress publicKey) spin_failed
    | _, _ => Ret tt
    end.

End Component.
End SingleSpin.

(* ===================================================================== *)
(** * A session: clicks, answers and timers in any order *)
(* ===================================================================== *)

(** The page runs one handler at a time. A handler runs until it awaits;
    it goes on when the environment answers the awaited call. *)
Inductive Status : Type :=
| finished (c : Completion unit)
| suspended (p : Prog unit).

(** [advance w p m]: the calls of [p] up to its next awaited call. *)
Fixpoint advance (w : World) (p : Prog unit) (m : Machine) : Machine * Status :=
  match p with
  | Ret a => (m, finished (Normal a))
  | Throw e => (m, finished (Thrown e))
  | SetWheelState u k => advance w k (apply_updater u m)
  | SetIsInitialized b k =>
      advance w k (record (ev_setIsInitialized b)
                     (with_ui (with_isInitialized b (ui m)) m))
  | GetRandomValues n k =>
      let out := fill_random w (n_entropy (calls m)) n in
      advance w (k out) (record (ev_getRandomValues out)
                           (with_calls (bump_entropy n (calls m)) m))
  | MathRandom k =>
      let r := random w (n_random (calls m)) in
      advance w (k r) (record (ev_random r) (with_calls (bump_random (calls m)) m))
  | MessageHash msg k => advance w (k (message_hash w msg)) (record (ev_hash msg) m)
  | SetTimeout c ms k => advance w k (add_timer c ms m)
  | Audio op k => advance w k (record (ev_audio op) m)
  | SubtleDigest _ _ | SignMessage _ _ | SdkSendTransaction _ _
  | ReadAccountInfo _ _ | GetProcessedTransaction _ _ | Sleep _ _ =>
      (m, suspended p)
  end.

(** [resume w p m]: the awaited call at the head of [p] is answered and
    [p] goes on to its next awaited call. *)
Definition resume (w : World) (p : Prog unit) (m : Machine) : Machine * Status :=
  match p with
  | SubtleDigest input k =>
      advance w (k (subtle_digest_SHA256 input)) (record (ev_digest input) m)
  | SignMessage sp k =>
      let o := wallet w (n_sign (calls m)) in
      advance w (k o) (record (ev_signMessage sp o)
                         (with_calls (bump_sign (calls m)) m))
  | SdkSendTransaction tx k =>
      let r := send_result w (n_send (calls m)) in
      advance w (k r) (record (ev_sendTransaction tx r)
                         (with_calls (bump_send (calls m)) m))
  | ReadAccountInfo a k =>
      let r := read_result w (n_read (calls m)) in
      advance w (k r) (record (ev_readAccountInfo a)
                         (with_calls (bump_read (calls m)) m))
  | GetProcessedTransaction t k =>
      let r := processed_result w (n_processed (calls m)) in
      advance w (k r) (record (ev_getProcessedTransaction t)
                         (with_calls (bump_processed (calls m)) m))
  | Sleep ms k => advance w k (record (ev_sleep ms) m)
  | _ => advance w p m
  end.

(** The page and the handlers suspended on it. *)
Record Session : Type := {
  page : Machine;
  tasks : list (Prog unit) }.

Definition opening (st : AppState) : Session :=
  {| page := start st; tasks := [] |}.

Definition remove_nth {A} (i : nat) (l : list A) : list A :=
  firstn i l ++ skipn (S i) l.

Definition settle_task (r : Machine * Status) (others : list (Prog unit)) : Session :=
  match snd r with
  | suspended p => {| page := fst r; tasks := others ++ [p] |}
  | finished _ => {| page := fst r; tasks := others |}
  end.

Definition run_action (m : Machine) (a : Action) : Machine :=
  match a with
  | act_setWheelState u => apply_updater u m
  | act_audio op => record (ev_audio op) m
  end.

Definition drop_timer (i : nat) (m : Machine) : Machine :=
  {| ui := ui m; timers := remove_nth i (timers m); render_error := render_error m;
     calls := calls m; log := log m |}.

(** What can happen next on the page. *)
Inductive Input : Type :=
| click_spin                       (* the user presses the spin button *)
| answer (i : nat)                 (* the call task [i] awaits is answered *)
| timer_fires (i : nat)            (* the pending timer [i] runs its callback *)
| sdk_ready                        (* [setSdk(archSdk)] *)
| wallet_connected (address publicKey : string).

Section Scheduler.

Variable env : ImportMetaEnv.
Variable w : World.

(** The button runs [spinWheel] of the last render. *)
Definition click (s : Session) : Session :=
  settle_task (advance w (spinWheel env (ui (page s))) (page s)) (tasks s).

Definition step (s : Session) (i : Input) : Session :=
  match i with
  | click_spin => click s
  | answer i =>
      match nth_error (tasks s) i with
      | Some p => settle_task (resume w p (page s)) (remove_nth i (tasks s))
      | None => s
      end
  | timer_fires i =>
      match nth_error (timers (page s)) i with
      | Some (_, callback) =>
          {| page := fold_left run_action callback (drop_timer i (page s));
             tasks := tasks s |}
      | None => s
      end
  | sdk_ready =>
      let st := ui (page s) in
      {| page := with_ui {| wheelState := wheelState st;
                             walletAddress := walletAddress st;
                             publicKey := publicKey st;
                             sdk := true;
                             isAdmin := isAdmin st;
                             isInitialized := isInitialized st |} (page s);
         tasks := tasks s |}
  | wallet_connected address pk =>
      let st := ui (page s) in
      {| page := with_ui {| wheelState := wheelState st;
                             walletAddress := Some address;
                             publicKey := Some pk;
                             sdk := sdk st;
                             isAdmin := isAdmin st;
                             isInitialized := isInitialized st |} (page s);
         tasks := tasks s |}
  end.

Definition session (inputs : list Input) (s : Session) : Session :=
  fold_left step inputs s.

End Scheduler.

(** Whether an event hands an instruction of the given discriminant to
    the SDK (to hash it, or inside a submitted transaction). *)
Definition has_discriminant (d : Z) (i : Instruction) : bool :=
  match data i with
  | x :: _ => x =? d
  | [] => false
  end.

Definition carries (d : Z) (ev : Event) : bool :=
  match ev with
  | ev_hash m => existsb (has_discriminant d) (instructions m)
  | ev_sendTransaction tx _ => existsb (has_discriminant d) (instructions (message tx))
  | _ => false
  end.

(** The instructions of discriminant [d] the SDK was given, in order. *)
Definition built (d : Z) (l : list Event) : list Instruction :=
  flat_map (fun ev => match ev with
                      | ev_hash m => filter (has_discriminant d) (instructions m)
                      | _ => []
                      end) l.

(** The transactions submitted, in order. *)
Definition submitted (l : list Event) : list Transaction :=
  flat_map (fun ev => match ev with
                      | ev_sendTransaction tx _ => [tx]
                      | _ => []
                      end) l.

(* ===================================================================== *)
(** * Reading instruction data back *)
(* ===================================================================== *)

Definition strings_of (v : borsh.Value) : option (list string) :=
  match v with
  | borsh.v_array items =>
      fold_right (fun x acc => match x, acc with
                               | borsh.v_string s, Some l => Some (s :: l)
                               | _, _ => None
                               end) (Some []) items
  | _ => None
  end.

Definition numbers_of (v : borsh.Value) : option (list Z) :=
  match v with
  | borsh.v_array items =>
      fold_right (fun x acc => match x, acc with
                               | borsh.v_number n, Some l => Some (n :: l)
                               | _, _ => None
                               end) (Some []) items
  | _ => None
  end.

(** Modelled from the spec: the decoder of InitializeWheel instruction
    data, which belongs to the remote program and is not among the
    sources. The spec gives the layout: [data[0]] is the discriminant 0,
    the payload is the length-prefixed string array of prizes followed by
    the length-prefixed byte array of probabilities, read with the same
    format as the encoder writes. *)
Definition decodeInitializeWheel (data : bytes) : option (list string * list Z) :=
  match data with
  | 0 :: payload =>
      match borsh.deserialize initializeSchema payload with
      | Normal v =>
          match strings_of (borsh.field "prizes" v),
                numbers_of (borsh.field "probabilities" v) with
          | Some prizes, Some probabilities => Some (prizes, probabilities)
          | _, _ => None
          end
      | Thrown _ => None
      end
  | _ => None
  end.

(* ===================================================================== *)
(** * Describing runs *)
(* ===================================================================== *)

(** The events a run added to the record of the page it started from. *)
Definition since (m m' : Machine) : list Event :=
  skipn (length (log m)) (log m').

(** A byte string: every element is in [0, 256). *)
Definition is_bytes (b : bytes) : Prop := Forall (fun x => 0 <= x < 256) b.

(** The message [sendTransaction] wraps an instruction in. *)
Definition message_of (publicKey : string) (i : Instruction) : Message :=
  {| signers := [PubkeyUtil_fromHex publicKey]; instructions := [i] |}.

(** The request [sendTransaction] puts to the wallet. *)
Definition request_of (w : World) (walletAddress publicKey : string)
    (i : Instruction) : SignPayload :=
  {| sp_message := toString_hex (message_hash w (message_of publicKey i));
     sp_address := walletAddress;
     sp_network := Testnet |}.

(** What [sendTransaction] makes of a wallet outcome: the signature it
    puts in the transaction, or the error it throws. *)
Definition usable_signature (o : WalletOutcome) : Completion bytes :=
  match o with
  | onFinish (Some (String c r)) =>
      Normal (slice_from 2 (Uint8Array_from (Buffer_from_base64 (String c r))))
  | onFinish _ => Thrown (Error "No signature returned")
  | onCancel => Thrown (Error "User cancelled signing")
  | noCallback => Thrown (Error "No signature returned from wallet")
  end.

(** The page after the hash and the wallet's answer. *)
Definition signed (w : World) (walletAddress publicKey : string)
    (i : Instruction) (m : Machine) : Machine :=
  record (ev_signMessage (request_of w walletAddress publicKey i)
            (wallet w (n_sign (calls m))))
    (with_calls (bump_sign (calls m))
       (record (ev_hash (message_of publicKey i)) m)).

(** The page after the submission of [tx], and what the endpoint said. *)
Definition submit (w : World) (tx : Transaction) (m : Machine)
  : Machine * Completion string :=
  let r := send_result w (n_send (calls m)) in
  (record (ev_sendTransaction tx r) (with_calls (bump_send (calls m)) m),
   match r with
   | rpc_ok txid => Normal txid
   | rpc_error e => Thrown e
   end).

(** A whole [sendTransaction], as one step. *)
Definition sent (w : World) (walletAddress publicKey : string)
    (i : Instruction) (m : Machine) : Machine * Completion string :=
  let m1 := signed w walletAddress publicKey i m in
  match usable_signature (wallet w (n_sign (calls m))) with
  | Normal signature =>
      submit w {| version := 0;
                  signatures := [Some signature];
                  message := message_of publicKey i |} m1
  | Thrown e => (m1, Thrown e)
  end.

(** The page once an accepted spin has its secret and its commitment. *)
Definition committed_to (w : World) (m : Machine) : Machine :=
  let secret := fill_random w (n_entropy (calls m)) 32 in
  record (ev_digest secret)
    (record (ev_getRandomValues secret)
       (with_calls (bump_entropy 32 (calls m))
          (apply_updater (set_isSpinning true)
             (record (ev_audio audio_play)
                (record (ev_audio audio_loop)
                   (record (ev_audio audio_rewind) m)))))).

(** The page after the [catch] block. *)
Definition failed_on (m : Machine) : Machine :=
  record (ev_audio audio_rewind)
    (record (ev_audio audio_pause) (apply_updater (set_isSpinning false) m)).

(** The page after the draw, the prize and the timer. *)
Definition resolved_on (w : World) (m : Machine) : Machine :=
  let r := random w (n_random (calls m)) in
  add_timer stop_wheel 10000
    (apply_updater (set_prize wheelData (draw_prize wheelData r))
       (record (ev_random r) (with_calls (bump_random (calls m)) m))).

(** The commit step of a spin started on [m] fails when the wallet leaves
    no usable signature or the endpoint rejects the transaction. *)
Definition commit_fails (w : World) (m : Machine) : Prop :=
  match usable_signature (wallet w (n_sign (calls m))) with
  | Thrown _ => True
  | Normal _ =>
      match send_result w (n_send (calls m)) with
      | rpc_error _ => True
      | rpc_ok _ => False
      end
  end.

(** The events of one [sendTransaction]. *)
Definition sent_events (w : World) (walletAddress publicKey : string)
    (i : Instruction) (m : Machine) : list Event :=
  let o := wallet w (n_sign (calls m)) in
  ev_hash (message_of publicKey i)
  :: ev_signMessage (request_of w walletAddress publicKey i) o
  :: match usable_signature o with
     | Normal signature =>
         [ ev_sendTransaction {| version := 0;
                                 signatures := [Some signature];
                                 message := message_of publicKey i |}
                              (send_result w (n_send (calls m))) ]
     | Thrown _ => []
     end.

(** The events up to the commitment. *)
Definition committed_events (w : World) (m : Machine) : list Event :=
  let secret := fill_random w (n_entropy (calls m)) 32 in
  [ ev_audio audio_rewind; ev_audio audio_loop; ev_audio audio_play;
    ev_setWheelState (set_isSpinning true (wheelState (ui m)));
    ev_getRandomValues secret;
    ev_digest secret ].

(** The events of the [catch] block. *)
Definition failed_events (m : Machine) : list Event :=
  [ ev_setWheelState (set_isSpinning false (wheelState (ui m)));
    ev_audio audio_pause; ev_audio audio_rewind ].

(** The events of the draw. *)
Definition resolved_events (w : World) (m : Machine) : list Event :=
  let r := random w (n_random (calls m)) in
  [ ev_random r;
    ev_setWheelState (set_prize wheelData (draw_prize wheelData r) (wheelState (ui m)));
    ev_setTimeout 10000 ].

(** The random draws among events. *)
Definition draws (l : list Event) : list bytes :=
  flat_map (fun ev => match ev with
                      | ev_getRandomValues out => [out]
                      | _ => []
                      end) l.

(** What the reader may find at the wheel-state address when the wheel
    is not there to be read: nothing, an account without data, data of
    length zero, data that does not decode, or a failed read. *)
Inductive Unreadable (schema : borsh.Schema)
  : RpcOutcome (option AccountInfo) -> Prop :=
| no_account : Unreadable schema (rpc_ok None)
| no_data : Unreadable schema (rpc_ok (Some {| info_data := None |}))
| zero_length : Unreadable schema (rpc_ok (Some {| info_data := Some [] |}))
| undecodable d :
    is_thrown (borsh.deserialize schema d) = true ->
    Unreadable schema (rpc_ok (Some {| info_data := Some d |}))
| read_failed e : Unreadable schema (rpc_error e).

(** ** The wire layout of InitializeWheel, as the spec words it *)

(** A length-prefixed string: the byte length on 32 bits, then the bytes. *)
Definition string_wire (s : string) : bytes :=
  borsh.le32 (Z.of_nat (length (string_bytes s))) ++ string_bytes s.

(** The length-prefixed string array followed by the length-prefixed byte
    array. *)
Definition initializePayload (prizes : list string) (probabilities : bytes) : bytes :=
  borsh.le32 (Z.of_nat (length prizes)) ++ concat (map string_wire prizes)
  ++ borsh.le32 (Z.of_nat (length probabilities)) ++ probabilities.

(** Lengths that fit the 32-bit prefix. *)
Definition fits_u32 (n : nat) : Prop := Z.of_nat n < 4294967296.

(** ** A spin in flight *)

(** An updater that leaves [isSpinning] as it is. *)
Definition keeps_spinning (u : Updater) : Prop :=
  forall ws ws', u ws = Some ws' -> isSpinning ws' = isSpinning ws.

(** The end of a handler: sounds, then the return. *)
Inductive Ending : Prog unit -> Prop :=
| ending_ret : Ending (Ret tt)
| ending_audio op k : Ending k -> Ending (Audio op k).

(** The programs a spin can be at while it is in flight: whatever the
    environment answers, they either reach the [catch] block, which clears
    [isSpinning] and ends, or set the prize and the one timer that stops
    the wheel, and end. *)
Inductive InFlight : Prog unit -> Prop :=
| flight_failed k : Ending k -> InFlight (SetWheelState (set_isSpinning false) k)
| flight_resolved u :
    keeps_spinning u ->
    InFlight (SetWheelState u (SetTimeout stop_wheel 10000 (Ret tt)))
| flight_random k : (forall r, InFlight (k r)) -> InFlight (MathRandom k)
| flight_hash msg k : (forall h, InFlight (k h)) -> InFlight (MessageHash msg k)
| flight_digest input k : (forall h, InFlight (k h)) -> InFlight (SubtleDigest input k)
| flight_sign p k : (forall o, InFlight (k o)) -> InFlight (SignMessage p k)
| flight_send tx k : (forall r, InFlight (k r)) -> InFlight (SdkSendTransaction tx k)
| flight_sleep ms k : InFlight k -> InFlight (Sleep ms k).

(** The three shapes of a session: nothing in flight and no timer; one
    spin in flight, [isSpinning] set, no timer; the wheel resolved,
    [isSpinning] set until the one timer fires. *)
Inductive Shape : Session -> Prop :=
| shape_idle s : tasks s = [] -> timers (page s) = [] -> Shape s
| shape_spinning s p :
    tasks s = [p] -> InFlight p ->
    isSpinning (wheelState (ui (page s))) = true ->
    timers (page s) = [] -> Shape s
| shape_resolved s :
    tasks s = [] ->
    isSpinning (wheelState (ui (page s))) = true ->
    timers (page s) = [(10000, stop_wheel)] -> Shape s.

(** ** The draw *)

(** What [Math.random()] returns: a Number [x] with [0 <= x < 1]. *)
Definition in_unit_interval (x : spec_float) : bool :=
  valid_binary prec emax x
  && SFleb (S754_zero false) x
  && SFltb x (Number_of_Z 1).

(** A wallet answer and an endpoint answer that let [sendTransaction]
    return. *)
Definition step_succeeds (w : World) (n_sign n_send : nat) : Prop :=
  (exists signature, usable_signature (wallet w n_sign) = Normal signature) /\
  (exists txid, send_result w n_send = rpc_ok txid).

(** Both steps of a spin started on [m] succeed. *)
Definition spin_succeeds (w : World) (m : Machine) : Prop :=
  step_succeeds w (n_sign (calls m)) (n_send (calls m)) /\
  step_succeeds w (S (n_sign (calls m))) (S (n_send (calls m))).

(** The spin of the first revision succeeds: the wallet gives a response
    and the endpoint accepts the transaction. *)
Definition single_spin_succeeds (w : World) (m : Machine) : Prop :=
  (exists c r, wallet w (n_sign (calls m)) = onFinish (Some (String c r))) /\
  (exists txid, send_result w (n_send (calls m)) = rpc_ok txid).

(** The prize shown is the one drawn, and it is one of the wheel's. *)
Definition prize_drawn (data : list WheelDatum) (ws : WheelState) : Prop :=
  exists d,
    0 <= prizeNumber ws < Z.of_nat (length data) /\
    index data (prizeNumber ws) = Some d /\
    currentPrize ws = Some (prize_option d).

(** ** The ends of a spin *)

(** How an accepted spin ends: the commit failed, the reveal failed, or
    the wheel was resolved. *)
Inductive SpinEnd (env : ImportMetaEnv) (w : World) (wa pk : string) (m : Machine)
  : Machine -> Prop :=
| commit_failed m2 e :
    sent w wa pk (commitInstruction env pk
                    (subtle_digest_SHA256 (fill_random w (n_entropy (calls m)) 32)))
         (committed_to w m) = (m2, Thrown e) ->
    SpinEnd env w wa pk m (failed_on m2)
| reveal_failed m2 t m4 e :
    sent w wa pk (commitInstruction env pk
                    (subtle_digest_SHA256 (fill_random w (n_entropy (calls m)) 32)))
         (committed_to w m) = (m2, Normal t) ->
    sent w wa pk (revealInstruction env pk (fill_random w (n_entropy (calls m)) 32))
         (record (ev_sleep 2000) m2) = (m4, Thrown e) ->
    SpinEnd env w wa pk m (failed_on m4)
| resolved m2 t m4 t' :
    sent w wa pk (commitInstruction env pk
                    (subtle_digest_SHA256 (fill_random w (n_entropy (calls m)) 32)))
         (committed_to w m) = (m2, Normal t) ->
    sent w wa pk (revealInstruction env pk (fill_random w (n_entropy (calls m)) 32))
         (record (ev_sleep 2000) m2) = (m4, Normal t') ->
    SpinEnd env w wa pk m (resolved_on w m4).

(** How the page stands once a handler in flight stops going on. *)
Definition flight_goes_on (r : Machine * Status) : Prop :=
  match snd r with
  | suspended p' =>
      InFlight p' /\ isSpinning (wheelState (ui (fst r))) = true /\ timers (fst r) = []
  | finished c =>
      c = Normal tt /\
      (timers (fst r) = [] \/
       (timers (fst r) = [(10000, stop_wheel)] /\
        isSpinning (wheelState (ui (fst r))) = true))
  end.

(** ** Rounding *)

(** One right shift keeps the mantissa below, and, when the bit shifted
    out is set, at least half a unit below. *)
Definition shifted (k : Z) (a b : shr_record) : Prop :=
  0 <= shr_m b /\
  shr_m b * 2 ^ k <= shr_m a /\
  (shr_r b = true -> shr_m b * 2 ^ k + 2 ^ (k - 1) <= shr_m a).

(* ===================================================================== *)
(** * Sample configurations *)
(* ===================================================================== *)

Definition sample_env : ImportMetaEnv :=
  {| VITE_PROGRAM_ID := "a1a1a1a1a1a1a1a1a1a1a1a1a1a1a1a1a1a1a1a1a1a1a1a1a1a1a1a1a1a1a1a1";
     VITE_WHEEL_STATE_ACCOUNT :=
       "b2b2b2b2b2b2b2b2b2b2b2b2b2b2b2b2b2b2b2b2b2b2b2b2b2b2b2b2b2b2b2b2";
     VITE_RECENT_BLOCKHASHES :=
       "c3c3c3c3c3c3c3c3c3c3c3c3c3c3c3c3c3c3c3c3c3c3c3c3c3c3c3c3c3c3c3c3";
     VITE_SLOT_INFO :=
       "d4d4d4d4d4d4d4d4d4d4d4d4d4d4d4d4d4d4d4d4d4d4d4d4d4d4d4d4d4d4d4d4" |}.

Definition sample_publicKey : string :=
  "e5e5e5e5e5e5e5e5e5e5e5e5e5e5e5e5e5e5e5e5e5e5e5e5e5e5e5e5e5e5e5e5".

(** A connected wallet, a ready SDK, the wheel at rest. *)
Definition sample_state : AppState :=
  {| wheelState := initialWheelState;
     walletAddress := Some "tb1pexampleaddress";
     publicKey := Some sample_publicKey;
     sdk := true;
     isAdmin := false;
     isInitialized := true |}.

(** A wallet response: base64 of the two bytes 2, 0 and the 64 bytes
    1, ..., 64. *)
Definition sample_response : string :=
  "AgABAgMEBQYHCAkKCwwNDg8QERITFBUWFxgZGhscHR4fICEiIyQlJicoKSorLC0uLzAxMjM0NTY3ODk6Ozw9Pj9A".

(** The Number nearest to 0.9. *)
Definition nine_tenths : spec_float := S754_finite false 8106479329266893 (-53).

(** A world that gives every wallet request, submission and read the same
    answer. *)
Definition answering (o : WalletOutcome) (s : RpcOutcome string)
    (a : RpcOutcome (option AccountInfo)) : World :=
  {| entropy := fun i => Z.of_nat (7 * i + 3);
     random := fun _ => nine_tenths;
     message_hash := fun m => SHA256.digest (concat (map data (instructions m)));
     wallet := fun _ => o;
     send_result := fun _ => s;
     read_result := fun _ => a;
     processed_result := fun _ => rpc_ok (Some Processed) |}.

(** The wallet signs and the endpoint accepts. *)
Definition fair_world : World :=
  answering (onFinish (Some sample_response)) (rpc_ok "txid") (rpc_ok None).

(** The user cancels every signature. *)
Definition cancelling_world : World :=
  answering onCancel (rpc_ok "txid") (rpc_ok None).

(** The wheel-state account exists and holds no bytes. *)
Definition empty_account_world : World :=
  answering onCancel (rpc_ok "txid") (rpc_ok (Some {| info_data := Some [] |})).

(* ===================================================================== *)
(** * The administrator, the wallet connection and the view *)
(* ===================================================================== *)

(** [arr.slice(i, j)] for [0 <= i <= j]: the elements from index [i] up
    to, not including, index [j]; fewer when the array is shorter. *)
Definition slice (i j : nat) (b : bytes) : bytes := firstn (j - i) (skipn i b).

(** One entry of [response.addresses]. *)
Record WalletEntry : Type := {
  entry_address : string;
  entry_publicKey : string }.

(** What the wallet does with a [getAddress] request: it calls
    [onFinish(response)], it calls [onCancel()], or it settles without
    calling either. *)
Inductive AddressOutcome : Type :=
| address_onFinish (addresses : list WalletEntry)
| address_onCancel
| address_noCallback.

(** The state setters [connectWallet] calls. *)
Inductive StateChange : Type :=
| setWalletAddress (a : string)
| setPublicKey (pk : string)
| setIsAdmin (b : bool).

Definition with_connection (c : StateChange) (st : AppState) : AppState :=
  match c with
  | setWalletAddress a =>
      {| wheelState := wheelState st; walletAddress := Some a;
         publicKey := publicKey st; sdk := sdk st; isAdmin := isAdmin st;
         isInitialized := isInitialized st |}
  | setPublicKey pk =>
      {| wheelState := wheelState st; walletAddress := walletAddress st;
         publicKey := Some pk; sdk := sdk st; isAdmin := isAdmin st;
         isInitialized := isInitialized st |}
  | setIsAdmin b =>
      {| wheelState := wheelState st; walletAddress := walletAddress st;
         publicKey := publicKey st; sdk := sdk st; isAdmin := b;
         isInitialized := isInitialized st |}
  end.

(** The callbacks of [connectWallet]: the setters [onFinish] calls with
    the first address, or the TypeError of reading [addresses[0].address]
    when there is none; [onCancel] only logs. *)
Definition address_callbacks (o : AddressOutcome) : Completion (list StateChange) :=
  match o with
  | address_onFinish (e :: _) =>
      (* Store both address and public key *)
      Normal [ setWalletAddress (entry_address e); setPublicKey (entry_publicKey e) ]
  | address_onFinish [] =>
      Thrown (Error "Cannot read properties of undefined (reading 'address')")
  | address_onCancel => Normal []
  | address_noCallback => Normal []
  end.

Section Administration.

Variable env : ImportMetaEnv.

(** ** [checkAdminStatus] *)

(** The [try] block. *)
Definition admin_body (publicKey : string) : Prog bool :=
  let wheelAccount := PubkeyUtil_fromHex (VITE_WHEEL_STATE_ACCOUNT env) in
  accountInfo <- sdk_readAccountInfo wheelAccount ;;
  match accountInfo with
  | Some {| info_data := Some data |} =>
      (* First byte is initialized flag, next 32 is authority *)
      let authority := slice 1 33 data in
      Ret (String.eqb (toString_hex authority) publicKey)
  | _ => Ret false
  end.

(** [st] is the state the component was rendered with. *)
Definition checkAdminStatus (st : AppState) : Prog bool :=
  if negb (sdk st) || negb (truthy (publicKey st)) then Ret false
  else
    match publicKey st with
    | Some publicKey => try_catch (admin_body publicKey) (fun err => Ret false)
    | None => Ret false
    end.

(** ** [connectWallet]

    [o] is what the wallet did with the [getAddress] request. The setters
    called are returned in the order of the calls; [checkAdminStatus] is
    the one of the render [connectWallet] belongs to, so it reads the
    state [st] of that render. *)
Definition connectWallet (st : AppState) (o : AddressOutcome)
  : Prog (list StateChange) :=
  match address_callbacks o with
  | Normal stored =>
      try_catch
        ((* Check admin status after wallet connection *)
         isAdminUser <- checkAdminStatus st ;;
         Ret (stored ++ [setIsAdmin isAdminUser]))
        (fun err => Ret stored)
  | Thrown err => Ret []
  end.

End Administration.

(** The page after [connectWallet] has run on it. *)
Definition connected (env : ImportMetaEnv) (w : World) (o : AddressOutcome)
    (m : Machine) : Machine :=
  let r := run w (connectWallet env (ui m) o) m in
  match snd r with
  | Normal changes =>
      with_ui (fold_left (fun st c => with_connection c st) changes (ui (fst r))) (fst r)
  | Thrown _ => fst r
  end.

(** ** The revision that signs fixed texts

    The component that comes with [transactionHelpers.ts] in the sources:
    each transaction is signed as a fixed text, and no message is
    hashed. *)
Module FixedText.
Section Component.

Variable env : ImportMetaEnv.

Definition wheelData : list WheelDatum :=
  [ {| prize_option := "Prize 1"; backgroundColor := "#ff8f43"; textColor := "white" |};
    {| prize_option := "Prize 2"; backgroundColor := "#70bbe0"; textColor := "white" |};
    {| prize_option := "Prize 3"; backgroundColor := "#ff5252"; textColor := "white" |} ].

(** The callbacks of either request, and the variable they leave behind
    ([commitSignature], [revealSignature]). *)
Definition signature_of (o : WalletOutcome) : Prog (option bytes) :=
  match o with
  | onFinish (Some (String c r)) =>
      Ret (Some (Uint8Array_from (Buffer_from_base64 (String c r))))
  | onFinish _ => Throw (Error "No signature returned")
  | onCancel => Throw (Error "User cancelled signing")
  | noCallback => Ret None
  end.

Definition commitInstruction (publicKey : string) (commitment : bytes) : Instruction :=
  {| program_id := PubkeyUtil_fromHex (VITE_PROGRAM_ID env);
     accounts := [ {| pubkey := PubkeyUtil_fromHex publicKey;
                      is_signer := true;
                      is_writable := true |} ];
     data := Buffer_concat [ Uint8Array_from [1];  (* CommitSpin instruction *)
                             Uint8Array_from commitment ] |}.

Definition revealInstruction (publicKey : string) (userSecret : bytes) : Instruction :=
  {| program_id := PubkeyUtil_fromHex (VITE_PROGRAM_ID env);
     accounts := [ {| pubkey := PubkeyUtil_fromHex publicKey;
                      is_signer := true;
                      is_writable := true |} ];
     data := Buffer_concat [ Uint8Array_from [2];  (* RevealSpin instruction *)
                             userSecret ] |}.

Definition spin_body (walletAddress publicKey : string) : Prog unit :=
  setWheelState (set_isSpinning true) ;;;
  (* Generate user secret and commitment *)
  userSecret <- getRandomValues 32 ;;
  commitment <- subtle_digest userSecret ;;
  (* First transaction: commit *)
  o <- signMessage {| sp_message := "Commit to wheel spin";
                      sp_address := walletAddress;
                      sp_network := Testnet |} ;;
  commitSignature <- signature_of o ;;
  match commitSignature with
  | None => Throw (Error "No commit signature returned from wallet")
  | Some _ =>
      let commitTx :=
        {| version := 0;
           signatures := [commitSignature];
           message := {| signers := [PubkeyUtil_fromHex publicKey];
                         instructions := [commitInstruction publicKey commitment] |} |} in
      commitTxId <- sdk_sendTransaction commitTx ;;
      (* Wait for confirmation *)
      sleep 2000 ;;;
      (* Second transaction: reveal *)
      o <- signMessage {| sp_message := "Reveal wheel spin";
                          sp_address := walletAddress;
                          sp_network := Testnet |} ;;
      revealSignature <- signature_of o ;;
      match revealSignature with
      | None => Throw (Error "No reveal signature returned from wallet")
      | Some _ =>
          let revealTx :=
            {| version := 0;
               signatures := [revealSignature];
               message := {| signers := [PubkeyUtil_fromHex publicKey];
                             instructions := [revealInstruction publicKey userSecret] |} |} in
          revealTxId <- sdk_sendTransaction revealTx ;;
          r <- Math_random ;;
          setWheelState (set_prize wheelData (draw_prize wheelData r)) ;;;
          setTimeout stop_spinning 10000
      end
  end.

Definition spin_failed (err : JsError) : Prog unit :=
  setWheelState (set_isSpinning false).

Definition spinWheel (st : AppState) : Prog unit :=
  if negb (sdk st) || negb (truthy (walletAddress st)) || negb (truthy (publicKey st))
     || isSpinning (wheelState st)
  then Ret tt
  else
    match walletAddress st, publicKey st with
    | Some walletAddress, Some publicKey =>
        try_catch (spin_body walletAddress publicKey) spin_failed
    | _, _ => Ret tt
    end.

End Component.
End FixedText.

(** ** The view *)

(** What the component renders: the connect button; the notice that the
    wheel is not initialized, with the initialize button for an
    administrator; or the game, with the administrator's badge, the spin
    button (disabled or not) and the prize banner. *)
Inductive View : Type :=
| view_connect
| view_uninitialized (initialize_button : bool)
| view_game (admin_badge spin_disabled : bool) (prize_display : option string).

Definition render (st : AppState) : View :=
  if negb (truthy (walletAddress st)) then view_connect
  else if negb (isInitialized st) then view_uninitialized (isAdmin st)
  else
    view_game (isAdmin st) (isSpinning (wheelState st))
      (if truthy (currentPrize (wheelState st)) && negb (isSpinning (wheelState st))
       then currentPrize (wheelState st)
       else None).

(** ** More ways to describe runs *)

(** The guard [!sdk || !walletAddress || !publicKey] of [initializeWheel]. *)
Definition initialize_refused (st : AppState) : bool :=
  negb (sdk st) || negb (truthy (walletAddress st)) || negb (truthy (publicKey st)).

(** Two states that differ at most in [wheelState]. *)
Definition same_outside_wheel (a b : AppState) : Prop :=
  walletAddress a = walletAddress b /\ publicKey a = publicKey b /\
  sdk a = sdk b /\ isAdmin a = isAdmin b /\ isInitialized a = isInitialized b.

(** Whether a message holds a RevealSpin instruction. *)
Definition reveals (ev : Event) : bool :=
  match ev with
  | ev_hash msg => existsb (has_discriminant 2) (instructions msg)
  | _ => false
  end.

(** A step of a spin fails: the wallet leaves no usable signature or the
    endpoint rejects the transaction. *)
Definition step_fails (w : World) (n_sign n_send : nat) : Prop :=
  match usable_signature (wallet w n_sign) with
  | Thrown _ => True
  | Normal _ =>
      match send_result w n_send with
      | rpc_error _ => True
      | rpc_ok _ => False
      end
  end.

(** A spin started on [m] fails at its commit, or at its reveal after the
    commit went through. *)
Definition spin_fails (w : World) (m : Machine) : Prop :=
  step_fails w (n_sign (calls m)) (n_send (calls m)) \/
  (step_succeeds w (n_sign (calls m)) (n_send (calls m)) /\
   step_fails w (S (n_sign (calls m))) (S (n_send (calls m)))).

(** The inputs that give the page a wallet, and the SDK. *)
Definition connects (i : Input) : bool :=
  match i with
  | wallet_connected _ _ => true
  | _ => false
  end.

Definition readies (i : Input) : bool :=
  match i with
  | sdk_ready => true
  | _ => false
  end.

(** The requests put to the wallet, in order. *)
Definition requests (l : list Event) : list SignPayload :=
  flat_map (fun ev => match ev with
                      | ev_signMessage p _ => [p]
                      | _ => []
                      end) l.

(** The messages hashed, in order. *)
Definition hashed (l : list Event) : list Message :=
  flat_map (fun ev => match ev with
                      | ev_hash msg => [msg]
                      | _ => []
                      end) l.

(** A handler awaits at most [n] calls before it ends, whatever the
    environment answers. *)
Inductive AwaitsAtMost : nat -> Prog unit -> Prop :=
| awaits_ret n a : AwaitsAtMost n (Ret a)
| awaits_throw n e : AwaitsAtMost n (Throw e)
| awaits_setWheelState n u k : AwaitsAtMost n k -> AwaitsAtMost n (SetWheelState u k)
| awaits_setIsInitialized n b k :
    AwaitsAtMost n k -> AwaitsAtMost n (SetIsInitialized b k)
| awaits_getRandomValues n len k :
    (forall x, AwaitsAtMost n (k x)) -> AwaitsAtMost n (GetRandomValues len k)
| awaits_random n k : (forall x, AwaitsAtMost n (k x)) -> AwaitsAtMost n (MathRandom k)
| awaits_hash n msg k :
    (forall x, AwaitsAtMost n (k x)) -> AwaitsAtMost n (MessageHash msg k)
| awaits_setTimeout n c ms k : AwaitsAtMost n k -> AwaitsAtMost n (SetTimeout c ms k)
| awaits_audio n op k : AwaitsAtMost n k -> AwaitsAtMost n (Audio op k)
| awaits_digest n input k :
    (forall x, AwaitsAtMost n (k x)) -> AwaitsAtMost (S n) (SubtleDigest input k)
| awaits_sign n p k :
    (forall x, AwaitsAtMost n (k x)) -> AwaitsAtMost (S n) (SignMessage p k)
| awaits_send n tx k :
    (forall x, AwaitsAtMost n (k x)) -> AwaitsAtMost (S n) (SdkSendTransaction tx k)
| awaits_read n a k :
    (forall x, AwaitsAtMost n (k x)) -> AwaitsAtMost (S n) (ReadAccountInfo a k)
| awaits_processed n t k :
    (forall x, AwaitsAtMost n (k x)) -> AwaitsAtMost (S n) (GetProcessedTransaction t k)
| awaits_sleep n ms k : AwaitsAtMost n k -> AwaitsAtMost (S n) (Sleep ms k).

(** The wheel-state account as the reader's layout has it: the flag, the
    prizes, the probabilities, and whatever follows. *)
Definition wheelAccountData (flag : Z) (prizes : list string) (probabilities : bytes)
    (more : bytes) : bytes :=
  flag :: borsh.le32 (Z.of_nat (length prizes)) ++ concat (map string_wire prizes)
  ++ borsh.le32 (Z.of_nat (length probabilities)) ++ probabilities ++ more.

(** ** More sample configurations *)

(** The SDK is ready and no wallet is connected yet. *)
Definition ready_state : AppState :=
  {| wheelState := initialWheelState;
     walletAddress := None;
     publicKey := None;
     sdk := true;
     isAdmin := false;
     isInitialized := false |}.

(** The first address of a wallet that holds the sample key. *)
Definition sample_entry : WalletEntry :=
  {| entry_address := "tb1pexampleaddress"; entry_publicKey := sample_publicKey |}.

(** A wallet that settles without calling a callback. *)
Definition silent_world : World :=
  answering noCallback (rpc_ok "txid") (rpc_ok None).

(** Another wallet, another endpoint and another source of secrets, with
    the same [Math.random()]. *)
Definition second_fair_world : World :=
  {| entropy := fun i => Z.of_nat (i + 11);
     random := fun _ => nine_tenths;
     message_hash := fun m => [];
     wallet := fun _ => onFinish (Some "AAAA");
     send_result := fun _ => rpc_ok "second";
     read_result := fun _ => rpc_error (Error "unreachable");
     processed_result := fun _ => rpc_ok None |}.

(** A user who signs the commit and cancels the reveal. *)
Definition second_thoughts_world : World :=
  {| entropy := fun i => Z.of_nat (7 * i + 3);
     random := fun _ => nine_tenths;
     message_hash := fun m => SHA256.digest (concat (map data (instructions m)));
     wallet := fun n => match n with
                        | O => onFinish (Some sample_response)
                        | _ => onCancel
                        end;
     send_result := fun _ => rpc_ok "txid";
     read_result := fun _ => rpc_ok None;
     processed_result := fun _ => rpc_ok (Some Processed) |}.

(** The wheel-state account holds an initialized wheel of one prize, and
    four bytes more. *)
Definition initialized_world : World :=
  answering onCancel (rpc_ok "txid")
    (rpc_ok (Some {| info_data :=
                       Some (wheelAccountData 1 ["A"] [100] [7; 7; 7; 7]) |})).

(** The wheel-state account holds the flag and, as authority, the bytes
    of the sample public key. *)
Definition authority_world : World :=
  answering onCancel (rpc_ok "txid")
    (rpc_ok (Some {| info_data := Some (1 :: fromHex sample_publicKey ++ [0; 0; 0; 0]) |})).

(** The wheel-state account as the reader's layout has it, holding what
    [initializeWheel] sends. *)
Definition written_wheel : bytes :=
  wheelAccountData 1 (map prize_option wheelData) [34; 33; 33] [].

Definition written_world : World :=
  answering onCancel (rpc_ok "txid") (rpc_ok (Some {| info_data := Some written_wheel |})).

(** A user whose public key is, byte for byte, the start of the encoded
    prizes. *)
Definition prizes_as_key_state : AppState :=
  {| wheelState := initialWheelState;
     walletAddress := Some "tb1pexampleaddress";
     publicKey := Some (toString_hex (slice 1 33 written_wheel));
     sdk := true;
     isAdmin := false;
     isInitialized := true |}.

(** The wallet signs, the endpoint accepts, and the transaction is
    reported as failed. *)
Definition failed_status_world : World :=
  {| entropy := fun i => Z.of_nat (7 * i + 3);
     random := fun _ => nine_tenths;
     message_hash := fun m => SHA256.digest (concat (map data (instructions m)));
     wallet := fun _ => onFinish (Some sample_response);
     send_result := fun _ => rpc_ok "txid";
     read_result := fun _ => rpc_ok None;
     processed_result := fun _ => rpc_ok (Some (Failed "custom program error")) |}.

(* ===================================================================== *)
(** * Properties *)
(* ===================================================================== *)

Arguments SHA256.digest : simpl never.
Arguments subtle_digest_SHA256 : simpl never.
Arguments Buffer_from_base64 : simpl never.
Arguments toString_hex : simpl never.
Arguments fromHex : simpl never.
Arguments PubkeyUtil_fromHex : simpl never.
Arguments fill_random : simpl never.
Arguments draw_prize : simpl never.
Arguments slice_from : simpl never.
Arguments Uint8Array_from : simpl never.
Arguments apply_updater : simpl never.
Arguments add_timer : simpl never.

(** ** Test vectors of the platform functions *)

Example sha256_abc :
  toString_hex (SHA256.digest (string_bytes "abc")) =
  "ba7816bf8f01cfea414140de5dae2223b00361a396177a9cb410ff61f20015ad".
Proof. vm_compute. reflexivity. Qed.

Example sha256_empty :
  toString_hex (SHA256.digest []) =
  "e3b0c44298fc1c149afbf4c8996fb92427ae41e4649b934ca495991b7852b855".
Proof. vm_compute. reflexivity. Qed.

Example sha256_two_blocks :
  toString_hex (SHA256.digest
    (string_bytes "abcdbcdecdefdefgefghfghighijhijkijkljklmklmnlmnomnopnopq")) =
  "248d6a61d20638b8e5c026930c3e6039a33ce45964ff2167f6ecedd419db06c1".
Proof. vm_compute. reflexivity. Qed.

Example sha256_first_constants :
  firstn 4 SHA256.K = [0x428a2f98; 0x71374491; 0xb5c0fbcf; 0xe9b5dba5] /\
  SHA256.ra SHA256.H0 = 0x6a09e667.
Proof. vm_compute. split; reflexivity. Qed.

Example base64_Man : Buffer_from_base64 "TWFu" = string_bytes "Man".
Proof. reflexivity. Qed.

Example base64_padded : Buffer_from_base64 "TWE=" = string_bytes "Ma".
Proof. reflexivity. Qed.

Example hex_round : fromHex (toString_hex [0; 171; 255]) = [0; 171; 255].
Proof. reflexivity. Qed.

(** ** Bytes *)

Lemma to_u8_range x : 0 <= to_u8 x < 256.
Proof. unfold to_u8. apply Z.mod_pos_bound. lia. Qed.

Lemma to_u8_id x : 0 <= x < 256 -> to_u8 x = x.
Proof. intros. unfold to_u8. now apply Z.mod_small. Qed.

Lemma Uint8Array_from_id b : is_bytes b -> Uint8Array_from b = b.
Proof.
  unfold Uint8Array_from. induction 1 as [|x l Hx _ IH]; simpl.
  - reflexivity.
  - now rewrite to_u8_id, IH.
Qed.

Lemma Uint8Array_from_bytes xs : is_bytes (Uint8Array_from xs).
Proof.
  unfold is_bytes, Uint8Array_from. apply Forall_forall. intros x Hx.
  apply in_map_iff in Hx. destruct Hx as [y [<- _]]. apply to_u8_range.
Qed.

Lemma Uint8Array_from_length xs : length (Uint8Array_from xs) = length xs.
Proof. apply length_map. Qed.

Lemma fill_random_length w from n : length (fill_random w from n) = n.
Proof. unfold fill_random. now rewrite length_map, length_seq. Qed.

Lemma fill_random_bytes w from n : is_bytes (fill_random w from n).
Proof.
  unfold is_bytes, fill_random. apply Forall_forall. intros x Hx.
  apply in_map_iff in Hx. destruct Hx as [y [<- _]]. apply to_u8_range.
Qed.

Lemma fill_random_nth w from n k :
  (k < n)%nat -> nth k (fill_random w from n) 0 = to_u8 (entropy w (from + k)%nat).
Proof.
  intros Hk. unfold fill_random.
  rewrite (nth_indep _ 0 (to_u8 (entropy w (from + 0)%nat)))
    by now rewrite length_map, length_seq.
  rewrite (map_nth (fun i => to_u8 (entropy w (from + i)%nat)) (seq 0 n) 0%nat k).
  now rewrite seq_nth.
Qed.

Lemma be32_bytes x : is_bytes (SHA256.be32 x).
Proof.
  unfold is_bytes, SHA256.be32.
  repeat constructor; apply Z.mod_pos_bound; lia.
Qed.

Lemma digest_length msg : length (SHA256.digest msg) = 32%nat.
Proof. reflexivity. Qed.

Lemma digest_bytes msg : is_bytes (SHA256.digest msg).
Proof.
  unfold SHA256.digest, SHA256.output, is_bytes.
  repeat (apply Forall_app; split; try apply be32_bytes).
Qed.

Lemma skipn_exact {A} (l r : list A) : skipn (length l) (l ++ r) = r.
Proof. induction l; simpl; auto. Qed.

Lemma since_app m m' l : log m' = log m ++ l -> since m m' = l.
Proof. unfold since. intros ->. apply skipn_exact. Qed.

(** ** Running sequenced and guarded programs *)

Lemma run_bind {A B} w (p : Prog A) (f : A -> Prog B) m :
  run w (bind p f) m =
  match run w p m with
  | (m', Normal a) => run w (f a) m'
  | (m', Thrown e) => (m', Thrown e)
  end.
Proof. revert m; induction p; intros; simpl; auto. Qed.

Lemma run_try_catch {A} w (p : Prog A) h m :
  run w (try_catch p h) m =
  match run w p m with
  | (m', Normal a) => (m', Normal a)
  | (m', Thrown e) => run w (h e) m'
  end.
Proof. revert m; induction p; intros; simpl; auto. Qed.

(** ** The page under an updater and a timer *)

Lemma log_apply_updater u m :
  log (apply_updater u m) = log m ++ [ev_setWheelState (u (wheelState (ui m)))].
Proof. unfold apply_updater. now destruct (u _). Qed.

Lemma timers_apply_updater u m : timers (apply_updater u m) = timers m.
Proof. unfold apply_updater. now destruct (u _). Qed.

Lemma calls_apply_updater u m : calls (apply_updater u m) = calls m.
Proof. unfold apply_updater. now destruct (u _). Qed.

Lemma spinning_set_isSpinning b m :
  isSpinning (wheelState (ui (apply_updater (set_isSpinning b) m))) = b.
Proof. reflexivity. Qed.

Lemma render_set_isSpinning b m :
  render_error (apply_updater (set_isSpinning b) m) = render_error m.
Proof. reflexivity. Qed.

Lemma log_add_timer c ms m : log (add_timer c ms m) = log m ++ [ev_setTimeout ms].
Proof. reflexivity. Qed.

Lemma calls_add_timer c ms m : calls (add_timer c ms m) = calls m.
Proof. reflexivity. Qed.

Lemma timers_add_timer c ms m : timers (add_timer c ms m) = timers m ++ [(ms, c)].
Proof. reflexivity. Qed.

Lemma ui_add_timer c ms m : ui (add_timer c ms m) = ui m.
Proof. reflexivity. Qed.

(** ** [sendTransaction] as one step *)

Lemma run_sendTransaction w wa pk i m :
  run w (sendTransaction wa pk i) m = sent w wa pk i m.
Proof.
  unfold sendTransaction, sent, signed, submit, request_of, message_of. cbn.
  destruct (wallet w (n_sign (calls m))) as [[[|c r]|]| |]; cbn; try reflexivity.
  destruct (send_result w (n_send (calls m))); reflexivity.
Qed.

Arguments sendTransaction : simpl never.

Lemma log_sent w wa pk i m :
  log (fst (sent w wa pk i m)) = log m ++ sent_events w wa pk i m.
Proof.
  unfold sent, sent_events, submit, signed.
  destruct (usable_signature _); cbn; now rewrite <- !app_assoc.
Qed.

Lemma ui_sent w wa pk i m : ui (fst (sent w wa pk i m)) = ui m.
Proof. unfold sent, submit, signed. now destruct (usable_signature _). Qed.

Lemma timers_sent w wa pk i m : timers (fst (sent w wa pk i m)) = timers m.
Proof. unfold sent, submit, signed. now destruct (usable_signature _). Qed.

Lemma render_sent w wa pk i m :
  render_error (fst (sent w wa pk i m)) = render_error m.
Proof. unfold sent, submit, signed. now destruct (usable_signature _). Qed.

Lemma entropy_sent w wa pk i m :
  n_entropy (calls (fst (sent w wa pk i m))) = n_entropy (calls m).
Proof. unfold sent, submit, signed. now destruct (usable_signature _). Qed.

Lemma random_sent w wa pk i m :
  n_random (calls (fst (sent w wa pk i m))) = n_random (calls m).
Proof. unfold sent, submit, signed. now destruct (usable_signature _). Qed.

(** A [sendTransaction] that returns has used the wallet and the endpoint
    once each. *)
Lemma sent_returns w wa pk i m m' txid :
  sent w wa pk i m = (m', Normal txid) ->
  exists signature,
    usable_signature (wallet w (n_sign (calls m))) = Normal signature /\
    send_result w (n_send (calls m)) = rpc_ok txid /\
    n_sign (calls m') = S (n_sign (calls m)) /\
    n_send (calls m') = S (n_send (calls m)).
Proof.
  unfold sent, submit, signed.
  destruct (usable_signature _) as [sg|e]; [|discriminate].
  cbn. destruct (send_result w _) as [t|e]; [|discriminate].
  intros H. injection H as <- <-. now exists sg.
Qed.

Lemma sent_throws w wa pk i m :
  commit_fails w m -> exists e, snd (sent w wa pk i m) = Thrown e.
Proof.
  unfold commit_fails, sent, submit.
  destruct (usable_signature _) as [sg|e]; [|now exists e].
  cbn. destruct (send_result w _) as [t|e]; [tauto|now exists e].
Qed.

(** ** The phases of a spin *)

Lemma built_app d l1 l2 : built d (l1 ++ l2) = built d l1 ++ built d l2.
Proof. apply flat_map_app. Qed.

Lemma draws_app l1 l2 : draws (l1 ++ l2) = draws l1 ++ draws l2.
Proof. apply flat_map_app. Qed.

Lemma built_sent d w wa pk i m :
  built d (sent_events w wa pk i m) = if has_discriminant d i then [i] else [].
Proof.
  unfold sent_events. cbn. destruct (usable_signature _); cbn;
    destruct (has_discriminant d i); reflexivity.
Qed.

Lemma draws_sent w wa pk i m : draws (sent_events w wa pk i m) = [].
Proof. unfold sent_events. cbn. now destruct (usable_signature _). Qed.

Lemma log_committed_to w m :
  log (committed_to w m) = log m ++ committed_events w m.
Proof.
  unfold committed_to, committed_events. cbn. rewrite log_apply_updater. cbn.
  now rewrite <- !app_assoc.
Qed.

Lemma calls_committed_to w m :
  calls (committed_to w m) = bump_entropy 32 (calls m).
Proof. reflexivity. Qed.

Lemma log_failed_on m : log (failed_on m) = log m ++ failed_events m.
Proof.
  unfold failed_on, failed_events. cbn. rewrite log_apply_updater.
  now rewrite <- !app_assoc.
Qed.

Lemma log_resolved_on w m : log (resolved_on w m) = log m ++ resolved_events w m.
Proof.
  unfold resolved_on, resolved_events, add_timer. cbn. rewrite log_apply_updater. cbn.
  now rewrite <- !app_assoc.
Qed.

Lemma run_spin_body env w wa pk m :
  run w (spin_body env wa pk) m =
  let secret := fill_random w (n_entropy (calls m)) 32 in
  match sent w wa pk (commitInstruction env pk (subtle_digest_SHA256 secret))
             (committed_to w m) with
  | (m2, Thrown e) => (m2, Thrown e)
  | (m2, Normal _) =>
      match sent w wa pk (revealInstruction env pk secret) (record (ev_sleep 2000) m2) with
      | (m4, Thrown e) => (m4, Thrown e)
      | (m4, Normal _) => (resolved_on w m4, Normal tt)
      end
  end.
Proof.
  unfold spin_body. cbn. rewrite run_bind, run_sendTransaction.
  rewrite !calls_apply_updater. cbn.
  fold (committed_to w m).
  destruct (sent w wa pk _ (committed_to w m)) as [m2 [t|e]]; [|reflexivity].
  cbn. rewrite run_bind, run_sendTransaction.
  destruct (sent w wa pk _ (record (ev_sleep 2000) m2)) as [m4 [t'|e]]; reflexivity.
Qed.

Lemma spin_accepted env st :
  spin_refused st = false ->
  exists wa pk,
    walletAddress st = Some wa /\ publicKey st = Some pk /\
    spinWheel env st = try_catch (spin_body env wa pk) spin_failed.
Proof.
  intros Hg. unfold spinWheel. rewrite Hg. unfold spin_refused in Hg.
  apply orb_false_iff in Hg. destruct Hg as [Hg _].
  apply orb_false_iff in Hg. destruct Hg as [Hg Hpk].
  apply orb_false_iff in Hg. destruct Hg as [_ Hwa].
  destruct (walletAddress st) as [wa|]; [|discriminate].
  destruct (publicKey st) as [pk|]; [|discriminate].
  now exists wa, pk.
Qed.

Lemma spin_ends env w st m :
  spin_refused st = false ->
  exists wa pk m',
    walletAddress st = Some wa /\ publicKey st = Some pk /\
    run w (spinWheel env st) m = (m', Normal tt) /\
    SpinEnd env w wa pk m m'.
Proof.
  intros Hg. destruct (spin_accepted env st Hg) as [wa [pk [Hwa [Hpk ->]]]].
  exists wa, pk. rewrite run_try_catch, run_spin_body. cbv zeta.
  destruct (sent w wa pk _ (committed_to w m)) as [m2 [t|e]] eqn:E1.
  - destruct (sent w wa pk _ (record (ev_sleep 2000) m2)) as [m4 [t'|e]] eqn:E2.
    + exists (resolved_on w m4). repeat split; auto. eapply resolved; eauto.
    + exists (failed_on m4). repeat split; auto. eapply reveal_failed; eauto.
  - exists (failed_on m2). repeat split; auto. eapply commit_failed; eauto.
Qed.

(** ** The instructions of a spin *)

Lemma commitData_eq c : is_bytes c -> commitData c = 1 :: c.
Proof.
  intros Hc. unfold commitData, Buffer_concat. cbn.
  now rewrite app_nil_r, (Uint8Array_from_id c Hc).
Qed.

Lemma revealData_eq s : revealData s = 2 :: s.
Proof. unfold revealData, Buffer_concat. cbn. now rewrite app_nil_r. Qed.

Lemma commit_discriminant env pk c d :
  has_discriminant d (commitInstruction env pk c) = (1 =? d).
Proof. reflexivity. Qed.

Lemma reveal_discriminant env pk s d :
  has_discriminant d (revealInstruction env pk s) = (2 =? d).
Proof. reflexivity. Qed.

Lemma fst_of {A B} (x : A * B) a b : x = (a, b) -> a = fst x.
Proof. now intros ->. Qed.

Lemma calls_failed_on m : calls (failed_on m) = calls m.
Proof. unfold failed_on. cbn. apply calls_apply_updater. Qed.

Lemma entropy_resolved_on w m :
  n_entropy (calls (resolved_on w m)) = n_entropy (calls m).
Proof. unfold resolved_on. now rewrite calls_add_timer, calls_apply_updater. Qed.

Lemma entropy_committed_to w m :
  n_entropy (calls (committed_to w m)) = (n_entropy (calls m) + 32)%nat.
Proof. reflexivity. Qed.

Ltac count_entropy :=
  rewrite ?calls_failed_on, ?entropy_resolved_on, ?entropy_sent;
  cbn [calls record]; rewrite ?entropy_sent, ?entropy_committed_to.

(** What an accepted spin handed to the SDK, and what it drew. *)
Lemma spin_end_built env w wa pk m m' :
  SpinEnd env w wa pk m m' ->
  let secret := fill_random w (n_entropy (calls m)) 32 in
  draws (since m m') = [secret] /\
  built 1 (since m m') = [commitInstruction env pk (subtle_digest_SHA256 secret)] /\
  (built 2 (since m m') = [] \/
   built 2 (since m m') = [revealInstruction env pk secret]) /\
  n_entropy (calls m') = (n_entropy (calls m) + 32)%nat.
Proof.
  intros H secret.
  assert (Hlog : exists l, log m' = log m ++ l /\
            draws l = [secret] /\
            built 1 l = [commitInstruction env pk (subtle_digest_SHA256 secret)] /\
            (built 2 l = [] \/ built 2 l = [revealInstruction env pk secret]) /\
            n_entropy (calls m') = (n_entropy (calls m) + 32)%nat).
  { destruct H as [m2 e E1 | m2 t m4 e E1 E2 | m2 t m4 t' E1 E2].
    - apply fst_of in E1. subst m2. eexists. split.
      + rewrite log_failed_on, log_sent, log_committed_to, <- !app_assoc. reflexivity.
      + rewrite !draws_app, !built_app, !built_sent, draws_sent.
        rewrite !commit_discriminant. cbn [Z.eqb Datatypes.app committed_events failed_events draws built flat_map].
        count_entropy. auto.
    - apply fst_of in E1, E2. subst m4 m2. eexists. split.
      + rewrite log_failed_on, log_sent. cbn [log record].
        rewrite log_sent, log_committed_to, <- !app_assoc. reflexivity.
      + rewrite !draws_app, !built_app, !built_sent, !draws_sent.
        rewrite !commit_discriminant, !reveal_discriminant.
        cbn [Z.eqb Datatypes.app committed_events failed_events draws built flat_map].
        count_entropy. auto.
    - apply fst_of in E1, E2. subst m4 m2. eexists. split.
      + rewrite log_resolved_on, log_sent. cbn [log record].
        rewrite log_sent, log_committed_to, <- !app_assoc. reflexivity.
      + rewrite !draws_app, !built_app, !built_sent, !draws_sent.
        rewrite !commit_discriminant, !reveal_discriminant.
        cbn [Z.eqb Datatypes.app committed_events resolved_events draws built flat_map].
        count_entropy. auto. }
  destruct Hlog as [l [Hl Hrest]]. now rewrite (since_app m m' l Hl).
Qed.

(** C8. For every 32-byte commitment [C], the data of the CommitSpin
    instruction is the discriminant byte 1 followed by [C]: 33 bytes. *)
Theorem commit_data_layout (C : bytes) :
  length C = 32%nat -> is_bytes C ->
  commitData C = 1 :: C /\ length (commitData C) = 33%nat.
Proof.
  intros Hlen HC. rewrite (commitData_eq C HC). split; [reflexivity|].
  simpl. now rewrite Hlen.
Qed.

(** C3. Every CommitSpin instruction a spin hands to the SDK lists
    exactly two accounts, in this order: the connected signer (signer, not
    writable), then the wheel-state account (not signer, writable). *)
Theorem commit_accounts env w st m pk i :
  publicKey st = Some pk ->
  In i (built 1 (since m (fst (run w (spinWheel env st) m)))) ->
  accounts i =
    [ {| pubkey := PubkeyUtil_fromHex pk; is_signer := true; is_writable := false |};
      {| pubkey := PubkeyUtil_fromHex (VITE_WHEEL_STATE_ACCOUNT env);
         is_signer := false; is_writable := true |} ].
Proof.
  intros Hpk Hin.
  destruct (spin_refused st) eqn:Hg.
  - unfold spinWheel in Hin. rewrite Hg in Hin. cbn in Hin.
    unfold since in Hin. rewrite skipn_all in Hin. contradiction.
  - destruct (spin_ends env w st m Hg) as [wa [pk' [m' [_ [Hpk' [Hrun Hend]]]]]].
    rewrite Hrun in Hin. cbn [fst] in Hin.
    destruct (spin_end_built _ _ _ _ _ _ Hend) as [_ [Hb _]].
    rewrite Hb in Hin. destruct Hin as [<-|[]].
    rewrite Hpk in Hpk'. injection Hpk' as <-. reflexivity.
Qed.


(** C5. When the commit step of an accepted spin fails (the user cancels,
    the wallet leaves no signature, or the submission is rejected), the
    spin ends there: the handler returns, [isSpinning] is false again, no
    RevealSpin instruction was handed to the SDK or submitted, and no
    timer was set. *)
Theorem commit_failure_ends_the_spin env w st m :
  spin_refused st = false ->
  commit_fails w m ->
  let r := run w (spinWheel env st) m in
  snd r = Normal tt /\
  isSpinning (wheelState (ui (fst r))) = false /\
  existsb (carries 2) (since m (fst r)) = false /\
  timers (fst r) = timers m.
Proof.
  intros Hg Hfail r. subst r.
  destruct (spin_accepted env st Hg) as [wa [pk [_ [_ ->]]]].
  rewrite run_try_catch, run_spin_body. cbv zeta.
  destruct (sent_throws w wa pk
              (commitInstruction env pk
                 (subtle_digest_SHA256 (fill_random w (n_entropy (calls m)) 32)))
              (committed_to w m)) as [e He].
  { exact Hfail. }
  destruct (sent w wa pk _ (committed_to w m)) as [m2 c] eqn:E1.
  cbn in He. subst c. cbn [run spin_failed].
  apply fst_of in E1. subst m2.
  split; [reflexivity|]. split; [reflexivity|]. split.
  - erewrite since_app.
    2:{ cbn. rewrite log_apply_updater, log_sent, log_committed_to, <- !app_assoc.
        reflexivity. }
    rewrite !existsb_app. unfold sent_events.
    destruct (usable_signature _); reflexivity.
  - cbn. rewrite timers_apply_updater, timers_sent. cbn.
    now rewrite timers_apply_updater.
Qed.

(** ** The wheel state reader *)

Arguments borsh.deserialize : simpl never.

Lemma empty_account_undecodable :
  borsh.deserialize wheelStateSchema [] = Thrown borsh.out_of_bounds.
Proof. reflexivity. Qed.

Lemma run_of_completion {A} w (c : Completion A) m :
  run w (of_completion c) m = (m, c).
Proof. now destruct c. Qed.

(** The inner [try] never throws, and sets the flag to what was decoded,
    or to false when decoding fails. *)
Lemma run_decode_guarded w d m :
  exists b,
    run w (try_catch (decode_initialized d) (fun _ => setIsInitialized false)) m =
      (record (ev_setIsInitialized b) (with_ui (with_isInitialized b (ui m)) m),
       Normal tt) /\
    (is_thrown (borsh.deserialize wheelStateSchema d) = true -> b = false).
Proof.
  rewrite run_try_catch. unfold decode_initialized.
  rewrite run_bind, run_of_completion.
  destruct (borsh.deserialize wheelStateSchema d) as [v|e]; cbn.
  - eexists. split; [reflexivity|discriminate].
  - exists false. split; [reflexivity|reflexivity].
Qed.

(** C9. The reader of the wheel state never throws; and when the account
    is absent, has no data, has data of length zero, has data that does
    not decode by the layout, or cannot be read, it reports the wheel as
    not initialized. *)
Theorem reader_tolerates_unreadable_state env w st m :
  let r := run w (checkWheelState env st) m in
  is_thrown (snd r) = false /\
  (sdk st = true ->
   Unreadable wheelStateSchema (read_result w (n_read (calls m))) ->
   isInitialized (ui (fst r)) = false).
Proof.
  intros r. subst r. unfold checkWheelState.
  destruct (sdk st); cbn [negb]; [|split; [reflexivity|discriminate]].
  rewrite run_try_catch. unfold check_body. cbn.
  destruct (read_result w (n_read (calls m))) as [[[[d|]]|]|e] eqn:Er; cbn.
  - rewrite run_bind.
    destruct (run_decode_guarded w d
                (record (ev_readAccountInfo
                           (PubkeyUtil_fromHex (VITE_WHEEL_STATE_ACCOUNT env)))
                   (with_calls (bump_read (calls m)) m))) as [b [-> Hb]].
    cbn. split; [reflexivity|]. intros _ Hu. inversion Hu; subst.
    + apply Hb. reflexivity.
    + now apply Hb.
  - split; [reflexivity|]. reflexivity.
  - split; [reflexivity|]. reflexivity.
  - split; [reflexivity|]. reflexivity.
Qed.

(** ** The Borsh layout of InitializeWheel *)

Lemma read32_le32 n :
  0 <= n < 4294967296 ->
  borsh.read32 (n mod 256) ((n / 256) mod 256) ((n / 65536) mod 256)
               ((n / 16777216) mod 256) = n.
Proof.
  intros Hn. unfold borsh.read32.
  assert (H3 : (n / 16777216) mod 256 = n / 16777216).
  { apply Z.mod_small. split; [apply Z.div_pos; lia|].
    apply Z.div_lt_upper_bound; lia. }
  rewrite H3.
  pose proof (Z.div_mod n 256 ltac:(lia)) as E0.
  pose proof (Z.div_mod (n / 256) 256 ltac:(lia)) as E1.
  pose proof (Z.div_mod (n / 65536) 256 ltac:(lia)) as E2.
  rewrite Z.div_div in E1 by lia. rewrite Z.div_div in E2 by lia.
  change (256 * 256) with 65536 in E1. change (65536 * 256) with 16777216 in E2.
  lia.
Qed.

Lemma string_bytes_length s : length (string_bytes s) = String.length s.
Proof.
  unfold string_bytes. rewrite length_map.
  induction s; simpl; auto.
Qed.

Lemma bytes_string_bytes s : bytes_string (string_bytes s) = s.
Proof.
  unfold bytes_string, string_bytes. rewrite map_map.
  induction s as [|c s IH]; simpl; [reflexivity|].
  rewrite Nat2Z.id, ascii_nat_embedding. f_equal. exact IH.
Qed.

Lemma encode_array elem items :
  borsh.encode_value (borsh.s_array elem) (borsh.v_array items) =
  borsh.encode_items (borsh.encode_value elem) items
    (borsh.le32 (Z.of_nat (length items))).
Proof. reflexivity. Qed.

Lemma decode_array elem b0 b1 b2 b3 r :
  borsh.decode_value (borsh.s_array elem) (b0 :: b1 :: b2 :: b3 :: r) =
  borsh.decode_items (borsh.decode_value elem)
    (Z.to_nat (borsh.read32 b0 b1 b2 b3)) [] r.
Proof. reflexivity. Qed.

Lemma encode_string s :
  borsh.encode_value borsh.s_string (borsh.v_string s) = Normal (string_wire s).
Proof. reflexivity. Qed.

Lemma encode_strings ps :
  borsh.encode_value (borsh.s_array borsh.s_string)
    (borsh.v_array (map borsh.v_string ps)) =
  Normal (borsh.le32 (Z.of_nat (length ps)) ++ concat (map string_wire ps)).
Proof.
  rewrite encode_array, length_map.
  generalize (borsh.le32 (Z.of_nat (length ps))) as acc.
  induction ps as [|p ps IH]; intros acc; cbn [map concat borsh.encode_items].
  - now rewrite app_nil_r.
  - rewrite encode_string, IH. now rewrite <- !app_assoc.
Qed.

Lemma encode_u8s xs :
  borsh.encode_value (borsh.s_array borsh.s_u8)
    (borsh.v_array (map borsh.v_number xs)) =
  Normal (borsh.le32 (Z.of_nat (length xs)) ++ map to_u8 xs).
Proof.
  rewrite encode_array, length_map.
  generalize (borsh.le32 (Z.of_nat (length xs))) as acc.
  induction xs as [|x xs IH]; intros acc; cbn [map borsh.encode_items].
  - now rewrite app_nil_r.
  - cbn [borsh.encode_value]. rewrite IH. now rewrite <- !app_assoc.
Qed.

(** A struct of two fields is its fields in order. *)
Lemma encode_struct2 k1 s1 k2 s2 o :
  borsh.encode_value (borsh.s_struct [(k1, s1); (k2, s2)]) (borsh.v_object o) =
  match borsh.encode_value s1 (borsh.get_field k1 o) with
  | Normal b1 =>
      match borsh.encode_value s2 (borsh.get_field k2 o) with
      | Normal b2 => Normal (b1 ++ b2)
      | Thrown e => Thrown e
      end
  | Thrown e => Thrown e
  end.
Proof. reflexivity. Qed.

Lemma decode_struct2 k1 s1 k2 s2 buf :
  borsh.decode_value (borsh.s_struct [(k1, s1); (k2, s2)]) buf =
  match borsh.decode_value s1 buf with
  | Normal (x1, rest1) =>
      match borsh.decode_value s2 rest1 with
      | Normal (x2, rest2) => Normal (borsh.v_object [(k1, x1); (k2, x2)], rest2)
      | Thrown e => Thrown e
      end
  | Thrown e => Thrown e
  end.
Proof. reflexivity. Qed.

Lemma initializeData_eq prizes probabilities :
  initializeData prizes probabilities =
  Normal (0 :: initializePayload prizes (Uint8Array_from probabilities)).
Proof.
  unfold initializeData, borsh.serialize, initializeSchema, initializeValue.
  rewrite encode_struct2.
  change (borsh.get_field "prizes" _) with (borsh.v_array (map borsh.v_string prizes)).
  change (borsh.get_field "probabilities" _)
    with (borsh.v_array (map borsh.v_number (Uint8Array_from probabilities))).
  rewrite encode_strings, encode_u8s.
  unfold initializePayload, Buffer_concat. cbn [concat Datatypes.app].
  rewrite app_nil_r.
  assert (E : map to_u8 (Uint8Array_from probabilities) = Uint8Array_from probabilities).
  { apply Uint8Array_from_id, Uint8Array_from_bytes. }
  rewrite E, <- !app_assoc. reflexivity.
Qed.

Lemma decode_string s rest :
  fits_u32 (String.length s) ->
  borsh.decode_value borsh.s_string (string_wire s ++ rest) =
  Normal (borsh.v_string s, rest).
Proof.
  intros Hs. unfold string_wire, borsh.le32. cbn [Datatypes.app borsh.decode_value].
  rewrite read32_le32 by (unfold fits_u32 in Hs; rewrite string_bytes_length; lia).
  rewrite Nat2Z.id.
  assert (Hlt : (length (string_bytes s ++ rest) <? length (string_bytes s))%nat = false).
  { apply Nat.ltb_ge. rewrite length_app. lia. }
  rewrite Hlt.
  rewrite firstn_app, Nat.sub_diag, firstn_all, firstn_O, app_nil_r.
  rewrite skipn_app, Nat.sub_diag, skipn_all, skipn_O.
  now rewrite bytes_string_bytes.
Qed.

Lemma decode_strings ps rest :
  fits_u32 (length ps) ->
  Forall (fun s => fits_u32 (String.length s)) ps ->
  borsh.decode_value (borsh.s_array borsh.s_string)
    (borsh.le32 (Z.of_nat (length ps)) ++ concat (map string_wire ps) ++ rest) =
  Normal (borsh.v_array (map borsh.v_string ps), rest).
Proof.
  intros Hn Hps. unfold borsh.le32 at 1. cbn [Datatypes.app].
  rewrite decode_array, read32_le32 by (unfold fits_u32 in Hn; lia).
  rewrite Nat2Z.id.
  change (map borsh.v_string ps) with (rev [] ++ map borsh.v_string ps).
  generalize (@nil borsh.Value) as acc. clear Hn.
  induction Hps as [|p ps Hp Hps IH]; intros acc;
    cbn [length map concat Datatypes.app borsh.decode_items].
  - now rewrite app_nil_r.
  - rewrite <- app_assoc, (decode_string p _ Hp).
    rewrite IH. cbn [rev]. now rewrite <- app_assoc.
Qed.

Lemma decode_u8s xs rest :
  fits_u32 (length xs) ->
  borsh.decode_value (borsh.s_array borsh.s_u8)
    (borsh.le32 (Z.of_nat (length xs)) ++ xs ++ rest) =
  Normal (borsh.v_array (map borsh.v_number xs), rest).
Proof.
  intros Hn. unfold borsh.le32 at 1. cbn [Datatypes.app].
  rewrite decode_array, read32_le32 by (unfold fits_u32 in Hn; lia).
  rewrite Nat2Z.id.
  change (map borsh.v_number xs) with (rev [] ++ map borsh.v_number xs).
  generalize (@nil borsh.Value) as acc. clear Hn.
  induction xs as [|x xs IH]; intros acc;
    cbn [length map Datatypes.app borsh.decode_items borsh.decode_value].
  - now rewrite app_nil_r.
  - rewrite IH. cbn [rev]. now rewrite <- app_assoc.
Qed.

Lemma strings_of_strings ps :
  strings_of (borsh.v_array (map borsh.v_string ps)) = Some ps.
Proof.
  cbn [strings_of]. induction ps as [|p ps IH]; cbn [map fold_right]; [reflexivity|].
  now rewrite IH.
Qed.

Lemma numbers_of_numbers xs :
  numbers_of (borsh.v_array (map borsh.v_number xs)) = Some xs.
Proof.
  cbn [numbers_of]. induction xs as [|x xs IH]; cbn [map fold_right]; [reflexivity|].
  now rewrite IH.
Qed.

Lemma decode_initializePayload prizes probabilities :
  fits_u32 (length prizes) ->
  Forall (fun s => fits_u32 (String.length s)) prizes ->
  fits_u32 (length probabilities) ->
  decodeInitializeWheel (0 :: initializePayload prizes probabilities) =
  Some (prizes, probabilities).
Proof.
  intros Hn Hps Hm. unfold decodeInitializeWheel, borsh.deserialize, initializeSchema.
  unfold initializePayload.
  rewrite decode_struct2.
  rewrite (decode_strings prizes _ Hn Hps).
  rewrite <- (app_nil_r probabilities) at 2.
  rewrite (decode_u8s probabilities [] Hm).
  change (borsh.field "prizes" _) with (borsh.v_array (map borsh.v_string prizes)).
  change (borsh.field "probabilities" _)
    with (borsh.v_array (map borsh.v_number probabilities)).
  now rewrite strings_of_strings, numbers_of_numbers.
Qed.

(** C7. For prizes and probabilities that fit the format (lengths below
    2^32, probabilities that are bytes), the InitializeWheel data is the
    byte 0, the length-prefixed prizes, then the length-prefixed
    probabilities, and reading it back gives the same prizes and
    probabilities. *)
Theorem initialize_round_trip prizes probabilities :
  fits_u32 (length prizes) ->
  Forall (fun s => fits_u32 (String.length s)) prizes ->
  fits_u32 (length probabilities) ->
  is_bytes probabilities ->
  exists d,
    initializeData prizes probabilities = Normal d /\
    d = 0 :: borsh.le32 (Z.of_nat (length prizes)) ++ concat (map string_wire prizes)
          ++ borsh.le32 (Z.of_nat (length probabilities)) ++ probabilities /\
    decodeInitializeWheel d = Some (prizes, probabilities).
Proof.
  intros Hn Hps Hm Hb. eexists. split; [apply initializeData_eq|].
  rewrite (Uint8Array_from_id _ Hb). split; [reflexivity|].
  now apply decode_initializePayload.
Qed.



(** ** One spin in flight *)

(** The scheduler and [run] agree: running a handler to its end is
    advancing it to its next awaited call and running on from there, and
    answering an awaited call is the step [run] takes. *)
Lemma run_through_advance w p m :
  run w p m =
  match advance w p m with
  | (m', finished c) => (m', c)
  | (m', suspended p') => run w p' m'
  end.
Proof.
  revert m. induction p; intros m0; cbn [advance run]; auto.
Qed.

Lemma run_through_resume w p m :
  run w p m =
  match resume w p m with
  | (m', finished c) => (m', c)
  | (m', suspended p') => run w p' m'
  end.
Proof.
  destruct p; cbn [resume]; try apply run_through_advance;
    cbn [run]; apply run_through_advance.
Qed.

Lemma set_prize_keeps_spinning data n : keeps_spinning (set_prize data n).
Proof.
  intros ws ws'. unfold set_prize.
  destruct n as [n|]; [|discriminate].
  destruct (index data n); [|discriminate].
  intros H. injection H as <-. reflexivity.
Qed.

Lemma spinning_apply_keeps u m :
  keeps_spinning u ->
  isSpinning (wheelState (ui (apply_updater u m))) = isSpinning (wheelState (ui m)).
Proof.
  intros Hu. unfold apply_updater.
  destruct (u (wheelState (ui m))) as [ws|] eqn:E; [|reflexivity].
  cbn. now apply Hu.
Qed.

(** An ending touches neither the state nor the timers. *)
Lemma advance_ending w k m :
  Ending k ->
  exists m', advance w k m = (m', finished (Normal tt)) /\
             ui m' = ui m /\ timers m' = timers m.
Proof.
  intros H. revert m. induction H as [|op k _ IH]; intros m; cbn.
  - now exists m.
  - destruct (IH (record (ev_audio op) m)) as [m' [-> [Hu Ht]]].
    now exists m'.
Qed.

Lemma advance_in_flight w p m :
  InFlight p ->
  isSpinning (wheelState (ui m)) = true -> timers m = [] ->
  flight_goes_on (advance w p m).
Proof.
  intros H. revert m.
  induction H as [k Hk | u Hu | k _ IH | msg k _ IH | | | | ]; intros m Hs Ht;
    try (cbn; now repeat split; try constructor).
  - cbn [advance].
    destruct (advance_ending w k (apply_updater (set_isSpinning false) m) Hk)
      as [m' [E [_ Ht']]].
    unfold flight_goes_on. rewrite E. cbn. split; [reflexivity|]. left.
    now rewrite Ht', timers_apply_updater.
  - cbn. unfold flight_goes_on. cbn. split; [reflexivity|]. right.
    rewrite timers_add_timer, ui_add_timer, timers_apply_updater, Ht.
    split; [reflexivity|].
    now rewrite (spinning_apply_keeps u m Hu).
  - cbn [advance]. apply IH; assumption.
  - cbn [advance]. apply IH; assumption.
Qed.

Lemma resume_in_flight w p m :
  InFlight p ->
  isSpinning (wheelState (ui m)) = true -> timers m = [] ->
  flight_goes_on (resume w p m).
Proof.
  intros H Hs Ht.
  destruct H as [k Hk | u Hu | k Hk | msg k Hk | input k Hk | sp k Hk | tx k Hk | ms k Hk];
    cbn [resume];
    try (apply advance_in_flight; [try constructor; auto | exact Hs | exact Ht]).
Qed.

(** A click either is refused and changes nothing, or starts a spin that
    is suspended on its digest. *)
Lemma click_starts env w m :
  spin_refused (ui m) = false ->
  exists m' p,
    advance w (spinWheel env (ui m)) m = (m', suspended p) /\
    InFlight p /\ isSpinning (wheelState (ui m')) = true /\ timers m' = timers m.
Proof.
  intros Hg. destruct (spin_accepted env (ui m) Hg) as [wa [pk [_ [_ ->]]]].
  unfold spin_body. cbn. eexists. eexists. split; [reflexivity|].
  split; [|split; reflexivity].
  apply flight_digest. intros h.
  unfold sendTransaction. cbn.
  apply flight_hash. intros h1. apply flight_sign. intros o1.
  destruct o1 as [[[|c r]|]| |]; cbn;
    try (apply flight_failed; repeat constructor).
  apply flight_send. intros r1.
  destruct r1 as [t1|e1]; cbn; [|apply flight_failed; repeat constructor].
  apply flight_sleep, flight_hash. intros h2. apply flight_sign. intros o2.
  destruct o2 as [[[|c2 r2]|]| |]; cbn;
    try (apply flight_failed; repeat constructor).
  apply flight_send. intros r2'.
  destruct r2' as [t2|e2]; cbn; [|apply flight_failed; repeat constructor].
  apply flight_random. intros x. apply flight_resolved, set_prize_keeps_spinning.
Qed.

Lemma click_refused env w s :
  spin_refused (ui (page s)) = true -> click env w s = s.
Proof.
  intros Hg. unfold click, spinWheel. rewrite Hg. cbn. now destruct s.
Qed.

Lemma spinning_refuses st :
  isSpinning (wheelState st) = true -> spin_refused st = true.
Proof. intros H. unfold spin_refused. rewrite H. apply orb_true_r. Qed.

Lemma shape_step env w s i : Shape s -> Shape (step env w s i).
Proof.
  intros H. destruct i as [ | i | i | | address pk ]; cbn [step].
  - (* a click *)
    destruct (spin_refused (ui (page s))) eqn:Hg.
    { now rewrite click_refused. }
    destruct (click_starts env w (page s) Hg) as [m' [p [E [Hp [Hs Ht]]]]].
    unfold click. rewrite E. unfold settle_task. cbn.
    destruct H as [s Htasks Htimers | s q Htasks _ Hspin _ | s _ Hspin _].
    + apply shape_spinning with (p := p); cbn; auto.
      * now rewrite Htasks.
      * now rewrite Ht.
    + now rewrite (spinning_refuses _ Hspin) in Hg.
    + now rewrite (spinning_refuses _ Hspin) in Hg.
  - (* an answer *)
    destruct H as [s Htasks Htimers | s q Htasks Hq Hspin Htimers | s Htasks Hspin Htimers].
    + rewrite Htasks. destruct i; cbn; now apply shape_idle.
    + rewrite Htasks. destruct i as [|i]; cbn [nth_error].
      * pose proof (resume_in_flight w q (page s) Hq Hspin Htimers) as Hr.
        unfold flight_goes_on in Hr. unfold settle_task, remove_nth. cbn.
        destruct (resume w q (page s)) as [m' [c|p']]; cbn in *.
        -- destruct Hr as [_ [Hr|[Hr Hs]]].
           ++ now apply shape_idle.
           ++ now apply shape_resolved.
        -- destruct Hr as [Hp' [Hs' Ht']].
           now apply shape_spinning with (p := p').
      * destruct i; cbn; now apply shape_spinning with (p := q).
    + rewrite Htasks. destruct i; cbn; now apply shape_resolved.
  - (* a timer *)
    destruct H as [s Htasks Htimers | s q Htasks Hq Hspin Htimers | s Htasks Hspin Htimers].
    + rewrite Htimers. destruct i; cbn; now apply shape_idle.
    + rewrite Htimers. destruct i; cbn; now apply shape_spinning with (p := q).
    + rewrite Htimers. destruct i as [|i]; cbn [nth_error].
      * apply shape_idle; cbn; auto. unfold drop_timer, remove_nth.
        rewrite Htimers. reflexivity.
      * destruct i; cbn; now apply shape_resolved.
  - destruct H as [s Htasks Htimers | s q Htasks Hq Hspin Htimers | s Htasks Hspin Htimers].
    + now apply shape_idle.
    + now apply shape_spinning with (p := q).
    + now apply shape_resolved.
  - destruct H as [s Htasks Htimers | s q Htasks Hq Hspin Htimers | s Htasks Hspin Htimers].
    + now apply shape_idle.
    + now apply shape_spinning with (p := q).
    + now apply shape_resolved.
Qed.

Lemma shape_session env w inputs s : Shape s -> Shape (session env w inputs s).
Proof.
  revert s. induction inputs as [|i inputs IH]; intros s H; cbn.
  - exact H.
  - apply IH, shape_step, H.
Qed.

(** C4. Whatever the user, the wallet, the endpoint and the timers do, in
    whatever order, at most one spin is in flight, and [isSpinning] is set
    while it is; a click on the button while [isSpinning] is set changes
    nothing: no call is made, nothing is queued, and no CommitSpin
    instruction is built for it. *)
Theorem one_spin_in_flight env w st inputs :
  let s := session env w inputs (opening st) in
  (length (tasks s) <= 1)%nat /\
  (tasks s <> [] -> isSpinning (wheelState (ui (page s))) = true) /\
  (isSpinning (wheelState (ui (page s))) = true ->
   click env w s = s /\
   built 1 (log (page (click env w s))) = built 1 (log (page s))).
Proof.
  intros s.
  assert (H : Shape s) by (apply shape_session; now apply shape_idle).
  split; [|split].
  - destruct H as [s Htasks _ | s q Htasks _ _ _ | s Htasks _ _];
      rewrite Htasks; cbn; lia.
  - intros Hne. destruct H as [s Htasks _ | s q _ _ Hspin _ | s Htasks _ _]; auto;
      now rewrite Htasks in Hne.
  - intros Hspin.
    assert (E : click env w s = s) by apply click_refused, spinning_refuses, Hspin.
    now rewrite E.
Qed.

(** ** The draw: [Math.floor(Math.random() * 3)] in binary64 *)

Lemma digits2_upper p : Z.pos p < 2 ^ Z.pos (digits2_pos p).
Proof.
  induction p as [p IH|p IH|]; cbn [digits2_pos].
  - rewrite Pos2Z.inj_succ, Z.pow_succ_r by lia. lia.
  - rewrite Pos2Z.inj_succ, Z.pow_succ_r by lia. lia.
  - reflexivity.
Qed.

Lemma digits2_below p d : 0 <= d -> Z.pos p < 2 ^ d -> Z.pos (digits2_pos p) <= d.
Proof.
  revert d. induction p as [p IH|p IH|]; intros d Hd Hp; cbn [digits2_pos].
  - assert (Hd1 : 1 <= d).
    { destruct (Z.eq_dec d 0) as [->|]; [cbn in Hp; lia|lia]. }
    replace d with (Z.succ (d - 1)) in Hp by lia.
    rewrite Z.pow_succ_r in Hp by lia.
    rewrite Pos2Z.inj_succ. specialize (IH (d - 1)). lia.
  - assert (Hd1 : 1 <= d).
    { destruct (Z.eq_dec d 0) as [->|]; [cbn in Hp; lia|lia]. }
    replace d with (Z.succ (d - 1)) in Hp by lia.
    rewrite Z.pow_succ_r in Hp by lia.
    rewrite Pos2Z.inj_succ. specialize (IH (d - 1)). lia.
  - destruct (Z.eq_dec d 0) as [->|]; [cbn in Hp; lia|lia].
Qed.

Lemma shifted_once a : 0 <= shr_m a -> shifted 1 a (shr_1 a).
Proof.
  destruct a as [m r s]. cbn [shr_m]. intros Hm. unfold shifted.
  destruct m as [|[p|p|]|p]; cbn; try lia; repeat split; try lia; discriminate.
Qed.

Lemma shifted_trans j k a b c :
  1 <= j -> 1 <= k -> shifted j a b -> shifted k b c -> shifted (j + k) a c.
Proof.
  intros Hj Hk [Hb [Hab _]] [Hc [Hbc Hr]]. unfold shifted.
  rewrite Z.pow_add_r by lia.
  assert (P : 0 < 2 ^ j) by (apply Z.pow_pos_nonneg; lia).
  split; [exact Hc|]. split; [nia|].
  intros Hcr. specialize (Hr Hcr).
  replace (j + k - 1) with (j + (k - 1)) by lia.
  rewrite Z.pow_add_r by lia. nia.
Qed.

Lemma shifted_iter p a :
  0 <= shr_m a -> shifted (Z.pos p) a (iter_pos shr_1 p a).
Proof.
  revert a. induction p as [p IH|p IH|]; intros a Ha; cbn [iter_pos].
  - pose proof (shifted_once a Ha) as H1.
    assert (H2 := IH (shr_1 a) (proj1 H1)).
    assert (H3 := IH _ (proj1 H2)).
    replace (Z.pos p~1) with (1 + (Z.pos p + Z.pos p)) by lia.
    apply shifted_trans with (b := shr_1 a); try lia; [exact H1|].
    apply shifted_trans with (b := iter_pos shr_1 p (shr_1 a)); try lia; assumption.
  - assert (H2 := IH a Ha). assert (H3 := IH _ (proj1 H2)).
    replace (Z.pos p~0) with (Z.pos p + Z.pos p) by lia.
    apply shifted_trans with (b := iter_pos shr_1 p a); try lia; assumption.
  - now apply shifted_once.
Qed.

(** The first shift of a rounding: by [a] places, none when [a = 0]. *)
Lemma shr_fexp_exact m0 e0 mrs e1 :
  0 <= m0 ->
  shr_fexp prec emax m0 e0 loc_Exact = (mrs, e1) ->
  exists a,
    0 <= a /\ e1 = e0 + a /\ 0 <= shr_m mrs /\ shr_m mrs * 2 ^ a <= m0 /\
    (shr_r mrs = true -> 1 <= a /\ shr_m mrs * 2 ^ a + 2 ^ (a - 1) <= m0) /\
    (a = 0 \/ e1 = fexp prec emax (Zdigits2 m0 + e0)).
Proof.
  intros Hm. unfold shr_fexp, shr. cbn [shr_record_of_loc].
  destruct (fexp prec emax (Zdigits2 m0 + e0) - e0) as [|p|p] eqn:En;
    intros H; injection H as <- <-.
  - exists 0. cbn. repeat split; try lia; try discriminate.
  - exists (Z.pos p).
    destruct (shifted_iter p {| shr_m := m0; shr_r := false; shr_s := false |} Hm)
      as [H0 [H1 H2]].
    cbn [shr_m] in H1, H2.
    split; [lia|]. split; [lia|]. split; [exact H0|]. split; [exact H1|].
    split; [|right; lia].
    intros Hr. specialize (H2 Hr). split; [lia|exact H2].
  - exists 0. cbn. repeat split; try lia; try discriminate.
Qed.

Lemma round_nearest_even_bounds mrs :
  shr_m mrs <= round_nearest_even (shr_m mrs) (loc_of_shr_record mrs)
            <= shr_m mrs + (if shr_r mrs then 1 else 0).
Proof.
  destruct mrs as [m [|] [|]]; cbn; try lia.
  destruct (Z.even m); lia.
Qed.

Lemma fexp_of_small d x : d + x <= 2 -> fexp prec emax (d + x) <= -51.
Proof. unfold fexp, SpecFloat.emin, prec, emax. lia. Qed.

(** The Number 3. *)
Lemma Number_three : Number_of_Z 3 = S754_finite false 6755399441055744 (-51).
Proof. vm_compute. reflexivity. Qed.

(** The heart of the draw: a positive Number below one, times three,
    rounded to nearest, floors to 0, 1 or 2. *)
Lemma floor_of_triple m e :
  Z.pos (digits2_pos m) <= 53 -> -1074 <= e <= -53 ->
  exists n,
    Math_floor (Number_mul (S754_finite false m e)
                  (S754_finite false 6755399441055744 (-51))) = Some n /\
    0 <= n < 3.
Proof.
  intros Hd He. unfold Number_mul, SFmul. cbn [xorb].
  set (E := e + -51).
  assert (Hm : Z.pos m < 2 ^ 53).
  { eapply Z.lt_le_trans; [apply digits2_upper|].
    apply Z.pow_le_mono_r; lia. }
  assert (Hpow : 2 ^ 53 <= 2 ^ (- e)) by (apply Z.pow_le_mono_r; lia).
  assert (HE : 2 ^ (- E) = 2251799813685248 * 2 ^ (- e)).
  { unfold E. replace (- (e + -51)) with (51 + - e) by lia.
    rewrite Z.pow_add_r by lia. reflexivity. }
  set (M := Z.pos (m * 6755399441055744)).
  assert (HM : M = Z.pos m * 6755399441055744) by reflexivity.
  (* twice the exact product, plus one unit of the widest shift, stays
     below twice three *)
  assert (Hroom : 2 * M + 2 ^ 53 < 2 * (3 * 2 ^ (- E))).
  { rewrite HE, HM. change (2 ^ 53) with 9007199254740992 in *. lia. }
  unfold binary_round_aux.
  destruct (shr_fexp prec emax M E loc_Exact) as [mrs1 e1] eqn:S1.
  destruct (shr_fexp_exact M E mrs1 e1 ltac:(lia) S1)
    as [a1 [Ha1 [He1 [Hm1 [Hle1 [Hr1 Hf1]]]]]].
  set (m1 := round_nearest_even (shr_m mrs1) (loc_of_shr_record mrs1)).
  destruct (shr_fexp prec emax m1 e1 loc_Exact) as [mrs2 e2] eqn:S2.
  pose proof (round_nearest_even_bounds mrs1) as Hrne. fold m1 in Hrne.
  destruct (shr_fexp_exact m1 e1 mrs2 e2 ltac:(lia) S2)
    as [a2 [Ha2 [He2 [Hm2 [Hle2 [_ Hf2]]]]]].
  (* the first shift is by 53 places at most *)
  assert (HdM : Zdigits2 M <= 106).
  { apply digits2_below; [lia|]. rewrite <- Pos2Z.inj_mul in HM.
    change (Z.pos (m * 6755399441055744)) with M.
    rewrite HM. change (2 ^ 106) with (2 ^ 53 * 2 ^ 53).
    change (2 ^ 53) with 9007199254740992 in *. lia. }
  assert (Ha53 : a1 <= 53).
  { destruct Hf1 as [->|Hf1]; [lia|].
    unfold fexp, SpecFloat.emin, prec, emax in Hf1. unfold E in *. lia. }
  assert (P1 : 0 < 2 ^ a1) by (apply Z.pow_pos_nonneg; lia).
  assert (P2 : 0 < 2 ^ a2) by (apply Z.pow_pos_nonneg; lia).
  assert (Hp1 : 2 ^ a1 <= 2 ^ 53) by (apply Z.pow_le_mono_r; lia).
  (* the rounded mantissa, at its scale, is within half a unit *)
  assert (Hround : 2 * (m1 * 2 ^ a1) <= 2 * M + 2 ^ a1).
  { destruct (shr_r mrs1) eqn:Er.
    - destruct (Hr1 eq_refl) as [Ha Hh].
      replace (2 ^ a1) with (2 * 2 ^ (a1 - 1)) in *
        by (rewrite <- Z.pow_succ_r by lia; f_equal; lia).
      nia.
    - nia. }
  assert (Hbelow : m1 * 2 ^ a1 < 3 * 2 ^ (- E)) by lia.
  (* the exponents stay at or below -51 *)
  assert (HM4 : M < 2 ^ (2 - E)).
  { replace (2 - E) with (2 + - E) by lia. rewrite Z.pow_add_r by (unfold E; lia).
    change (2 ^ 2) with 4. lia. }
  assert (He1' : e1 <= -51).
  { destruct Hf1 as [->|Hf1]; [unfold E in *; lia|].
    rewrite Hf1. apply fexp_of_small.
    assert (Zdigits2 M <= 2 - E); [|lia].
    apply digits2_below; [unfold E; lia|exact HM4]. }
  assert (Hsplit1 : 2 ^ (- E) = 2 ^ (- e1) * 2 ^ a1).
  { rewrite <- Z.pow_add_r by lia. f_equal. lia. }
  assert (Hm1' : m1 < 3 * 2 ^ (- e1)).
  { rewrite Hsplit1 in Hbelow. nia. }
  assert (He2' : e2 <= -51).
  { destruct Hf2 as [->|Hf2]; [lia|].
    rewrite Hf2. apply fexp_of_small.
    destruct m1 as [|p1|p1]; [cbn; lia| |lia].
    assert (Zdigits2 (Z.pos p1) <= 2 - e1); [|lia].
    apply digits2_below; [lia|].
    replace (2 - e1) with (2 + - e1) by lia. rewrite Z.pow_add_r by lia.
    change (2 ^ 2) with 4. lia. }
  assert (Hsplit2 : 2 ^ (- e1) = 2 ^ (- e2) * 2 ^ a2).
  { rewrite <- Z.pow_add_r by lia. f_equal. lia. }
  assert (Hfinal : shr_m mrs2 < 3 * 2 ^ (- e2)).
  { rewrite Hsplit2 in Hm1'. nia. }
  destruct (shr_m mrs2) as [|p2|p2] eqn:Em2; [| |lia].
  - exists 0. split; [reflexivity|lia].
  - assert (Hleb : (e2 <=? emax - prec) = true).
    { apply Z.leb_le. unfold emax, prec. lia. }
    rewrite Hleb. cbn [Math_floor].
    assert (Hneg : (0 <=? e2) = false) by (apply Z.leb_gt; lia).
    rewrite Hneg. eexists. split; [reflexivity|].
    assert (P : 0 < 2 ^ (- e2)) by (apply Z.pow_pos_nonneg; lia).
    split.
    + apply Z.div_pos; lia.
    + apply Z.div_lt_upper_bound; lia.
Qed.

Lemma Number_one : Number_of_Z 1 = S754_finite false 4503599627370496 (-52).
Proof. vm_compute. reflexivity. Qed.

(** A Number in the unit interval is a zero, or positive with at most 53
    digits and an exponent of -53 or less. *)
Lemma unit_interval_cases r :
  in_unit_interval r = true ->
  (exists s, r = S754_zero s) \/
  (exists m e, r = S754_finite false m e /\
               Z.pos (digits2_pos m) <= 53 /\ -1074 <= e <= -53).
Proof.
  unfold in_unit_interval. rewrite Number_one.
  destruct r as [s| s | |s m e]; cbn [valid_binary].
  - intros _. left. now exists s.
  - destruct s; cbn; discriminate.
  - cbn. discriminate.
  - intros H. apply andb_prop in H. destruct H as [H Hlt].
    apply andb_prop in H. destruct H as [Hb Hle].
    destruct s; [cbn in Hle; discriminate|].
    right. exists m, e. split; [reflexivity|].
    unfold bounded, canonical_mantissa in Hb.
    apply andb_prop in Hb. destruct Hb as [Hc _].
    apply Z.eqb_eq in Hc.
    unfold fexp, SpecFloat.emin, prec, emax in Hc.
    assert (Hd : Z.pos (digits2_pos m) <= 53) by lia.
    split; [exact Hd|]. split; [lia|].
    unfold SFltb, SFcompare in Hlt.
    destruct (e ?= -52) eqn:Ec.
    + apply Z.compare_eq in Ec. subst e.
      assert (Z.pos (digits2_pos m) = 53) by lia.
      destruct (Pos.compare_cont Eq m 4503599627370496) eqn:Em; try discriminate.
      assert (Hm : Z.pos m < Z.pos 4503599627370496)
        by (apply Pos2Z.pos_lt_pos, Pos.compare_lt_iff; exact Em).
      clear Em Hle Hlt.
      assert (Z.pos (digits2_pos m) <= 52); [|lia].
      apply digits2_below; [lia|exact Hm].
    + assert (e < -52) by (apply Z.compare_lt_iff; exact Ec). lia.
    + discriminate.
Qed.

(** The draw over a wheel of three prizes gives 0, 1 or 2. *)
Lemma draw_in_range data r :
  length data = 3%nat -> in_unit_interval r = true ->
  exists n, draw_prize data r = Some n /\ 0 <= n < 3.
Proof.
  intros Hlen Hr. unfold draw_prize. rewrite Hlen.
  change (Z.of_nat 3) with 3. rewrite Number_three.
  destruct (unit_interval_cases r Hr) as [[s ->]|[m [e [-> [Hd He]]]]].
  - exists 0. split; [reflexivity|lia].
  - now apply floor_of_triple.
Qed.

Lemma index_in_range {A} (data : list A) n :
  0 <= n < Z.of_nat (length data) -> exists d, index data n = Some d.
Proof.
  intros Hn. unfold index.
  assert (E : (n <? 0) = false) by (apply Z.ltb_ge; lia). rewrite E.
  destruct (nth_error data (Z.to_nat n)) as [d|] eqn:En; [now exists d|].
  apply nth_error_None in En. lia.
Qed.

(** The updater of the prize, on a draw in range, shows a prize of the
    wheel. *)
Lemma apply_set_prize data r m :
  length data = 3%nat -> in_unit_interval r = true ->
  let m' := apply_updater (set_prize data (draw_prize data r)) m in
  prize_drawn data (wheelState (ui m')) /\ render_error m' = render_error m.
Proof.
  intros Hlen Hr. cbv zeta.
  destruct (draw_in_range data r Hlen Hr) as [n [Hn Hrange]].
  destruct (index_in_range data n) as [d Hd]; [rewrite Hlen; lia|].
  unfold apply_updater, set_prize. rewrite Hn, Hd.
  split; [|reflexivity].
  exists d. split; [|split; [exact Hd|reflexivity]].
  cbn [prizeNumber wheelState ui record with_ui with_wheelState].
  rewrite Hlen. lia.
Qed.

Lemma sent_succeeds w wa pk i m :
  step_succeeds w (n_sign (calls m)) (n_send (calls m)) ->
  exists m' txid,
    sent w wa pk i m = (m', Normal txid) /\
    n_sign (calls m') = S (n_sign (calls m)) /\
    n_send (calls m') = S (n_send (calls m)) /\
    n_random (calls m') = n_random (calls m) /\
    render_error m' = render_error m.
Proof.
  intros [[sg Hsg] [t Ht]]. unfold sent, submit, signed. rewrite Hsg. cbn.
  rewrite Ht. eexists. eexists. split; [reflexivity|]. cbn. auto.
Qed.

Lemma render_committed_to w m : render_error (committed_to w m) = render_error m.
Proof. reflexivity. Qed.

(** C10. After a spin whose two transactions went through, with
    [Math.random()] giving a Number in [0, 1), the number drawn is 0, 1 or
    2, the prize shown is the wheel's prize at that index, and the lookup
    did not fail. The same holds for the first revision, which draws
    after its one transaction. *)
Theorem prize_is_on_the_wheel env w st m :
  spin_refused st = false ->
  in_unit_interval (random w (n_random (calls m))) = true ->
  (spin_succeeds w m ->
   let m' := fst (run w (spinWheel env st) m) in
   prize_drawn wheelData (wheelState (ui m')) /\
   render_error m' = render_error m) /\
  (single_spin_succeeds w m ->
   let m' := fst (run w (SingleSpin.spinWheel env st) m) in
   prize_drawn SingleSpin.wheelData (wheelState (ui m')) /\
   render_error m' = render_error m).
Proof.
  intros Hg Hr. split.
  - intros [H1 H2]. cbv zeta.
    destruct (spin_accepted env st Hg) as [wa [pk [_ [_ ->]]]].
    rewrite run_try_catch, run_spin_body. cbv zeta.
    destruct (sent_succeeds w wa pk
                (commitInstruction env pk
                   (subtle_digest_SHA256 (fill_random w (n_entropy (calls m)) 32)))
                (committed_to w m) H1)
      as [m2 [t [-> [Hs2 [Hd2 [Hr2 He2]]]]]].
    assert (H2' : step_succeeds w (n_sign (calls (record (ev_sleep 2000) m2)))
                                  (n_send (calls (record (ev_sleep 2000) m2)))).
    { cbn [calls record]. rewrite Hs2, Hd2. exact H2. }
    destruct (sent_succeeds w wa pk
                (revealInstruction env pk (fill_random w (n_entropy (calls m)) 32))
                (record (ev_sleep 2000) m2) H2')
      as [m4 [t' [-> [_ [_ [Hr4 He4]]]]]].
    cbn [fst]. unfold resolved_on. rewrite ui_add_timer.
    assert (Hrand : n_random (calls m4) = n_random (calls m)).
    { rewrite Hr4. cbn [calls record]. rewrite Hr2. reflexivity. }
    rewrite Hrand.
    destruct (apply_set_prize wheelData (random w (n_random (calls m)))
                (record (ev_random (random w (n_random (calls m))))
                   (with_calls (bump_random (calls m4)) m4)) eq_refl Hr)
      as [Hp He].
    split; [exact Hp|].
    change (render_error (add_timer stop_wheel 10000 ?x)) with (render_error x).
    rewrite He. cbn. rewrite He4. cbn. rewrite He2. reflexivity.
  - intros [[c [r Hw]] [t Ht]]. cbv zeta.
    unfold SingleSpin.spinWheel. fold (spin_refused st). rewrite Hg.
    destruct (spin_accepted env st Hg) as [wa [pk [-> [-> _]]]].
    unfold SingleSpin.spin_body. cbn.
    rewrite !calls_apply_updater, Hw. cbn. rewrite Ht. cbn.
    rewrite ui_add_timer.
    change (render_error (add_timer stop_spinning 10000 ?x)) with (render_error x).
    match goal with
    | |- context [apply_updater (set_prize ?d (draw_prize ?d ?x)) ?M] =>
        destruct (apply_set_prize d x M eq_refl Hr) as [Hp He]
    end.
    split; [exact Hp|]. rewrite He. reflexivity.
Qed.

(** ** Signatures *)

Lemma submitted_app l1 l2 : submitted (l1 ++ l2) = submitted l1 ++ submitted l2.
Proof. apply flat_map_app. Qed.

(** What [sendTransaction] submits: one transaction when the wallet gave a
    response, carrying the decoded response without its first two bytes. *)
Lemma submitted_sent w wa pk i m tx :
  In tx (submitted (sent_events w wa pk i m)) ->
  exists c r,
    wallet w (n_sign (calls m)) = onFinish (Some (String c r)) /\
    signatures tx =
      [Some (slice_from 2 (Uint8Array_from (Buffer_from_base64 (String c r))))].
Proof.
  unfold sent_events.
  destruct (wallet w (n_sign (calls m))) as [[[|c r]|]| |];
    cbn; try tauto.
  intros [<-|[]]. now exists c, r.
Qed.

(** Stripping the two-byte prefix of a 66-byte decoded response leaves
    the 64-byte signature. *)
Lemma normalized_length response :
  length (Buffer_from_base64 response) = 66%nat ->
  length (slice_from 2 (Uint8Array_from (Buffer_from_base64 response))) = 64%nat.
Proof.
  intros H. unfold slice_from. rewrite length_skipn, Uint8Array_from_length, H.
  reflexivity.
Qed.


(** The two callbacks of the inline-signing revision treat the same
    response differently: the commit strips two bytes, the reveal none. *)
Lemma inline_callbacks_differ c r :
  InlineSigning.commitSignature_of (onFinish (Some (String c r))) =
    Ret (Some (slice_from 2 (Uint8Array_from (Buffer_from_base64 (String c r))))) /\
  InlineSigning.revealSignature_of (onFinish (Some (String c r))) =
    Ret (Some (Uint8Array_from (Buffer_from_base64 (String c r)))).
Proof. split; reflexivity. Qed.

(** C2, where the code departs from the claim. In the revision that signs
    inside [spinWheel], a wallet response of a 2-byte prefix and a 64-byte
    signature gives a commit transaction with a 64-byte signature and a
    reveal transaction with all 66 bytes. *)
Theorem inline_reveal_keeps_prefix :
  length (Buffer_from_base64 sample_response) = 66%nat /\
  map (fun tx => map (option_map (@length Z)) (signatures tx))
      (submitted (log (fst (run fair_world
                              (InlineSigning.spinWheel sample_env sample_state)
                              (start sample_state))))) =
  [[Some 64%nat]; [Some 66%nat]].
Proof. split; vm_compute; reflexivity. Qed.

(** The current component, on the same world, submits two 64-byte
    signatures. *)
Example current_spin_strips_both :
  map (fun tx => map (option_map (@length Z)) (signatures tx))
      (submitted (log (fst (run fair_world
                              (spinWheel sample_env sample_state)
                              (start sample_state))))) =
  [[Some 64%nat]; [Some 64%nat]].
Proof. vm_compute. reflexivity. Qed.


(** ** The properties at sample configurations *)

(** The layout at the digest of "abc". *)
Lemma commit_data_layout_witness :
  length (SHA256.digest (string_bytes "abc")) = 32%nat /\
  is_bytes (SHA256.digest (string_bytes "abc")) /\
  commitData (SHA256.digest (string_bytes "abc")) =
    1 :: SHA256.digest (string_bytes "abc") /\
  length (commitData (SHA256.digest (string_bytes "abc"))) = 33%nat.
Proof.
  split; [apply digest_length|]. split; [apply digest_bytes|].
  apply (commit_data_layout (SHA256.digest (string_bytes "abc")));
    [apply digest_length|apply digest_bytes].
Defined.


(** The accounts of the commit built by a spin in the fair world. *)
Lemma commit_accounts_witness :
  let c := commitInstruction sample_env sample_publicKey
             (subtle_digest_SHA256 (fill_random fair_world 0 32)) in
  publicKey sample_state = Some sample_publicKey /\
  In c (built 1 (since (start sample_state)
                   (fst (run fair_world (spinWheel sample_env sample_state)
                           (start sample_state))))) /\
  accounts c =
    [ {| pubkey := PubkeyUtil_fromHex sample_publicKey;
         is_signer := true; is_writable := false |};
      {| pubkey := PubkeyUtil_fromHex (VITE_WHEEL_STATE_ACCOUNT sample_env);
         is_signer := false; is_writable := true |} ].
Proof.
  intros c.
  assert (H1 : publicKey sample_state = Some sample_publicKey) by reflexivity.
  assert (H2 : In c (built 1 (since (start sample_state)
                        (fst (run fair_world (spinWheel sample_env sample_state)
                                (start sample_state))))))
    by (vm_compute; left; reflexivity).
  split; [exact H1|]. split; [exact H2|].
  exact (commit_accounts sample_env fair_world sample_state (start sample_state)
           sample_publicKey c H1 H2).
Defined.


(** A spin whose commit signature the user cancels. *)
Lemma commit_failure_ends_the_spin_witness :
  spin_refused sample_state = false /\
  commit_fails cancelling_world (start sample_state) /\
  let r := run cancelling_world (spinWheel sample_env sample_state)
             (start sample_state) in
  snd r = Normal tt /\
  isSpinning (wheelState (ui (fst r))) = false /\
  existsb (carries 2) (since (start sample_state) (fst r)) = false /\
  timers (fst r) = timers (start sample_state).
Proof.
  split; [reflexivity|]. split; [exact I|].
  exact (commit_failure_ends_the_spin sample_env cancelling_world sample_state
           (start sample_state) eq_refl I).
Defined.

(** The scenario of the spec: prizes A, B, C with probabilities 34, 33, 33. *)
Lemma initialize_round_trip_witness :
  initializeData ["A"; "B"; "C"] [34; 33; 33] =
    Normal [0; 3; 0; 0; 0; 1; 0; 0; 0; 65; 1; 0; 0; 0; 66; 1; 0; 0; 0; 67;
            3; 0; 0; 0; 34; 33; 33] /\
  decodeInitializeWheel
    [0; 3; 0; 0; 0; 1; 0; 0; 0; 65; 1; 0; 0; 0; 66; 1; 0; 0; 0; 67;
     3; 0; 0; 0; 34; 33; 33] = Some (["A"; "B"; "C"], [34; 33; 33]).
Proof.
  assert (H1 : fits_u32 (length ["A"; "B"; "C"])) by reflexivity.
  assert (H2 : Forall (fun s => fits_u32 (String.length s)) ["A"; "B"; "C"])
    by (repeat constructor).
  assert (H3 : fits_u32 (length [34; 33; 33])) by reflexivity.
  assert (H4 : is_bytes [34; 33; 33]) by (repeat constructor; discriminate).
  destruct (initialize_round_trip ["A"; "B"; "C"] [34; 33; 33] H1 H2 H3 H4)
    as [d [Hd [Hl Hr]]].
  rewrite Hl in Hd, Hr. split; [exact Hd|exact Hr].
Defined.

(** The reader on an account that exists and holds no bytes. *)
Lemma reader_tolerates_unreadable_state_witness :
  sdk sample_state = true /\
  Unreadable wheelStateSchema
    (read_result empty_account_world (n_read (calls (start sample_state)))) /\
  let r := run empty_account_world (checkWheelState sample_env sample_state)
             (start sample_state) in
  is_thrown (snd r) = false /\ isInitialized (ui (fst r)) = false.
Proof.
  assert (H1 : sdk sample_state = true) by reflexivity.
  assert (H2 : Unreadable wheelStateSchema
                 (read_result empty_account_world
                    (n_read (calls (start sample_state)))))
    by apply zero_length.
  split; [exact H1|]. split; [exact H2|].
  pose proof (reader_tolerates_unreadable_state sample_env empty_account_world
                sample_state (start sample_state)) as H.
  cbv zeta in H. destruct H as [Ha Hb]. split; [exact Ha|exact (Hb H1 H2)].
Defined.

Lemma fair_world_succeeds : spin_succeeds fair_world (start sample_state).
Proof. repeat split; eexists; reflexivity. Qed.

(** The prize of a spin in the fair world, where the draw is 0.9. *)
Lemma prize_is_on_the_wheel_witness :
  spin_refused sample_state = false /\
  in_unit_interval (random fair_world (n_random (calls (start sample_state)))) = true /\
  spin_succeeds fair_world (start sample_state) /\
  prize_drawn wheelData
    (wheelState (ui (fst (run fair_world (spinWheel sample_env sample_state)
                            (start sample_state))))).
Proof.
  assert (H1 : spin_refused sample_state = false) by reflexivity.
  assert (H2 : in_unit_interval
                 (random fair_world (n_random (calls (start sample_state)))) = true)
    by (vm_compute; reflexivity).
  split; [exact H1|]. split; [exact H2|]. split; [exact fair_world_succeeds|].
  exact (proj1 (proj1 (prize_is_on_the_wheel sample_env fair_world sample_state
                         (start sample_state) H1 H2) fair_world_succeeds)).
Defined.


(** The largest Number below one still draws the last prize, not a
    fourth. *)
Example draw_at_the_top :
  draw_prize wheelData (S754_finite false 9007199254740991 (-53)) = Some 2.
Proof. vm_compute. reflexivity. Qed.

(** A session: a click starts a spin; a second click while it is in
    flight changes nothing. *)
Lemma one_spin_in_flight_witness :
  let s1 := session sample_env fair_world [click_spin] (opening sample_state) in
  let s2 := session sample_env fair_world [click_spin; click_spin] (opening sample_state) in
  length (tasks s1) = 1%nat /\
  isSpinning (wheelState (ui (page s1))) = true /\
  s2 = s1.
Proof.
  split; [reflexivity|]. split; [reflexivity|].
  apply (one_spin_in_flight sample_env fair_world sample_state [click_spin]).
  reflexivity.
Defined.

(* ===================================================================== *)
(** * More of the client *)
(* ===================================================================== *)

(** ** What a run leaves in the record *)

Lemma requests_app l1 l2 : requests (l1 ++ l2) = requests l1 ++ requests l2.
Proof. apply flat_map_app. Qed.

Lemma hashed_app l1 l2 : hashed (l1 ++ l2) = hashed l1 ++ hashed l2.
Proof. apply flat_map_app. Qed.

Lemma since_sent w wa pk i m :
  since m (fst (sent w wa pk i m)) = sent_events w wa pk i m.
Proof. apply since_app, log_sent. Qed.

Lemma calls_sent w wa pk i m :
  n_sign (calls (fst (sent w wa pk i m))) = S (n_sign (calls m)) /\
  (n_send (calls (fst (sent w wa pk i m))) <= S (n_send (calls m)))%nat /\
  (n_send (calls m) <= n_send (calls (fst (sent w wa pk i m))))%nat /\
  n_read (calls (fst (sent w wa pk i m))) = n_read (calls m) /\
  n_processed (calls (fst (sent w wa pk i m))) = n_processed (calls m).
Proof.
  unfold sent, submit, signed.
  destruct (usable_signature _); cbn; repeat split; lia.
Qed.

(** ** [sendTransaction] on its own *)


(** X4. One call of [sendTransaction] hashes one message, the instruction
    with the signer's key, asks the wallet once, for the hex text of that
    hash, and submits at most one transaction: version 0, one signature,
    and the very message that was hashed. It touches neither the state of
    the page nor its timers. *)
Theorem sendTransaction_submits_what_it_signed w wa pk i m :
  let r := run w (sendTransaction wa pk i) m in
  let msg := {| signers := [PubkeyUtil_fromHex pk]; instructions := [i] |} in
  hashed (since m (fst r)) = [msg] /\
  requests (since m (fst r)) =
    [ {| sp_message := toString_hex (message_hash w msg);
         sp_address := wa;
         sp_network := Testnet |} ] /\
  (forall tx, In tx (submitted (since m (fst r))) ->
     version tx = 0 /\ message tx = msg /\ exists sg, signatures tx = [Some sg]) /\
  (length (submitted (since m (fst r))) <= 1)%nat /\
  n_sign (calls (fst r)) = S (n_sign (calls m)) /\
  ui (fst r) = ui m /\ timers (fst r) = timers m.
Proof.
  cbv zeta. rewrite run_sendTransaction, since_sent.
  split; [|split; [|split; [|split; [|split; [|split]]]]].
  - unfold sent_events. cbn. now destruct (usable_signature _).
  - unfold sent_events. cbn. now destruct (usable_signature _).
  - unfold sent_events. cbn. destruct (usable_signature _) as [sg|e]; cbn.
    + intros tx [<-|[]]. cbn. repeat split. now exists sg.
    + tauto.
  - unfold sent_events. cbn. destruct (usable_signature _); cbn; lia.
  - apply calls_sent.
  - apply ui_sent.
  - apply timers_sent.
Qed.

(** ** The record of a spin *)

Lemma snd_of {A B} (x : A * B) a b : x = (a, b) -> b = snd x.
Proof. now intros ->. Qed.

(** The three ways an accepted spin ends, with the events of each. *)
Lemma spin_end_log env w wa pk m m' :
  SpinEnd env w wa pk m m' ->
  let secret := fill_random w (n_entropy (calls m)) 32 in
  let c := commitInstruction env pk (subtle_digest_SHA256 secret) in
  let rv := revealInstruction env pk secret in
  let m1 := committed_to w m in
  let m2 := fst (sent w wa pk c m1) in
  let m3 := record (ev_sleep 2000) m2 in
  let m4 := fst (sent w wa pk rv m3) in
  (exists e,
     snd (sent w wa pk c m1) = Thrown e /\ m' = failed_on m2 /\
     since m m' = committed_events w m ++ sent_events w wa pk c m1
                  ++ failed_events m2) \/
  (exists t e,
     snd (sent w wa pk c m1) = Normal t /\
     snd (sent w wa pk rv m3) = Thrown e /\ m' = failed_on m4 /\
     since m m' = committed_events w m ++ sent_events w wa pk c m1
                  ++ [ev_sleep 2000] ++ sent_events w wa pk rv m3
                  ++ failed_events m4) \/
  (exists t t',
     snd (sent w wa pk c m1) = Normal t /\
     snd (sent w wa pk rv m3) = Normal t' /\ m' = resolved_on w m4 /\
     since m m' = committed_events w m ++ sent_events w wa pk c m1
                  ++ [ev_sleep 2000] ++ sent_events w wa pk rv m3
                  ++ resolved_events w m4).
Proof.
  intros Hend. cbv zeta.
  destruct Hend as [m2 e E1 | m2 t m4 e E1 E2 | m2 t m4 t' E1 E2].
  - left. exists e. pose proof (snd_of _ _ _ E1) as S1. apply fst_of in E1. subst m2.
    split; [now rewrite <- S1|]. split; [reflexivity|].
    apply since_app.
    now rewrite log_failed_on, log_sent, log_committed_to, <- !app_assoc.
  - right; left. exists t, e.
    pose proof (snd_of _ _ _ E1) as S1. apply fst_of in E1. subst m2.
    pose proof (snd_of _ _ _ E2) as S2. apply fst_of in E2. subst m4.
    split; [now rewrite <- S1|]. split; [now rewrite <- S2|]. split; [reflexivity|].
    apply since_app.
    rewrite log_failed_on, log_sent. cbn [log record].
    now rewrite log_sent, log_committed_to, <- !app_assoc.
  - right; right. exists t, t'.
    pose proof (snd_of _ _ _ E1) as S1. apply fst_of in E1. subst m2.
    pose proof (snd_of _ _ _ E2) as S2. apply fst_of in E2. subst m4.
    split; [now rewrite <- S1|]. split; [now rewrite <- S2|]. split; [reflexivity|].
    apply since_app.
    rewrite log_resolved_on, log_sent. cbn [log record].
    now rewrite log_sent, log_committed_to, <- !app_assoc.
Qed.

Lemma outside_refl st : same_outside_wheel st st.
Proof. now repeat split. Qed.

Lemma outside_trans a b c :
  same_outside_wheel a b -> same_outside_wheel b c -> same_outside_wheel a c.
Proof.
  unfold same_outside_wheel. intros [? [? [? [? ?]]]] [? [? [? [? ?]]]].
  repeat split; congruence.
Qed.

Lemma outside_apply_updater u m : same_outside_wheel (ui (apply_updater u m)) (ui m).
Proof.
  unfold apply_updater. destruct (u (wheelState (ui m))); now repeat split.
Qed.

Lemma outside_committed_to w m : same_outside_wheel (ui (committed_to w m)) (ui m).
Proof.
  unfold committed_to. cbn.
  eapply outside_trans; [apply outside_apply_updater|]. now repeat split.
Qed.

Lemma outside_failed_on m : same_outside_wheel (ui (failed_on m)) (ui m).
Proof. unfold failed_on. cbn. apply outside_apply_updater. Qed.

Lemma outside_resolved_on w m : same_outside_wheel (ui (resolved_on w m)) (ui m).
Proof.
  unfold resolved_on. rewrite ui_add_timer.
  eapply outside_trans; [apply outside_apply_updater|]. now repeat split.
Qed.

Lemma calls_resolved_on w m : calls (resolved_on w m) = bump_random (calls m).
Proof.
  unfold resolved_on. now rewrite calls_add_timer, calls_apply_updater.
Qed.

Lemma requests_sent w wa pk i m :
  requests (sent_events w wa pk i m) = [request_of w wa pk i].
Proof. unfold sent_events. cbn. now destruct (usable_signature _). Qed.

Lemma submitted_sent_length w wa pk i m :
  (length (submitted (sent_events w wa pk i m)) <= 1)%nat.
Proof. unfold sent_events. cbn. destruct (usable_signature _); cbn; lia. Qed.

(** The counters of the chain reads after each phase of a spin. *)
Lemma reads_sent w wa pk i m :
  n_read (calls (fst (sent w wa pk i m))) = n_read (calls m) /\
  n_processed (calls (fst (sent w wa pk i m))) = n_processed (calls m).
Proof. destruct (calls_sent w wa pk i m) as [_ [_ [_ H]]]. exact H. Qed.

Ltac phase_counters :=
  rewrite ?calls_failed_on, ?calls_resolved_on; cbn [calls record bump_random
    n_read n_processed n_sign n_send n_random];
  rewrite ?(proj1 (reads_sent _ _ _ _ _)), ?(proj2 (reads_sent _ _ _ _ _));
  cbn [calls record]; 
  rewrite ?(proj1 (reads_sent _ _ _ _ _)), ?(proj2 (reads_sent _ _ _ _ _));
  rewrite ?calls_committed_to; cbn [bump_entropy n_read n_processed].

Ltac count_submissions :=
  repeat match goal with
  | |- context [length (submitted (sent_events ?a ?b ?c ?i ?x))] =>
      let n := fresh "n" in
      pose proof (submitted_sent_length a b c i x);
      set (n := length (submitted (sent_events a b c i x))) in *;
      clearbody n
  end;
  cbn; lia.

(** X5. [spinWheel] never throws, whatever the wallet and the endpoint do.
    It changes no state but [wheelState], never reads an account or a
    transaction status, and makes at most two requests to the wallet and
    two submissions: nothing is tried a second time. *)
Theorem spin_never_throws env w st m :
  let r := run w (spinWheel env st) m in
  snd r = Normal tt /\
  same_outside_wheel (ui (fst r)) (ui m) /\
  n_read (calls (fst r)) = n_read (calls m) /\
  n_processed (calls (fst r)) = n_processed (calls m) /\
  (length (requests (since m (fst r))) <= 2)%nat /\
  (length (submitted (since m (fst r))) <= 2)%nat.
Proof.
  cbv zeta. destruct (spin_refused st) eqn:Hg.
  - unfold spinWheel. rewrite Hg. cbn. unfold since. rewrite skipn_all. cbn.
    repeat split; lia.
  - destruct (spin_ends env w st m Hg) as [wa [pk [m' [_ [_ [-> Hend]]]]]].
    cbn [fst snd]. split; [reflexivity|].
    destruct (spin_end_log _ _ _ _ _ _ Hend)
      as [[e [_ [-> ->]]] | [[t [e [_ [_ [-> ->]]]]] | [t [t' [_ [_ [-> ->]]]]]]].
    + split; [|split; [|split; [|split]]].
      * eapply outside_trans; [apply outside_failed_on|]. rewrite ui_sent.
        apply outside_committed_to.
      * now phase_counters.
      * now phase_counters.
      * rewrite !requests_app, requests_sent. cbn. lia.
      * rewrite !submitted_app, !length_app. count_submissions.
    + split; [|split; [|split; [|split]]].
      * eapply outside_trans; [apply outside_failed_on|]. rewrite ui_sent.
        cbn [ui record]. rewrite ui_sent. apply outside_committed_to.
      * now phase_counters.
      * now phase_counters.
      * rewrite !requests_app, !requests_sent. cbn. lia.
      * rewrite !submitted_app, !length_app. count_submissions.
    + split; [|split; [|split; [|split]]].
      * eapply outside_trans; [apply outside_resolved_on|]. rewrite ui_sent.
        cbn [ui record]. rewrite ui_sent. apply outside_committed_to.
      * now phase_counters.
      * now phase_counters.
      * rewrite !requests_app, !requests_sent. cbn. lia.
      * rewrite !submitted_app, !length_app. count_submissions.
Qed.

(** ** Failed spins *)

Lemma sent_fails w wa pk i m t :
  step_fails w (n_sign (calls m)) (n_send (calls m)) ->
  snd (sent w wa pk i m) <> Normal t.
Proof.
  unfold step_fails, sent, submit.
  destruct (usable_signature _) as [sg|e]; [|discriminate].
  cbn. destruct (send_result w _) as [t'|e]; [tauto|discriminate].
Qed.

Lemma sent_returned w wa pk i m t :
  snd (sent w wa pk i m) = Normal t ->
  step_succeeds w (n_sign (calls m)) (n_send (calls m)) /\
  send_result w (n_send (calls m)) = rpc_ok t /\
  n_sign (calls (fst (sent w wa pk i m))) = S (n_sign (calls m)) /\
  n_send (calls (fst (sent w wa pk i m))) = S (n_send (calls m)) /\
  exists sg,
    sent_events w wa pk i m =
      [ ev_hash (message_of pk i);
        ev_signMessage (request_of w wa pk i) (wallet w (n_sign (calls m)));
        ev_sendTransaction {| version := 0; signatures := [Some sg];
                              message := message_of pk i |} (rpc_ok t) ].
Proof.
  intros H.
  destruct (sent_returns w wa pk i m (fst (sent w wa pk i m)) t)
    as [sg [Hsg [Ht [Hs Hd]]]].
  { rewrite <- H. apply surjective_pairing. }
  split; [split; [now exists sg|now exists t]|].
  split; [exact Ht|]. split; [exact Hs|]. split; [exact Hd|].
  exists sg. unfold sent_events. now rewrite Hsg, Ht.
Qed.

Lemma guard_not_spinning st :
  spin_refused st = false -> isSpinning (wheelState st) = false.
Proof.
  unfold spin_refused. intros H. now apply orb_false_iff in H.
Qed.

Lemma ui_failed_on m :
  ui (failed_on m) =
  with_wheelState {| isSpinning := false;
                     currentPrize := currentPrize (wheelState (ui m));
                     prizeNumber := prizeNumber (wheelState (ui m)) |} (ui m).
Proof. reflexivity. Qed.

Lemma ui_committed_to w m :
  ui (committed_to w m) =
  with_wheelState {| isSpinning := true;
                     currentPrize := currentPrize (wheelState (ui m));
                     prizeNumber := prizeNumber (wheelState (ui m)) |} (ui m).
Proof. reflexivity. Qed.

Lemma timers_failed_on m : timers (failed_on m) = timers m.
Proof. unfold failed_on. cbn. apply timers_apply_updater. Qed.

Lemma timers_committed_to w m : timers (committed_to w m) = timers m.
Proof. unfold committed_to. cbn. now rewrite timers_apply_updater. Qed.

Lemma render_failed_on m : render_error (failed_on m) = render_error m.
Proof. unfold failed_on. cbn. apply render_set_isSpinning. Qed.

Lemma random_failed_on m : n_random (calls (failed_on m)) = n_random (calls m).
Proof. now rewrite calls_failed_on. Qed.

(** The page after a commit and a failure is the page before the click,
    when the wheel was at rest. *)
Lemma failed_after_commit w m m4 :
  isSpinning (wheelState (ui m)) = false ->
  ui m4 = ui (committed_to w m) ->
  ui (failed_on m4) = ui m.
Proof.
  intros Hs H. rewrite ui_failed_on, H, ui_committed_to.
  destruct (ui m) as [[sp cp pn] wa' pk' s a i]. cbn in *. now subst sp.
Qed.

(** X6. A spin that fails, at the commit or at the reveal, leaves the
    state of the page exactly as it was before the click: [isSpinning] is
    false again, the prize and the prize number are the earlier ones, no
    timer is pending, no draw was made; so the page shows what it showed
    before, an earlier prize included. The handler returns normally. *)
Theorem failed_spin_restores_the_page env w m :
  spin_refused (ui m) = false ->
  spin_fails w m ->
  let r := run w (spinWheel env (ui m)) m in
  snd r = Normal tt /\
  ui (fst r) = ui m /\
  render (ui (fst r)) = render (ui m) /\
  timers (fst r) = timers m /\
  render_error (fst r) = render_error m /\
  n_random (calls (fst r)) = n_random (calls m).
Proof.
  intros Hg Hfail. cbv zeta.
  pose proof (guard_not_spinning _ Hg) as Hrest.
  destruct (spin_ends env w (ui m) m Hg) as [wa [pk [m' [_ [_ [-> Hend]]]]]].
  cbn [fst snd]. split; [reflexivity|].
  assert (H : ui m' = ui m /\ timers m' = timers m /\
              render_error m' = render_error m /\
              n_random (calls m') = n_random (calls m)).
  { destruct (spin_end_log _ _ _ _ _ _ Hend)
      as [[e [_ [-> _]]] | [[t [e [_ [_ [-> _]]]]] | [t [t' [S1 [S2 _]]]]]].
    - split; [|split; [|split]].
      + apply (failed_after_commit w). exact Hrest. apply ui_sent.
      + now rewrite timers_failed_on, timers_sent, timers_committed_to.
      + now rewrite render_failed_on, render_sent, render_committed_to.
      + now rewrite random_failed_on, random_sent.
    - split; [|split; [|split]].
      + apply (failed_after_commit w). exact Hrest.
        rewrite ui_sent. cbn [ui record]. apply ui_sent.
      + rewrite timers_failed_on, timers_sent. cbn [timers record].
        now rewrite timers_sent, timers_committed_to.
      + rewrite render_failed_on, render_sent. cbn [render_error record].
        now rewrite render_sent, render_committed_to.
      + rewrite random_failed_on, random_sent. cbn [calls record].
        now rewrite random_sent.
    - exfalso.
      destruct (sent_returned _ _ _ _ _ _ S1) as [_ [_ [Hs [Hd _]]]].
      destruct Hfail as [Hf|[_ Hf]].
      + exact (sent_fails w wa pk _ (committed_to w m) t Hf S1).
      + refine (sent_fails _ _ _ _ _ _ _ S2). cbn [calls record].
        rewrite Hs, Hd. exact Hf. }
  destruct H as [Hu [Ht [He Hr]]]. rewrite Hu. now repeat split.
Qed.

(** X7. When the commit went through and the reveal step fails, the
    commit transaction stays submitted and accepted and nothing takes it
    back; the reveal instruction was built once, and a reveal transaction
    was submitted at most once, and then rejected; no prize is drawn, no
    timer is set, and [isSpinning] is false again. *)
Theorem reveal_failure_leaves_the_commit env w st m :
  spin_refused st = false ->
  step_succeeds w (n_sign (calls m)) (n_send (calls m)) ->
  step_fails w (S (n_sign (calls m))) (S (n_send (calls m))) ->
  let r := run w (spinWheel env st) m in
  let secret := fill_random w (n_entropy (calls m)) 32 in
  exists pk commitTx rest,
    publicKey st = Some pk /\
    snd r = Normal tt /\
    isSpinning (wheelState (ui (fst r))) = false /\
    timers (fst r) = timers m /\
    n_random (calls (fst r)) = n_random (calls m) /\
    submitted (since m (fst r)) = commitTx :: rest /\
    instructions (message commitTx) =
      [commitInstruction env pk (subtle_digest_SHA256 secret)] /\
    built 2 (since m (fst r)) = [revealInstruction env pk secret] /\
    (rest = [] \/
     exists revealTx e,
       rest = [revealTx] /\
       instructions (message revealTx) = [revealInstruction env pk secret] /\
       send_result w (S (n_send (calls m))) = rpc_error e).
Proof.
  intros Hg Hok Hfail. cbv zeta.
  destruct (spin_ends env w st m Hg) as [wa [pk [m' [_ [Hpk [-> Hend]]]]]].
  cbn [fst snd]. exists pk.
  pose proof (spin_end_log _ _ _ _ _ _ Hend) as Hcases. cbv zeta in Hcases.
  destruct (sent_succeeds w wa pk
              (commitInstruction env pk
                 (subtle_digest_SHA256 (fill_random w (n_entropy (calls m)) 32)))
              (committed_to w m) Hok)
    as [m2 [t [E1 _]]].
  pose proof (snd_of _ _ _ E1) as S1. cbn [snd] in S1. symmetry in S1.
  destruct (sent_returned _ _ _ _ _ _ S1) as [_ [_ [Hs [Hd [sg Hev]]]]].
  clear E1 m2.
  destruct Hcases
    as [[e [S1' _]] | [[t0 [e [_ [S2 [-> Hlog]]]]] | [t0 [t' [_ [S2 _]]]]]].
  - pose proof (eq_trans (eq_sym S1) S1') as X. discriminate X.
  - exists {| version := 0; signatures := [Some sg];
              message := message_of pk
                (commitInstruction env pk
                   (subtle_digest_SHA256 (fill_random w (n_entropy (calls m)) 32))) |}.
    match type of S2 with
    | snd (sent _ _ _ ?rv ?m3) = _ =>
        exists (submitted (sent_events w wa pk rv m3));
        assert (Hfail3 : step_fails w (n_sign (calls m3)) (n_send (calls m3)))
          by (cbn [calls record]; rewrite Hs, Hd; exact Hfail)
    end.
    split; [exact Hpk|]. split; [reflexivity|].
    split; [unfold failed_on; cbn [ui record]; apply spinning_set_isSpinning|].
    split.
    { rewrite timers_failed_on, timers_sent. cbn [timers record].
      now rewrite timers_sent, timers_committed_to. }
    split.
    { rewrite random_failed_on, random_sent. cbn [calls record].
      now rewrite random_sent. }
    rewrite Hlog, Hev.
    rewrite !submitted_app, !built_app, built_sent, reveal_discriminant.
    split.
    { match goal with
      | |- context [submitted (failed_events ?x)] =>
          change (submitted (failed_events x)) with (@nil Transaction)
      end.
      rewrite app_nil_r. reflexivity. }
    split; [reflexivity|].
    split.
    { cbn [committed_events failed_events built flat_map Datatypes.app instructions
           message_of filter].
      rewrite commit_discriminant. reflexivity. }
    unfold sent_events, step_fails in *.
    match type of Hfail3 with
    | match usable_signature ?o with _ => _ end =>
        destruct (usable_signature o) as [sg2|e2]
    end.
    + right.
      match type of Hfail3 with
      | match ?r with _ => _ end => destruct r as [t2|e2] eqn:Er; [contradiction|]
      end.
      eexists. exists e2. split; [reflexivity|]. split; [reflexivity|].
      cbn [calls record] in Er. rewrite Hd in Er. exact Er.
    + left. reflexivity.
  - exfalso.
    refine (sent_fails _ _ _ _ _ _ _ S2). cbn [calls record].
    rewrite Hs, Hd. exact Hfail.
Qed.

(** ** The order of a spin *)

(** An event that stands alone among events of another kind is found at
    one place only. *)
Lemma split_at_the_one {A} (P : A -> bool) l1 x l2 a y b :
  l1 ++ x :: l2 = a ++ y :: b ->
  P x = true ->
  forallb (fun e => negb (P e)) a = true ->
  forallb (fun e => negb (P e)) b = true ->
  l1 = a.
Proof.
  revert a. induction l1 as [|z l1 IH]; intros a E Hx Ha Hb.
  - destruct a as [|a0 a]; [reflexivity|].
    cbn in E. injection E as <- _. cbn in Ha. now rewrite Hx in Ha.
  - destruct a as [|a0 a].
    + cbn in E. injection E as _ E.
      assert (Hin : In x b) by (rewrite <- E; apply in_elt).
      rewrite forallb_forall in Hb. specialize (Hb x Hin). now rewrite Hx in Hb.
    + cbn in E. injection E as <- E. cbn in Ha. apply andb_true_iff in Ha.
      f_equal. now apply (IH a).
Qed.

Lemma none_among {A} (P : A -> bool) l l1 x l2 :
  forallb (fun e => negb (P e)) l = true -> l = l1 ++ x :: l2 -> P x = false.
Proof.
  intros H ->. rewrite forallb_forall in H.
  specialize (H x (in_elt x l1 l2)). now apply negb_true_iff in H.
Qed.

(** No message with a reveal is hashed in these phases. *)
Lemma quiet_committed w m :
  forallb (fun e => negb (reveals e)) (committed_events w m) = true.
Proof. reflexivity. Qed.

Lemma quiet_failed m : forallb (fun e => negb (reveals e)) (failed_events m) = true.
Proof. reflexivity. Qed.

Lemma quiet_resolved w m :
  forallb (fun e => negb (reveals e)) (resolved_events w m) = true.
Proof. reflexivity. Qed.

Lemma quiet_commit env w wa pk c m :
  forallb (fun e => negb (reveals e))
    (sent_events w wa pk (commitInstruction env pk c) m) = true.
Proof.
  unfold sent_events. cbn [forallb reveals instructions message_of existsb].
  rewrite commit_discriminant. now destruct (usable_signature _).
Qed.

Lemma quiet_after_hash w wa pk i m :
  exists rest,
    sent_events w wa pk i m = ev_hash (message_of pk i) :: rest /\
    forallb (fun e => negb (reveals e)) rest = true.
Proof.
  unfold sent_events. eexists. split; [reflexivity|].
  now destruct (usable_signature _).
Qed.

(** X8. A message with a RevealSpin instruction is hashed, and so signed
    and submitted, only right after the two-second wait that follows a
    commit transaction the endpoint accepted: in the record of any run of
    [spinWheel], the two events before it are that submission, answered
    with a transaction id, and the wait. *)
Theorem reveal_follows_an_accepted_commit env w st m l1 msg l2 :
  since m (fst (run w (spinWheel env st) m)) = l1 ++ ev_hash msg :: l2 ->
  existsb (has_discriminant 2) (instructions msg) = true ->
  exists l0 tx txid,
    l1 = l0 ++ [ev_sendTransaction tx (rpc_ok txid); ev_sleep 2000] /\
    existsb (has_discriminant 1) (instructions (message tx)) = true.
Proof.
  intros Hlog Hrev.
  assert (Hx : reveals (ev_hash msg) = true) by exact Hrev.
  destruct (spin_refused st) eqn:Hg.
  { unfold spinWheel in Hlog. rewrite Hg in Hlog. cbn in Hlog.
    unfold since in Hlog. rewrite skipn_all in Hlog. now destruct l1. }
  destruct (spin_ends env w st m Hg) as [wa [pk [m' [_ [_ [E Hend]]]]]].
  rewrite E in Hlog. cbn [fst] in Hlog.
  destruct (spin_end_log _ _ _ _ _ _ Hend)
    as [[e [_ [_ L]]] | [[t [e [S1 [_ [_ L]]]]] | [t [t' [S1 [_ [_ L]]]]]]];
    rewrite L in Hlog; clear L.
  - exfalso.
    assert (Hq : reveals (ev_hash msg) = false).
    { eapply none_among; [|exact Hlog].
      rewrite !forallb_app, quiet_committed, quiet_commit. reflexivity. }
    rewrite Hq in Hx. discriminate.
  - destruct (sent_returned _ _ _ _ _ _ S1) as [_ [_ [_ [_ [sg Hev]]]]].
    match type of Hlog with
    | context [sent_events w wa pk ?rv ?m3 ++ failed_events ?m4] =>
        destruct (quiet_after_hash w wa pk rv m3) as [rest [Hrv Hrest]];
        rewrite Hrv in Hlog
    end.
    rewrite Hev in Hlog.
    match type of Hlog with
    | ?c ++ [?h; ?s; ?sd] ++ [?sl] ++ (?y :: ?r) ++ ?tl = _ =>
        assert (Hl1 : l1 = c ++ [h; s; sd; sl]);
        [ apply (split_at_the_one reveals l1 (ev_hash msg) l2 _ y (r ++ tl));
          [ rewrite <- Hlog, <- !app_assoc; reflexivity
          | exact Hx
          | rewrite forallb_app, quiet_committed;
            cbn [forallb reveals instructions message_of existsb];
            now rewrite commit_discriminant
          | rewrite forallb_app, Hrest; reflexivity ]
        | exists (c ++ [h; s]); exists (match sd with
                                        | ev_sendTransaction tx _ => tx
                                        | _ => {| version := 0; signatures := [];
                                                  message := message_of pk (commitInstruction env pk []) |}
                                        end); exists t ]
    end.
    split.
    + rewrite Hl1, <- app_assoc. reflexivity.
    + cbn [message instructions message_of existsb].
      now rewrite commit_discriminant.
  - destruct (sent_returned _ _ _ _ _ _ S1) as [_ [_ [_ [_ [sg Hev]]]]].
    match type of Hlog with
    | context [sent_events w wa pk ?rv ?m3 ++ resolved_events w ?m4] =>
        destruct (quiet_after_hash w wa pk rv m3) as [rest [Hrv Hrest]];
        rewrite Hrv in Hlog
    end.
    rewrite Hev in Hlog.
    match type of Hlog with
    | ?c ++ [?h; ?s; ?sd] ++ [?sl] ++ (?y :: ?r) ++ ?tl = _ =>
        assert (Hl1 : l1 = c ++ [h; s; sd; sl]);
        [ apply (split_at_the_one reveals l1 (ev_hash msg) l2 _ y (r ++ tl));
          [ rewrite <- Hlog, <- !app_assoc; reflexivity
          | exact Hx
          | rewrite forallb_app, quiet_committed;
            cbn [forallb reveals instructions message_of existsb];
            now rewrite commit_discriminant
          | rewrite forallb_app, Hrest; reflexivity ]
        | exists (c ++ [h; s]); exists (match sd with
                                        | ev_sendTransaction tx _ => tx
                                        | _ => {| version := 0; signatures := [];
                                                  message := message_of pk (commitInstruction env pk []) |}
                                        end); exists t ]
    end.
    split.
    + rewrite Hl1, <- app_assoc. reflexivity.
    + cbn [message instructions message_of existsb].
      now rewrite commit_discriminant.
Qed.

(** ** Successful spins *)

Lemma ui_apply_updater u m :
  ui (apply_updater u m) =
  match u (wheelState (ui m)) with
  | Some ws => with_wheelState ws (ui m)
  | None => ui m
  end.
Proof. unfold apply_updater. now destruct (u (wheelState (ui m))). Qed.

Lemma ui_resolved_on w m :
  ui (resolved_on w m) =
  match set_prize wheelData (draw_prize wheelData (random w (n_random (calls m))))
          (wheelState (ui m)) with
  | Some ws => with_wheelState ws (ui m)
  | None => ui m
  end.
Proof. unfold resolved_on. now rewrite ui_add_timer, ui_apply_updater. Qed.

Lemma timers_resolved_on w m :
  timers (resolved_on w m) = timers m ++ [(10000, stop_wheel)].
Proof. unfold resolved_on. now rewrite timers_add_timer, timers_apply_updater. Qed.

(** A spin whose two steps succeed reaches the draw. *)
Lemma successful_spin env w st m :
  spin_refused st = false -> spin_succeeds w m ->
  exists m4,
    run w (spinWheel env st) m = (resolved_on w m4, Normal tt) /\
    ui m4 = ui (committed_to w m) /\
    n_random (calls m4) = n_random (calls m) /\
    timers m4 = timers m /\
    render_error m4 = render_error m.
Proof.
  intros Hg [H1 H2].
  destruct (spin_accepted env st Hg) as [wa [pk [_ [_ ->]]]].
  rewrite run_try_catch, run_spin_body. cbv zeta.
  destruct (sent_succeeds w wa pk
              (commitInstruction env pk
                 (subtle_digest_SHA256 (fill_random w (n_entropy (calls m)) 32)))
              (committed_to w m) H1)
    as [m2 [t [E1 [Hs2 [Hd2 [Hr2 He2]]]]]].
  rewrite E1.
  assert (H2' : step_succeeds w (n_sign (calls (record (ev_sleep 2000) m2)))
                                (n_send (calls (record (ev_sleep 2000) m2)))).
  { cbn [calls record]. rewrite Hs2, Hd2. exact H2. }
  destruct (sent_succeeds w wa pk
              (revealInstruction env pk (fill_random w (n_entropy (calls m)) 32))
              (record (ev_sleep 2000) m2) H2')
    as [m4 [t' [E2 [_ [_ [Hr4 He4]]]]]].
  rewrite E2. exists m4. split; [reflexivity|].
  apply fst_of in E1, E2. subst m2 m4.
  split; [|split; [|split]].
  - rewrite ui_sent. cbn [ui record]. apply ui_sent.
  - rewrite random_sent. cbn [calls record]. now rewrite random_sent.
  - rewrite timers_sent. cbn [timers record].
    now rewrite timers_sent, timers_committed_to.
  - rewrite render_sent. cbn [render_error record].
    now rewrite render_sent, render_committed_to.
Qed.

(** X9. The prize a successful spin shows is decided by [Math.random()]
    alone: two environments that give the same random Number lead to the
    same state of the page, whatever the secrets drawn, the responses of
    the wallet and the transaction ids of the endpoint. *)
Theorem prize_is_the_local_draw env w1 w2 st m :
  spin_refused st = false ->
  spin_succeeds w1 m -> spin_succeeds w2 m ->
  random w1 (n_random (calls m)) = random w2 (n_random (calls m)) ->
  ui (fst (run w1 (spinWheel env st) m)) = ui (fst (run w2 (spinWheel env st) m)).
Proof.
  intros Hg H1 H2 Hr.
  destruct (successful_spin env w1 st m Hg H1) as [a [-> [Ha [Hra _]]]].
  destruct (successful_spin env w2 st m Hg H2) as [b [-> [Hb [Hrb _]]]].
  cbn [fst]. rewrite !ui_resolved_on, Ha, Hb, Hra, Hrb, Hr.
  now rewrite !ui_committed_to.
Qed.

(** ** A spin, answer by answer *)

Lemma answers_when_idle env w n m :
  session env w (repeat (answer 0) n) {| page := m; tasks := [] |} =
  {| page := m; tasks := [] |}.
Proof. induction n as [|n IH]; [reflexivity|exact IH]. Qed.

Lemma answer_suspended env w n p m :
  session env w (repeat (answer 0) (S n)) (settle_task (m, suspended p) []) =
  session env w (repeat (answer 0) n) (settle_task (resume w p m) []).
Proof. reflexivity. Qed.

(** A handler started on an idle page and answered call after call ends
    as the uninterrupted run does. *)
Lemma answered_in_turn env w n p m :
  AwaitsAtMost n p ->
  session env w (repeat (answer 0) n) (settle_task (advance w p m) []) =
  {| page := fst (run w p m); tasks := [] |}.
Proof.
  intros H. revert m.
  induction H; intros m0; cbn [advance run]; auto;
    try (unfold settle_task; cbn [snd fst]; apply answers_when_idle);
    rewrite answer_suspended; cbn [resume]; auto.
Qed.

Ltac awaits_step :=
  cbn;
  first [ apply awaits_ret | apply awaits_throw | apply awaits_setWheelState
        | apply awaits_setIsInitialized | apply awaits_getRandomValues
        | apply awaits_random | apply awaits_hash | apply awaits_setTimeout
        | apply awaits_audio | apply awaits_digest | apply awaits_sign
        | apply awaits_send | apply awaits_read | apply awaits_processed
        | apply awaits_sleep ];
  try match goal with
      | |- forall _ : WalletOutcome, _ => intros [[[|? ?]|]| |]
      | |- forall _ : RpcOutcome _, _ => intros [?|?]
      | |- forall _, _ => intro
      end.

(** [spinWheel] awaits at most six calls: the digest, and for each of the
    two transactions the wallet and the endpoint, with the wait between. *)
Lemma spinWheel_awaits env st : AwaitsAtMost 6 (spinWheel env st).
Proof.
  unfold spinWheel. destruct (spin_refused st); [apply awaits_ret|].
  destruct (walletAddress st) as [wa|]; [|apply awaits_ret].
  destruct (publicKey st) as [pk|]; [|apply awaits_ret].
  unfold spin_body, sendTransaction. repeat awaits_step.
Qed.

Lemma clicked_and_answered env w s :
  tasks s = [] ->
  session env w (click_spin :: repeat (answer 0) 6) s =
  {| page := fst (run w (spinWheel env (ui (page s))) (page s)); tasks := [] |}.
Proof.
  intros Ht. change (session env w (click_spin :: repeat (answer 0) 6) s)
    with (session env w (repeat (answer 0) 6) (click env w s)).
  unfold click. rewrite Ht. apply answered_in_turn, spinWheel_awaits.
Qed.

(** X23. A spin never stays suspended: started by a click on a page where
    nothing is in flight, it is over once six awaited calls have been
    answered, however the wallet and the endpoint answer, and the page is
    then the one the uninterrupted run of [spinWheel] gives. *)
Theorem six_answers_end_a_spin env w s :
  tasks s = [] ->
  let s' := session env w (click_spin :: repeat (answer 0) 6) s in
  tasks s' = [] /\
  page s' = fst (run w (spinWheel env (ui (page s))) (page s)) /\
  snd (run w (spinWheel env (ui (page s))) (page s)) = Normal tt.
Proof.
  intros Ht. cbv zeta. rewrite (clicked_and_answered env w s Ht).
  split; [reflexivity|]. split; [reflexivity|].
  destruct (spin_refused (ui (page s))) eqn:Hg.
  - unfold spinWheel. now rewrite Hg.
  - destruct (spin_ends env w (ui (page s)) (page s) Hg)
      as [wa [pk [m' [_ [_ [-> _]]]]]]. reflexivity.
Qed.

Lemma session_app env w l1 l2 s :
  session env w (l1 ++ l2) s = session env w l2 (session env w l1 s).
Proof. apply fold_left_app. Qed.

(** Every prize of the wheel has a name to show. *)
Lemma prizes_have_names n d :
  index wheelData n = Some d -> truthy (Some (prize_option d)) = true.
Proof.
  unfold index. destruct (n <? 0); [discriminate|].
  destruct (Z.to_nat n) as [|[|[|k]]]; cbn; intros H;
    try (destruct k; discriminate); injection H as <-; reflexivity.
Qed.

(** The state of the page once the prize is set. *)
Lemma resolved_state w m4 m :
  ui m4 = ui (committed_to w m) ->
  n_random (calls m4) = n_random (calls m) ->
  in_unit_interval (random w (n_random (calls m))) = true ->
  exists n d,
    0 <= n < 3 /\ index wheelData n = Some d /\
    ui (resolved_on w m4) =
      with_wheelState {| isSpinning := true;
                         currentPrize := Some (prize_option d);
                         prizeNumber := n |} (ui m).
Proof.
  intros Hu Hrand Hr.
  destruct (draw_in_range wheelData _ eq_refl Hr) as [n [Hn Hrange]].
  destruct (index_in_range wheelData n) as [d Hd]; [exact Hrange|].
  exists n, d. split; [exact Hrange|]. split; [exact Hd|].
  rewrite ui_resolved_on, Hrand, Hn. unfold set_prize. rewrite Hd, Hu.
  reflexivity.
Qed.

(** X10. The whole of a successful spin, from an idle page: the click, the
    six awaited calls answered one after the other, and the timer. At the
    end nothing is in flight and no timer is pending, [isSpinning] is
    false, the prize drawn is a prize of the wheel and stays on the page,
    the spin action is accepted again, and on an initialized wheel the
    page shows the game with the button enabled and that prize. *)
Theorem spin_cycle env w s :
  tasks s = [] -> timers (page s) = [] ->
  spin_refused (ui (page s)) = false ->
  spin_succeeds w (page s) ->
  in_unit_interval (random w (n_random (calls (page s)))) = true ->
  let s' := session env w (click_spin :: repeat (answer 0) 6 ++ [timer_fires 0]) s in
  tasks s' = [] /\ timers (page s') = [] /\
  isSpinning (wheelState (ui (page s'))) = false /\
  prize_drawn wheelData (wheelState (ui (page s'))) /\
  spin_refused (ui (page s')) = false /\
  (isInitialized (ui (page s)) = true ->
   exists prize,
     currentPrize (wheelState (ui (page s'))) = Some prize /\
     render (ui (page s')) = view_game (isAdmin (ui (page s))) false (Some prize)).
Proof.
  intros Htasks Htimers Hg Hok Hr. cbv zeta.
  rewrite app_comm_cons, session_app, (clicked_and_answered env w s Htasks).
  destruct (successful_spin env w (ui (page s)) (page s) Hg Hok)
    as [m4 [-> [Hu [Hrand [Ht He]]]]].
  destruct (resolved_state w m4 (page s) Hu Hrand Hr) as [n [d [Hrange [Hd Hres]]]].
  cbn [fst]. unfold session. cbn [fold_left step page tasks].
  rewrite timers_resolved_on, Ht, Htimers. cbn [Datatypes.app nth_error].
  cbn [page tasks fold_left stop_wheel run_action].
  set (m5 := drop_timer 0 (resolved_on w m4)).
  assert (Hu5 : ui m5 = ui (resolved_on w m4)) by reflexivity.
  assert (Ht5 : timers m5 = []).
  { unfold m5, drop_timer, remove_nth. cbn [timers].
    now rewrite timers_resolved_on, Ht, Htimers. }
  clearbody m5.
  split; [reflexivity|]. split.
  { cbn [timers record]. now rewrite timers_apply_updater. }
  cbn [ui record]. rewrite ui_apply_updater, Hu5, Hres.
  cbn [set_isSpinning with_wheelState wheelState isSpinning currentPrize prizeNumber
       walletAddress publicKey sdk isAdmin isInitialized].
  split; [reflexivity|]. split.
  { exists d. cbn. repeat split; [lia|lia|exact Hd]. }
  split.
  { unfold spin_refused in *. cbn.
    apply orb_false_iff in Hg. destruct Hg as [Hg _]. now rewrite Hg. }
  intros Hinit. exists (prize_option d). split; [reflexivity|].
  unfold render. cbn. rewrite Hinit.
  unfold spin_refused in Hg.
  destruct (truthy (walletAddress (ui (page s)))); [|now rewrite orb_true_r in Hg].
  cbn. pose proof (prizes_have_names _ _ Hd) as Hn. cbn in Hn. now rewrite Hn.
Qed.

(** X11. While a spin is in flight or the wheel is still turning, the
    page never shows a prize and keeps the spin button disabled: in any
    session, whenever a handler is suspended or the timer is pending, the
    game view has no prize banner. *)
Theorem prize_hidden_while_spinning env w st inputs admin disabled banner :
  let s := session env w inputs (opening st) in
  tasks s <> [] \/ timers (page s) <> [] ->
  render (ui (page s)) = view_game admin disabled banner ->
  disabled = true /\ banner = None.
Proof.
  intros s Hbusy.
  assert (H : Shape s) by (apply shape_session; now apply shape_idle).
  assert (Hspin : isSpinning (wheelState (ui (page s))) = true).
  { destruct H as [s Htasks Htimers | s q _ _ Hspin _ | s _ Hspin _]; auto.
    destruct Hbusy; contradiction. }
  unfold render. rewrite Hspin.
  destruct (negb (truthy (walletAddress (ui (page s))))); [discriminate|].
  destruct (negb (isInitialized (ui (page s)))); [discriminate|].
  rewrite andb_false_r. intros E. injection E as _ <- <-. now split.
Qed.

(** ** The revision that signs inside [spinWheel] *)

(** A run only adds to the record. *)
Lemma run_extends {A} w (p : Prog A) m :
  exists l, log (fst (run w p m)) = log m ++ l.
Proof.
  revert m. induction p as [a | e | u k IH | b k IH | n k IH | k IH | msg k IH
                            | c ms k IH | op k IH | input k IH | sp k IH | tx k IH
                            | a k IH | t k IH | ms k IH]; intros m0; cbn [run].
  - exists []. now rewrite app_nil_r.
  - exists []. now rewrite app_nil_r.
  - destruct (IH (apply_updater u m0)) as [l ->].
    rewrite log_apply_updater, <- app_assoc. eauto.
  - destruct (IH (record (ev_setIsInitialized b)
                    (with_ui (with_isInitialized b (ui m0)) m0))) as [l ->].
    cbn [log record with_ui]. rewrite <- app_assoc. eauto.
  - match goal with |- context [run w (k ?x) ?M] => destruct (IH x M) as [l ->] end.
    cbn [log record with_calls]. rewrite <- app_assoc. eauto.
  - match goal with |- context [run w (k ?x) ?M] => destruct (IH x M) as [l ->] end.
    cbn [log record with_calls]. rewrite <- app_assoc. eauto.
  - match goal with |- context [run w (k ?x) ?M] => destruct (IH x M) as [l ->] end.
    cbn [log record with_calls]. rewrite <- app_assoc. eauto.
  - destruct (IH (add_timer c ms m0)) as [l ->].
    rewrite log_add_timer, <- app_assoc. eauto.
  - destruct (IH (record (ev_audio op) m0)) as [l ->].
    cbn [log record]. rewrite <- app_assoc. eauto.
  - match goal with |- context [run w (k ?x) ?M] => destruct (IH x M) as [l ->] end.
    cbn [log record with_calls]. rewrite <- app_assoc. eauto.
  - match goal with |- context [run w (k ?x) ?M] => destruct (IH x M) as [l ->] end.
    cbn [log record with_calls]. rewrite <- app_assoc. eauto.
  - match goal with |- context [run w (k ?x) ?M] => destruct (IH x M) as [l ->] end.
    cbn [log record with_calls]. rewrite <- app_assoc. eauto.
  - match goal with |- context [run w (k ?x) ?M] => destruct (IH x M) as [l ->] end.
    cbn [log record with_calls]. rewrite <- app_assoc. eauto.
  - match goal with |- context [run w (k ?x) ?M] => destruct (IH x M) as [l ->] end.
    cbn [log record with_calls]. rewrite <- app_assoc. eauto.
  - destruct (IH (record (ev_sleep ms) m0)) as [l ->].
    cbn [log record]. rewrite <- app_assoc. eauto.
Qed.

(** X12. In the revision that signs inside [spinWheel], a wallet that
    settles the commit request without calling a callback leaves
    [commitSignature] null, and the commit transaction is submitted all
    the same, with a null signature. The current component, in the same
    situation, submits nothing. *)
Theorem inline_commit_goes_unsigned env w st m :
  spin_refused st = false ->
  wallet w (n_sign (calls m)) = noCallback ->
  (exists tx rest,
     submitted (since m (fst (run w (InlineSigning.spinWheel env st) m))) = tx :: rest /\
     signatures tx = [None] /\
     existsb (has_discriminant 1) (instructions (message tx)) = true) /\
  submitted (since m (fst (run w (spinWheel env st) m))) = [].
Proof.
  intros Hg Hw. split.
  - unfold InlineSigning.spinWheel. fold (spin_refused st). rewrite Hg.
    destruct (spin_accepted env st Hg) as [wa [pk [-> [-> _]]]].
    unfold InlineSigning.spin_body. cbn.
    rewrite !calls_apply_updater, Hw. cbn.
    match goal with
    | |- context [run w ?p (record (ev_sendTransaction ?tx ?r) ?M)] =>
        destruct (run_extends w p (record (ev_sendTransaction tx r) M)) as [l Hl];
        exists tx, (submitted l)
    end.
    split; [|split; [reflexivity|reflexivity]].
    erewrite since_app.
    2:{ rewrite Hl. cbn [log record with_calls]. rewrite log_apply_updater.
        rewrite <- !app_assoc. reflexivity. }
    rewrite !submitted_app. reflexivity.
  - destruct (spin_ends env w st m Hg) as [wa [pk [m' [_ [_ [-> Hend]]]]]].
    cbn [fst].
    assert (Hfail : step_fails w (n_sign (calls m)) (n_send (calls m))).
    { unfold step_fails. now rewrite Hw. }
    destruct (spin_end_log _ _ _ _ _ _ Hend)
      as [[e [_ [_ ->]]] | [[t [e [S1 _]]] | [t [t' [S1 _]]]]].
    + rewrite !submitted_app. unfold sent_events.
      change (n_sign (calls (committed_to w m))) with (n_sign (calls m)).
      rewrite Hw. reflexivity.
    + exfalso. exact (sent_fails w wa pk _ (committed_to w m) t Hfail S1).
    + exfalso. exact (sent_fails w wa pk _ (committed_to w m) t Hfail S1).
Qed.

(** ** The reader, on an account that holds a wheel *)

Lemma decode_struct3 k1 s1 k2 s2 k3 s3 buf :
  borsh.decode_value (borsh.s_struct [(k1, s1); (k2, s2); (k3, s3)]) buf =
  match borsh.decode_value s1 buf with
  | Normal (x1, rest1) =>
      match borsh.decode_value s2 rest1 with
      | Normal (x2, rest2) =>
          match borsh.decode_value s3 rest2 with
          | Normal (x3, rest3) =>
              Normal (borsh.v_object [(k1, x1); (k2, x2); (k3, x3)], rest3)
          | Thrown e => Thrown e
          end
      | Thrown e => Thrown e
      end
  | Thrown e => Thrown e
  end.
Proof.
  cbn. destruct (borsh.decode_value s1 buf) as [[x1 r1]|e]; [|reflexivity].
  destruct (borsh.decode_value s2 r1) as [[x2 r2]|e]; [|reflexivity].
  destruct (borsh.decode_value s3 r2) as [[x3 r3]|e]; reflexivity.
Qed.

(** The reader's layout decodes what is laid out by it. *)
Lemma decode_wheelAccountData flag prizes probabilities more :
  fits_u32 (length prizes) ->
  Forall (fun s => fits_u32 (String.length s)) prizes ->
  fits_u32 (length probabilities) ->
  borsh.deserialize wheelStateSchema (wheelAccountData flag prizes probabilities more) =
  Normal (borsh.v_object
            [ ("initialized", borsh.v_bool (0 <? flag));
              ("prizes", borsh.v_array (map borsh.v_string prizes));
              ("probabilities", borsh.v_array (map borsh.v_number probabilities)) ]).
Proof.
  intros Hp Hs Hq. unfold borsh.deserialize, wheelStateSchema, wheelAccountData.
  rewrite decode_struct3.
  change (borsh.decode_value borsh.s_bool (flag :: ?r))
    with (@Normal (borsh.Value * bytes) (borsh.v_bool (0 <? flag), r)).
  cbv iota beta.
  rewrite (decode_strings prizes _ Hp Hs).
  now rewrite (decode_u8s probabilities more Hq).
Qed.

(** The reader on an account laid out as it decodes. *)
Lemma reader_on_a_wheel env w st m flag prizes probabilities more :
  sdk st = true ->
  fits_u32 (length prizes) ->
  Forall (fun s => fits_u32 (String.length s)) prizes ->
  fits_u32 (length probabilities) ->
  read_result w (n_read (calls m)) =
    rpc_ok (Some {| info_data :=
                      Some (wheelAccountData flag prizes probabilities more) |}) ->
  run w (checkWheelState env st) m =
  (record (ev_setIsInitialized (0 <? flag))
     (with_ui (with_isInitialized (0 <? flag) (ui m))
        (record (ev_readAccountInfo
                   (PubkeyUtil_fromHex (VITE_WHEEL_STATE_ACCOUNT env)))
           (with_calls (bump_read (calls m)) m))),
   Normal (Some (wheelAccountData flag prizes probabilities more))).
Proof.
  intros Hsdk Hp Hs Hq Hread. unfold checkWheelState.
  rewrite Hsdk. cbn [negb]. rewrite run_try_catch. unfold check_body. cbn.
  rewrite Hread. cbn. rewrite run_bind, run_try_catch.
  unfold decode_initialized. rewrite run_bind, run_of_completion.
  rewrite (decode_wheelAccountData flag prizes probabilities more Hp Hs Hq).
  reflexivity.
Qed.



(** ** Hexadecimal text, there and back *)

Lemma toString_hex_cons x r :
  toString_hex (x :: r) =
  String (hex_digit (x / 16)) (String (hex_digit (x mod 16)) (toString_hex r)).
Proof. reflexivity. Qed.

Lemma fromHex_pair a b r :
  fromHex (String a (String b r)) =
  match hex_value a, hex_value b with
  | Some h, Some l => (16 * h + l) :: fromHex r
  | _, _ => []
  end.
Proof. reflexivity. Qed.

Lemma hex_value_digit d : 0 <= d < 16 -> hex_value (hex_digit d) = Some d.
Proof.
  intros H.
  assert (E : d = 0 \/ d = 1 \/ d = 2 \/ d = 3 \/ d = 4 \/ d = 5 \/ d = 6 \/ d = 7 \/
              d = 8 \/ d = 9 \/ d = 10 \/ d = 11 \/ d = 12 \/ d = 13 \/ d = 14 \/
              d = 15) by lia.
  repeat (destruct E as [->|E]; [reflexivity|]). subst d. reflexivity.
Qed.

(** Bytes written as hex text read back as the same bytes. *)
Lemma fromHex_toString_hex b : is_bytes b -> fromHex (toString_hex b) = b.
Proof.
  induction 1 as [|x r Hx _ IH]; [reflexivity|].
  rewrite toString_hex_cons, fromHex_pair.
  rewrite !hex_value_digit, IH.
  - f_equal. pose proof (Z.div_mod x 16). lia.
  - apply Z.mod_pos_bound. lia.
  - split; [apply Z.div_pos; lia|apply Z.div_lt_upper_bound; lia].
Qed.

Lemma is_bytes_skipn n b : is_bytes b -> is_bytes (skipn n b).
Proof.
  revert b. induction n as [|n IH]; intros b H; [exact H|].
  destruct H as [|x r _ Hr]; [constructor|]. cbn. now apply IH.
Qed.

Lemma is_bytes_firstn n b : is_bytes b -> is_bytes (firstn n b).
Proof.
  revert b. induction n as [|n IH]; intros b H; [constructor|].
  destruct H as [|x r Hx Hr]; [constructor|]. cbn. constructor; [exact Hx|].
  now apply IH.
Qed.

Lemma is_bytes_slice i j b : is_bytes b -> is_bytes (slice i j b).
Proof. intros H. now apply is_bytes_firstn, is_bytes_skipn. Qed.

(** ** The administrator *)

Lemma run_checkAdminStatus env w st m :
  run w (checkAdminStatus env st) m =
  if negb (sdk st) || negb (truthy (publicKey st)) then (m, Normal false)
  else
    match publicKey st with
    | Some pk =>
        (record (ev_readAccountInfo (PubkeyUtil_fromHex (VITE_WHEEL_STATE_ACCOUNT env)))
           (with_calls (bump_read (calls m)) m),
         Normal match read_result w (n_read (calls m)) with
                | rpc_ok (Some {| info_data := Some d |}) =>
                    String.eqb (toString_hex (slice 1 33 d)) pk
                | _ => false
                end)
    | None => (m, Normal false)
    end.
Proof.
  unfold checkAdminStatus.
  destruct (negb (sdk st) || negb (truthy (publicKey st))); [reflexivity|].
  destruct (publicKey st) as [pk|]; [|reflexivity].
  rewrite run_try_catch. unfold admin_body. cbn.
  destruct (read_result w (n_read (calls m))) as [[[[d|]]|]|e]; reflexivity.
Qed.


Lemma toString_hex_app a b :
  toString_hex (a ++ b) = (toString_hex a ++ toString_hex b)%string.
Proof.
  induction a as [|x a IH]; [reflexivity|].
  cbn [Datatypes.app]. rewrite !toString_hex_cons, IH. reflexivity.
Qed.

(** X24. The two readers of the wheel-state account do not agree on its
    layout. On data that [checkWheelState] decodes (the flag, then the
    prizes), the 32 bytes that [checkAdminStatus] takes for the authority
    are the beginning of the encoded prizes: it answers true only to a
    public key whose hex text begins with the number of prizes written on
    four bytes, low byte first. *)
Theorem admin_check_reads_the_prizes env w st m flag prizes probabilities more :
  read_result w (n_read (calls m)) =
    rpc_ok (Some {| info_data :=
                      Some (wheelAccountData flag prizes probabilities more) |}) ->
  snd (run w (checkAdminStatus env st) m) = Normal true ->
  exists pk rest,
    publicKey st = Some pk /\
    pk = (toString_hex (borsh.le32 (Z.of_nat (length prizes))) ++ rest)%string.
Proof.
  intros Hread. rewrite run_checkAdminStatus.
  destruct (negb (sdk st) || negb (truthy (publicKey st))); [discriminate|].
  destruct (publicKey st) as [pk|]; [|discriminate].
  cbn [snd]. rewrite Hread. intros H.
  apply (f_equal (fun c => match c with Normal b => b | Thrown _ => false end)) in H.
  cbv beta iota in H.
  apply String.eqb_eq in H. exists pk. eexists. split; [reflexivity|].
  rewrite <- H. unfold wheelAccountData, slice, borsh.le32.
  cbn [skipn Nat.sub firstn Datatypes.app].
  rewrite !toString_hex_cons. cbn [String.append]. reflexivity.
Qed.

(** ** The wallet connection *)


(** ** [initializeWheel] *)

Lemma run_rethrow {A} w (p : Prog A) m :
  run w (try_catch p (fun err => Throw err)) m = run w p m.
Proof. rewrite run_try_catch. now destruct (run w p m) as [m' [a|e]]. Qed.

Lemma initialize_accepted env st :
  initialize_refused st = false ->
  exists wa pk,
    walletAddress st = Some wa /\ publicKey st = Some pk /\
    initializeWheel env st =
      try_catch (initialize_body env st wa pk) (fun err => Throw err).
Proof.
  intros Hg. unfold initializeWheel. fold (initialize_refused st). rewrite Hg.
  unfold initialize_refused in Hg.
  apply orb_false_iff in Hg. destruct Hg as [Hg Hpk].
  apply orb_false_iff in Hg. destruct Hg as [_ Hwa].
  destruct (walletAddress st) as [wa|]; [|discriminate].
  destruct (publicKey st) as [pk|]; [|discriminate].
  now exists wa, pk.
Qed.

(** The page after the read that opens [initializeWheel]. *)
Lemma run_initialize_body env w st wa pk m :
  exists d,
    initializeData (map prize_option wheelData) [34; 33; 33] = Normal d /\
    run w (initialize_body env st wa pk) m =
    let m1 := record (ev_readAccountInfo
                        (PubkeyUtil_fromHex (VITE_WHEEL_STATE_ACCOUNT env)))
                (with_calls (bump_read (calls m)) m) in
    match read_result w (n_read (calls m)) with
    | rpc_error e => (m1, Thrown e)
    | rpc_ok _ =>
        match sent w wa pk (initInstruction env pk d) m1 with
        | (m2, Thrown e) => (m2, Thrown e)
        | (m2, Normal txId) =>
            let m3 := record (ev_getProcessedTransaction txId)
                        (with_calls (bump_processed (calls m2))
                           (record (ev_sleep 2000) m2)) in
            match processed_result w (n_processed (calls m2)) with
            | rpc_error e => (m3, Thrown e)
            | rpc_ok _ =>
                (fst (run w (checkWheelState env st) m3),
                 match snd (run w (checkWheelState env st) m3) with
                 | Normal _ => Normal tt
                 | Thrown e => Thrown e
                 end)
            end
        end
    end.
Proof.
  eexists. split; [apply initializeData_eq|].
  unfold initialize_body. cbn.
  destruct (read_result w (n_read (calls m))) as [a|e]; [|reflexivity].
  cbn. rewrite run_bind, run_of_completion, initializeData_eq.
  rewrite run_bind, run_sendTransaction.
  destruct (sent w wa pk _ _) as [m2 [t|e]]; [|reflexivity].
  cbn. destruct (processed_result w (n_processed (calls m2))) as [s|e]; [|reflexivity].
  cbn. rewrite run_bind.
  destruct (run w (checkWheelState env st) _) as [m5 [v|e]]; reflexivity.
Qed.

(** What the reader adds to the record: reads and settings of the flag. *)
Lemma checkWheelState_quiet env w st m :
  exists l,
    log (fst (run w (checkWheelState env st) m)) = log m ++ l /\
    submitted l = [] /\ requests l = [] /\
    wheelState (ui (fst (run w (checkWheelState env st) m))) = wheelState (ui m) /\
    is_thrown (snd (run w (checkWheelState env st) m)) = false /\
    (sdk st = true ->
     n_read (calls (fst (run w (checkWheelState env st) m))) = S (n_read (calls m)) /\
     (Unreadable wheelStateSchema (read_result w (n_read (calls m))) ->
      isInitialized (ui (fst (run w (checkWheelState env st) m))) = false)).
Proof.
  unfold checkWheelState.
  destruct (sdk st); cbn [negb].
  2:{ exists []. cbn. rewrite app_nil_r. repeat split; discriminate. }
  rewrite run_try_catch. unfold check_body. cbn.
  destruct (read_result w (n_read (calls m))) as [[[[d|]]|]|e] eqn:Er; cbn.
  - rewrite run_bind.
    destruct (run_decode_guarded w d
                (record (ev_readAccountInfo
                           (PubkeyUtil_fromHex (VITE_WHEEL_STATE_ACCOUNT env)))
                   (with_calls (bump_read (calls m)) m))) as [b [-> Hb]].
    cbn. eexists. split; [rewrite <- app_assoc; reflexivity|].
    repeat split. intros Hu. inversion Hu; subst.
    + apply Hb. reflexivity.
    + now apply Hb.
  - eexists. split; [rewrite <- app_assoc; reflexivity|]. repeat split.
  - eexists. split; [rewrite <- app_assoc; reflexivity|]. repeat split.
  - eexists. split; [rewrite <- app_assoc; reflexivity|]. repeat split.
Qed.

(** X16. [initializeWheel] submits at most one transaction. It holds the
    one InitializeWheel instruction: the program id, the wheel-state
    account first (writable, not a signer) and the authority second
    (signer, writable), and as data the encoding of the prizes of the
    wheel with the probabilities 34, 33, 33; the signer of the message is
    the connected public key. *)
Theorem initialize_submits_one_instruction env w st m tx :
  In tx (submitted (since m (fst (run w (initializeWheel env st) m)))) ->
  exists pk d sg,
    publicKey st = Some pk /\
    initializeData (map prize_option wheelData) [34; 33; 33] = Normal d /\
    tx = {| version := 0;
            signatures := [Some sg];
            message :=
              {| signers := [PubkeyUtil_fromHex pk];
                 instructions :=
                   [ {| program_id := PubkeyUtil_fromHex (VITE_PROGRAM_ID env);
                        accounts :=
                          [ {| pubkey := PubkeyUtil_fromHex (VITE_WHEEL_STATE_ACCOUNT env);
                               is_signer := false; is_writable := true |};
                            {| pubkey := PubkeyUtil_fromHex pk;
                               is_signer := true; is_writable := true |} ];
                        data := d |} ] |} |} /\
    submitted (since m (fst (run w (initializeWheel env st) m))) = [tx].
Proof.
  destruct (initialize_refused st) eqn:Hg.
  { unfold initializeWheel. fold (initialize_refused st). rewrite Hg. cbn.
    unfold since. rewrite skipn_all. intros []. }
  destruct (initialize_accepted env st Hg) as [wa [pk [_ [Hpk ->]]]].
  rewrite run_rethrow.
  destruct (run_initialize_body env w st wa pk m) as [d [Hd ->]]. cbv zeta.
  set (m1 := record (ev_readAccountInfo
                       (PubkeyUtil_fromHex (VITE_WHEEL_STATE_ACCOUNT env)))
               (with_calls (bump_read (calls m)) m)).
  assert (Hm1 : log m1 = log m ++ [ev_readAccountInfo
                  (PubkeyUtil_fromHex (VITE_WHEEL_STATE_ACCOUNT env))]) by reflexivity.
  assert (Hone : forall l,
            submitted ([ev_readAccountInfo
                          (PubkeyUtil_fromHex (VITE_WHEEL_STATE_ACCOUNT env))]
                       ++ sent_events w wa pk (initInstruction env pk d) m1 ++ l)
            = submitted (sent_events w wa pk (initInstruction env pk d) m1)
              ++ submitted l).
  { intros l. now rewrite !submitted_app. }
  assert (Htx : forall tx0,
            In tx0 (submitted (sent_events w wa pk (initInstruction env pk d) m1)) ->
            exists sg,
              tx0 = {| version := 0; signatures := [Some sg];
                       message := message_of pk (initInstruction env pk d) |} /\
              submitted (sent_events w wa pk (initInstruction env pk d) m1) = [tx0]).
  { intros tx0. unfold sent_events. destruct (usable_signature _) as [sg|e]; cbn.
    - intros [<-|[]]. now exists sg.
    - tauto. }
  assert (Hgoal : forall L l,
            L = [ev_readAccountInfo
                   (PubkeyUtil_fromHex (VITE_WHEEL_STATE_ACCOUNT env))]
                ++ sent_events w wa pk (initInstruction env pk d) m1 ++ l ->
            submitted l = [] ->
            In tx (submitted L) ->
            exists pk0 d0 sg,
              Some pk = Some pk0 /\
              initializeData (map prize_option wheelData) [34; 33; 33] = Normal d0 /\
              tx = {| version := 0;
                      signatures := [Some sg];
                      message :=
                        {| signers := [PubkeyUtil_fromHex pk0];
                           instructions :=
                             [ {| program_id := PubkeyUtil_fromHex (VITE_PROGRAM_ID env);
                                  accounts :=
                                    [ {| pubkey := PubkeyUtil_fromHex
                                                     (VITE_WHEEL_STATE_ACCOUNT env);
                                         is_signer := false; is_writable := true |};
                                      {| pubkey := PubkeyUtil_fromHex pk0;
                                         is_signer := true; is_writable := true |} ];
                                  data := d0 |} ] |} |} /\
              submitted L = [tx]).
  { intros L l -> Hl. rewrite Hone, Hl, app_nil_r. intros Hin.
    destruct (Htx tx Hin) as [sg [-> E]]. exists pk, d, sg. now rewrite E. }
  rewrite Hpk.
  destruct (read_result w (n_read (calls m))) as [a|e].
  2:{ cbn [fst]. erewrite since_app by exact Hm1. intros [ ]. }
  destruct (sent w wa pk (initInstruction env pk d) m1) as [m2 [t|e]] eqn:E1.
  2:{ cbn [fst]. apply fst_of in E1. subst m2.
      erewrite since_app.
      2:{ rewrite log_sent, Hm1, <- app_assoc. reflexivity. }
      apply (Hgoal _ []); [now rewrite app_nil_r|reflexivity]. }
  apply fst_of in E1. subst m2.
  destruct (processed_result w _) as [s|e].
  2:{ cbn [fst]. erewrite since_app.
      2:{ cbn [log record with_calls]. rewrite log_sent, Hm1, <- !app_assoc.
          reflexivity. }
      now apply (Hgoal _ [ev_sleep 2000; ev_getProcessedTransaction t]). }
  cbn [fst].
  match goal with
  | |- context [run w (checkWheelState env st) ?m3] =>
      destruct (checkWheelState_quiet env w st m3) as [l [Hl [Hs _]]]
  end.
  erewrite since_app.
  2:{ rewrite Hl. cbn [log record with_calls]. rewrite log_sent, Hm1, <- !app_assoc.
      reflexivity. }
  apply (Hgoal _ ([ev_sleep 2000] ++ [ev_getProcessedTransaction t] ++ l));
    [reflexivity|].
  rewrite !submitted_app, Hs. reflexivity.
Qed.

(** X17. Unlike [spinWheel], [initializeWheel] hands its failures to its
    caller: a failed first read is thrown again as it is, before the
    wallet is asked; a failed signature or a rejected submission is
    thrown before any status is asked for; a failed status request is
    thrown as it is. Whenever it throws, the state of the page is
    untouched: the reader did not run. *)
Theorem initialize_failures_reach_the_caller env w st m :
  initialize_refused st = false ->
  let r := run w (initializeWheel env st) m in
  (forall e, read_result w (n_read (calls m)) = rpc_error e ->
     snd r = Thrown e /\
     since m (fst r) =
       [ev_readAccountInfo (PubkeyUtil_fromHex (VITE_WHEEL_STATE_ACCOUNT env))]) /\
  (forall a, read_result w (n_read (calls m)) = rpc_ok a ->
     step_fails w (n_sign (calls m)) (n_send (calls m)) ->
     is_thrown (snd r) = true /\
     n_processed (calls (fst r)) = n_processed (calls m) /\
     n_read (calls (fst r)) = S (n_read (calls m))) /\
  (forall a e, read_result w (n_read (calls m)) = rpc_ok a ->
     step_succeeds w (n_sign (calls m)) (n_send (calls m)) ->
     processed_result w (n_processed (calls m)) = rpc_error e ->
     snd r = Thrown e /\ n_read (calls (fst r)) = S (n_read (calls m))) /\
  (is_thrown (snd r) = true -> ui (fst r) = ui m).
Proof.
  intros Hg. cbv zeta.
  destruct (initialize_accepted env st Hg) as [wa [pk [_ [_ ->]]]].
  rewrite run_rethrow.
  destruct (run_initialize_body env w st wa pk m) as [d [_ ->]]. cbv zeta.
  set (m1 := record (ev_readAccountInfo
                       (PubkeyUtil_fromHex (VITE_WHEEL_STATE_ACCOUNT env)))
               (with_calls (bump_read (calls m)) m)).
  split; [|split; [|split]].
  - intros e ->. split; [reflexivity|]. cbn [fst]. now apply since_app.
  - intros a -> Hfail.
    destruct (sent w wa pk (initInstruction env pk d) m1) as [m2 [t|e]] eqn:E1.
    + exfalso. refine (sent_fails w wa pk (initInstruction env pk d) m1 t Hfail _).
      now rewrite E1.
    + apply fst_of in E1. subst m2. split; [reflexivity|]. cbn [fst].
      now rewrite (proj1 (reads_sent _ _ _ _ _)), (proj2 (reads_sent _ _ _ _ _)).
  - intros a e -> Hok Hp.
    destruct (sent_succeeds w wa pk (initInstruction env pk d) m1 Hok)
      as [m2 [t [E1 _]]].
    rewrite E1. apply fst_of in E1. subst m2.
    rewrite (proj2 (reads_sent _ _ _ _ _)). cbn [calls m1 record with_calls
      bump_read n_processed]. rewrite Hp. split; [reflexivity|].
    cbn [fst calls record with_calls bump_processed n_read].
    now rewrite (proj1 (reads_sent _ _ _ _ _)).
  - destruct (read_result w (n_read (calls m))) as [a|e]; [|reflexivity].
    destruct (sent w wa pk (initInstruction env pk d) m1) as [m2 [t|e]] eqn:E1.
    + destruct (processed_result w (n_processed (calls m2))) as [s|e].
      * cbn [fst snd].
        match goal with
        | |- context [run w (checkWheelState env st) ?m3] =>
            destruct (checkWheelState_quiet env w st m3) as [l [_ [_ [_ [_ [Hn _]]]]]]
        end.
        destruct (snd (run w (checkWheelState env st) _)); discriminate.
      * intros _. cbn [fst ui record with_calls].
        apply fst_of in E1. subst m2. now rewrite ui_sent.
    + intros _. cbn [fst]. apply fst_of in E1. subst m2. now rewrite ui_sent.
Qed.

(** X18. When the read, the signature and the submission succeed and the
    status request is answered, [initializeWheel] returns normally
    whatever the status says (processed, processing, failed, or none): it
    only goes on to the reader, which reads the wheel-state account a
    second time and sets [isInitialized] from it; when that account is
    still unreadable the page stays uninitialized. The wheel itself is
    not touched. *)
Theorem initialize_ends_with_the_reader env w st m a status :
  initialize_refused st = false ->
  read_result w (n_read (calls m)) = rpc_ok a ->
  step_succeeds w (n_sign (calls m)) (n_send (calls m)) ->
  processed_result w (n_processed (calls m)) = rpc_ok status ->
  let r := run w (initializeWheel env st) m in
  snd r = Normal tt /\
  (exists m3,
     fst r = fst (run w (checkWheelState env st) m3) /\
     ui m3 = ui m /\
     n_read (calls m3) = S (n_read (calls m))) /\
  n_read (calls (fst r)) = S (S (n_read (calls m))) /\
  wheelState (ui (fst r)) = wheelState (ui m) /\
  (Unreadable wheelStateSchema (read_result w (S (n_read (calls m)))) ->
   isInitialized (ui (fst r)) = false).
Proof.
  intros Hg Hread Hok Hp. cbv zeta.
  assert (Hsdk : sdk st = true).
  { unfold initialize_refused in Hg. apply orb_false_iff in Hg.
    destruct Hg as [Hg _]. apply orb_false_iff in Hg. destruct Hg as [Hg _].
    now destruct (sdk st). }
  destruct (initialize_accepted env st Hg) as [wa [pk [_ [_ ->]]]].
  rewrite run_rethrow.
  destruct (run_initialize_body env w st wa pk m) as [d [_ ->]]. cbv zeta.
  rewrite Hread.
  set (m1 := record (ev_readAccountInfo
                       (PubkeyUtil_fromHex (VITE_WHEEL_STATE_ACCOUNT env)))
               (with_calls (bump_read (calls m)) m)).
  destruct (sent_succeeds w wa pk (initInstruction env pk d) m1 Hok)
    as [m2 [t [E1 _]]].
  rewrite E1. apply fst_of in E1.
  assert (Hr2 : n_read (calls m2) = S (n_read (calls m))).
  { subst m2. now rewrite (proj1 (reads_sent _ _ _ _ _)). }
  assert (Hp2 : n_processed (calls m2) = n_processed (calls m)).
  { subst m2. now rewrite (proj2 (reads_sent _ _ _ _ _)). }
  assert (Hu2 : ui m2 = ui m).
  { subst m2. now rewrite ui_sent. }
  clear E1. rewrite Hp2, Hp. cbn [fst snd].
  set (m3 := record (ev_getProcessedTransaction t)
               (with_calls (bump_processed (calls m2)) (record (ev_sleep 2000) m2))).
  assert (Hu3 : ui m3 = ui m) by exact Hu2.
  assert (Hr3 : n_read (calls m3) = S (n_read (calls m))) by exact Hr2.
  clearbody m3.
  destruct (checkWheelState_quiet env w st m3)
    as [l [_ [_ [_ [Hws [Hnt Hrd]]]]]].
  destruct (Hrd Hsdk) as [Hn Hun].
  split.
  { destruct (snd (run w (checkWheelState env st) m3)); [reflexivity|discriminate]. }
  split; [exists m3; auto|].
  split; [now rewrite Hn, Hr3|].
  split; [now rewrite Hws, Hu3|].
  rewrite Hr3 in Hun. exact Hun.
Qed.

(** ** The earlier revisions, call by call *)

Lemma run_setWheelState w u m :
  run w (setWheelState u) m = (apply_updater u m, Normal tt).
Proof. reflexivity. Qed.

Lemma run_getRandomValues w n m :
  run w (getRandomValues n) m =
  (record (ev_getRandomValues (fill_random w (n_entropy (calls m)) n))
     (with_calls (bump_entropy n (calls m)) m),
   Normal (fill_random w (n_entropy (calls m)) n)).
Proof. reflexivity. Qed.

Lemma run_subtle_digest w input m :
  run w (subtle_digest input) m =
  (record (ev_digest input) m, Normal (subtle_digest_SHA256 input)).
Proof. reflexivity. Qed.

Lemma run_hash w msg m :
  run w (MessageUtil_hash msg) m = (record (ev_hash msg) m, Normal (message_hash w msg)).
Proof. reflexivity. Qed.

Lemma run_signMessage w p m :
  run w (signMessage p) m =
  (record (ev_signMessage p (wallet w (n_sign (calls m))))
     (with_calls (bump_sign (calls m)) m),
   Normal (wallet w (n_sign (calls m)))).
Proof. reflexivity. Qed.

Lemma run_sdk_sendTransaction w tx m :
  run w (sdk_sendTransaction tx) m =
  (record (ev_sendTransaction tx (send_result w (n_send (calls m))))
     (with_calls (bump_send (calls m)) m),
   match send_result w (n_send (calls m)) with
   | rpc_ok txid => Normal txid
   | rpc_error e => Thrown e
   end).
Proof.
  unfold sdk_sendTransaction. cbn [run].
  now destruct (send_result w (n_send (calls m))).
Qed.

Lemma run_sleep w ms m : run w (sleep ms) m = (record (ev_sleep ms) m, Normal tt).
Proof. reflexivity. Qed.

Lemma run_Math_random w m :
  run w Math_random m =
  (record (ev_random (random w (n_random (calls m))))
     (with_calls (bump_random (calls m)) m),
   Normal (random w (n_random (calls m)))).
Proof. reflexivity. Qed.

Lemma run_setTimeout w c ms m :
  run w (setTimeout c ms) m = (add_timer c ms m, Normal tt).
Proof. reflexivity. Qed.

Lemma run_Ret {A} w (a : A) m : run w (Ret a) m = (m, Normal a).
Proof. reflexivity. Qed.

Lemma run_Throw {A} w e m : run w (@Throw A e) m = (m, Thrown e).
Proof. reflexivity. Qed.

Arguments setWheelState : simpl never.
Arguments getRandomValues : simpl never.
Arguments subtle_digest : simpl never.
Arguments MessageUtil_hash : simpl never.
Arguments signMessage : simpl never.
Arguments sdk_sendTransaction : simpl never.
Arguments sleep : simpl never.
Arguments Math_random : simpl never.
Arguments setTimeout : simpl never.

(** One call of a handler, then the rest of it. *)
Ltac run_call :=
  first [ rewrite run_setWheelState | rewrite run_getRandomValues
        | rewrite run_subtle_digest | rewrite run_hash | rewrite run_signMessage
        | rewrite run_sdk_sendTransaction | rewrite run_sleep
        | rewrite run_Math_random | rewrite run_setTimeout
        | rewrite run_Ret | rewrite run_Throw ];
  cbv beta iota.

Ltac run_step := first [ run_call | rewrite run_bind | rewrite run_try_catch ].

Ltac settle_counters :=
  cbn [calls record with_calls bump_entropy bump_sign bump_send bump_random
       n_sign n_send n_entropy n_random];
  rewrite ?calls_apply_updater.

Ltac run_on :=
  repeat first
    [ run_step
    | progress cbn [FixedText.signature_of InlineSigning.commitSignature_of
                    InlineSigning.revealSignature_of SingleSpin.final_signature_of]
    | progress unfold FixedText.spin_failed
    | progress unfold InlineSigning.spin_failed
    | progress unfold SingleSpin.spin_failed
    | progress settle_counters ].

Ltac trace_log :=
  repeat first [ rewrite log_add_timer | rewrite log_apply_updater
               | progress cbn [log record with_calls with_ui fst] ];
  rewrite <- ?app_assoc; reflexivity.

Lemma concat_commit c :
  is_bytes c -> Buffer_concat [Uint8Array_from [1]; Uint8Array_from c] = 1 :: c.
Proof. exact (commitData_eq c). Qed.

Lemma concat_reveal s : Buffer_concat [Uint8Array_from [2]; s] = 2 :: s.
Proof. exact (revealData_eq s). Qed.

Lemma subtle_digest_bytes input : is_bytes (subtle_digest_SHA256 input).
Proof. apply digest_bytes. Qed.

(** The end of a run: the events it added, and what they hold. *)
Ltac spin_leaf witnesses :=
  lazymatch goal with |- context [@run] => fail | _ => idtac end;
  cbn [fst snd];
  eexists; split; [trace_log|];
  split; [reflexivity|]; split; [reflexivity|];
  witnesses;
  cbn [requests submitted flat_map Datatypes.app map sp_message message instructions
       data FixedText.commitInstruction FixedText.revealInstruction
       InlineSigning.commitInstruction InlineSigning.revealInstruction
       SingleSpin.instruction firstn];
  rewrite ?concat_commit by apply subtle_digest_bytes; rewrite ?concat_reveal;
  repeat split; try lia.

(** X19. The revision that signs fixed texts (the component that comes
    with [transactionHelpers.ts]) never hashes a message: the wallet is
    asked to sign the text "Commit to wheel spin" and then the text
    "Reveal wheel spin", whatever the transactions hold. Its spin never
    throws, and what it submits is, in this order, a commit that carries
    the digest of the secret drawn and a reveal that carries that
    secret, or a first part of this. *)
Theorem fixed_text_spin env w st m :
  spin_refused st = false ->
  let r := run w (FixedText.spinWheel env st) m in
  let secret := fill_random w (n_entropy (calls m)) 32 in
  snd r = Normal tt /\
  hashed (since m (fst r)) = [] /\
  exists j k,
    (k <= j <= 2)%nat /\
    map sp_message (requests (since m (fst r))) =
      firstn j ["Commit to wheel spin"; "Reveal wheel spin"] /\
    map (fun tx => map data (instructions (message tx))) (submitted (since m (fst r))) =
      firstn k [[1 :: subtle_digest_SHA256 secret]; [2 :: secret]].
Proof.
  intros Hg. cbv zeta.
  assert (H : exists l,
            log (fst (run w (FixedText.spinWheel env st) m)) = log m ++ l /\
            snd (run w (FixedText.spinWheel env st) m) = Normal tt /\
            hashed l = [] /\
            exists j k,
              (k <= j <= 2)%nat /\
              map sp_message (requests l) =
                firstn j ["Commit to wheel spin"; "Reveal wheel spin"] /\
              map (fun tx => map data (instructions (message tx))) (submitted l) =
                firstn k [[1 :: subtle_digest_SHA256
                                  (fill_random w (n_entropy (calls m)) 32)];
                          [2 :: fill_random w (n_entropy (calls m)) 32]]).
  { unfold FixedText.spinWheel. fold (spin_refused st). rewrite Hg.
    destruct (spin_accepted env st Hg) as [wa [pk [-> [-> _]]]].
    unfold FixedText.spin_body. run_on.
    destruct (wallet w (n_sign (calls m))) as [[[|c r]|]| |] eqn:Hw1; run_on;
      try (spin_leaf ltac:(exists 1%nat, 0%nat)).
    destruct (send_result w (n_send (calls m))) as [t1|e1]; run_on;
      try (spin_leaf ltac:(exists 1%nat, 1%nat)).
    destruct (wallet w (S (n_sign (calls m)))) as [[[|c2 r2]|]| |] eqn:Hw2; run_on;
      try (spin_leaf ltac:(exists 2%nat, 1%nat)).
    destruct (send_result w (S (n_send (calls m)))) as [t2|e2]; run_on;
      spin_leaf ltac:(exists 2%nat, 2%nat). }
  destruct H as [l [Hl [Hs [Hh Hjk]]]].
  rewrite (since_app _ _ _ Hl). auto.
Qed.

(** X21. The revision that signs inside [spinWheel] hashes one message
    only, the one that holds the commit: the wallet is asked to sign the
    hex text of that hash, and then the fixed text "Reveal wheel spin",
    so the signature of the reveal does not cover the reveal transaction.
    Its spin never throws, and what it submits is a commit that carries
    the digest of the secret drawn and then a reveal that carries that
    secret, or a first part of this. *)
Theorem inline_spin env w st m :
  spin_refused st = false ->
  let r := run w (InlineSigning.spinWheel env st) m in
  let secret := fill_random w (n_entropy (calls m)) 32 in
  exists pk,
    publicKey st = Some pk /\
    let msg := {| signers := [PubkeyUtil_fromHex pk];
                  instructions :=
                    [InlineSigning.commitInstruction env pk
                       (subtle_digest_SHA256 secret)] |} in
    snd r = Normal tt /\
    hashed (since m (fst r)) = [msg] /\
    exists j k,
      (k <= j <= 2 /\ 1 <= j)%nat /\
      map sp_message (requests (since m (fst r))) =
        firstn j [toString_hex (message_hash w msg); "Reveal wheel spin"] /\
      map (fun tx => map data (instructions (message tx))) (submitted (since m (fst r))) =
        firstn k [[1 :: subtle_digest_SHA256 secret]; [2 :: secret]].
Proof.
  intros Hg. cbv zeta.
  destruct (spin_accepted env st Hg) as [wa [pk [Hwa [Hpk _]]]].
  exists pk. split; [exact Hpk|].
  assert (H : exists l,
            log (fst (run w (InlineSigning.spinWheel env st) m)) = log m ++ l /\
            snd (run w (InlineSigning.spinWheel env st) m) = Normal tt /\
            hashed l =
              [ {| signers := [PubkeyUtil_fromHex pk];
                   instructions :=
                     [InlineSigning.commitInstruction env pk
                        (subtle_digest_SHA256
                           (fill_random w (n_entropy (calls m)) 32))] |} ] /\
            exists j k,
              (k <= j <= 2 /\ 1 <= j)%nat /\
              map sp_message (requests l) =
                firstn j
                  [toString_hex
                     (message_hash w
                        {| signers := [PubkeyUtil_fromHex pk];
                           instructions :=
                             [InlineSigning.commitInstruction env pk
                                (subtle_digest_SHA256
                                   (fill_random w (n_entropy (calls m)) 32))] |});
                   "Reveal wheel spin"] /\
              map (fun tx => map data (instructions (message tx))) (submitted l) =
                firstn k [[1 :: subtle_digest_SHA256
                                  (fill_random w (n_entropy (calls m)) 32)];
                          [2 :: fill_random w (n_entropy (calls m)) 32]]).
  { unfold InlineSigning.spinWheel. fold (spin_refused st). rewrite Hg, Hwa, Hpk.
    unfold InlineSigning.spin_body. run_on.
    destruct (wallet w (n_sign (calls m))) as [[[|c r]|]| |] eqn:Hw1; run_on;
      try (spin_leaf ltac:(exists 1%nat, 0%nat));
      (destruct (send_result w (n_send (calls m))) as [t1|e1]; run_on;
       try (spin_leaf ltac:(exists 1%nat, 1%nat));
       destruct (wallet w (S (n_sign (calls m)))) as [[[|c2 r2]|]| |] eqn:Hw2; run_on;
       try (spin_leaf ltac:(exists 2%nat, 1%nat));
       destruct (send_result w (S (n_send (calls m)))) as [t2|e2]; run_on;
       spin_leaf ltac:(exists 2%nat, 2%nat)). }
  destruct H as [l [Hl [Hs [Hh Hjk]]]].
  rewrite (since_app _ _ _ Hl). auto.
Qed.

(** X22. The first revision asks the wallet once, for a signature of the
    text "Spin the wheel!", hashes nothing, and submits at most one
    transaction, whose one instruction has the single byte 1 as data; its
    spin never throws. *)
Theorem single_spin env w st m :
  spin_refused st = false ->
  let r := run w (SingleSpin.spinWheel env st) m in
  snd r = Normal tt /\
  hashed (since m (fst r)) = [] /\
  exists k,
    (k <= 1)%nat /\
    map sp_message (requests (since m (fst r))) = ["Spin the wheel!"] /\
    map (fun tx => map data (instructions (message tx))) (submitted (since m (fst r))) =
      firstn k [[[1]]].
Proof.
  intros Hg. cbv zeta.
  assert (H : exists l,
            log (fst (run w (SingleSpin.spinWheel env st) m)) = log m ++ l /\
            snd (run w (SingleSpin.spinWheel env st) m) = Normal tt /\
            hashed l = [] /\
            exists k,
              (k <= 1)%nat /\
              map sp_message (requests l) = ["Spin the wheel!"] /\
              map (fun tx => map data (instructions (message tx))) (submitted l) =
                firstn k [[[1]]]).
  { unfold SingleSpin.spinWheel. fold (spin_refused st). rewrite Hg.
    destruct (spin_accepted env st Hg) as [wa [pk [-> [-> _]]]].
    unfold SingleSpin.spin_body. run_on.
    destruct (wallet w (n_sign (calls m))) as [[[|c r]|]| |] eqn:Hw1; run_on;
      try (spin_leaf ltac:(exists 0%nat)).
    destruct (send_result w (n_send (calls m))) as [t1|e1]; run_on;
      spin_leaf ltac:(exists 1%nat). }
  destruct H as [l [Hl [Hs [Hh Hk]]]].
  rewrite (since_app _ _ _ Hl). auto.
Qed.

(** ** Before the wallet and the SDK are there *)

Lemma unconnected_refuses st :
  walletAddress st = None \/ sdk st = false -> spin_refused st = true.
Proof.
  unfold spin_refused. intros [H|H]; rewrite H; cbn.
  - now rewrite orb_true_r.
  - reflexivity.
Qed.

(** A step that gives the page nothing it lacks leaves it silent. *)
Lemma silent_step env w s i :
  (walletAddress (ui (page s)) = None /\ connects i = false) \/
  (sdk (ui (page s)) = false /\ readies i = false) ->
  tasks s = [] -> timers (page s) = [] ->
  let s' := step env w s i in
  (walletAddress (ui (page s)) = None -> connects i = false ->
   walletAddress (ui (page s')) = None) /\
  (sdk (ui (page s)) = false -> readies i = false -> sdk (ui (page s')) = false) /\
  tasks s' = [] /\ timers (page s') = [] /\
  log (page s') = log (page s) /\
  wheelState (ui (page s')) = wheelState (ui (page s)).
Proof.
  intros H Ht Hm. cbv zeta.
  destruct i as [ | k | k | | a pk ]; cbn [step].
  - rewrite click_refused; [now repeat split|].
    apply unconnected_refuses. tauto.
  - rewrite Ht. destruct k; cbn; now repeat split.
  - rewrite Hm. destruct k; cbn; now repeat split.
  - cbn. repeat split; auto; discriminate.
  - cbn. repeat split; auto; discriminate.
Qed.


(** ** The further properties at sample configurations *)

(** A spin whose commit signature the user cancels leaves the sample
    state as it was. *)
Lemma failed_spin_restores_the_page_witness :
  spin_refused (ui (start sample_state)) = false /\
  spin_fails cancelling_world (start sample_state) /\
  let r := run cancelling_world (spinWheel sample_env sample_state)
             (start sample_state) in
  snd r = Normal tt /\ ui (fst r) = sample_state.
Proof.
  assert (H1 : spin_refused (ui (start sample_state)) = false) by reflexivity.
  assert (H2 : spin_fails cancelling_world (start sample_state)) by (left; exact I).
  split; [exact H1|]. split; [exact H2|].
  pose proof (failed_spin_restores_the_page sample_env cancelling_world
                (start sample_state) H1 H2) as H.
  cbv zeta in H. destruct H as [Ha [Hb _]]. split; [exact Ha|exact Hb].
Defined.

(** The user signs the commit and cancels the reveal. *)
Lemma reveal_failure_leaves_the_commit_witness :
  spin_refused sample_state = false /\
  step_succeeds second_thoughts_world 0 0 /\
  step_fails second_thoughts_world 1 1 /\
  exists commitTx,
    submitted (since (start sample_state)
                 (fst (run second_thoughts_world (spinWheel sample_env sample_state)
                         (start sample_state)))) = [commitTx] /\
    isSpinning (wheelState (ui (fst (run second_thoughts_world
                                       (spinWheel sample_env sample_state)
                                       (start sample_state))))) = false.
Proof.
  assert (H1 : spin_refused sample_state = false) by reflexivity.
  assert (H2 : step_succeeds second_thoughts_world 0 0)
    by (split; eexists; reflexivity).
  assert (H3 : step_fails second_thoughts_world 1 1) by exact I.
  split; [exact H1|]. split; [exact H2|]. split; [exact H3|].
  pose proof (reveal_failure_leaves_the_commit sample_env second_thoughts_world
                sample_state (start sample_state) H1 H2 H3) as H.
  cbv zeta in H.
  destruct H as [pk [commitTx [rest [_ [_ [Hs [_ [_ [Hsub [_ [_ Hrest]]]]]]]]]]].
  exists commitTx. split; [|exact Hs].
  destruct Hrest as [->|[revealTx [e [_ [_ He]]]]]; [exact Hsub|discriminate He].
Defined.

(** The record of a spin in the fair world: the reveal is hashed at the
    eleventh event, after the accepted commit and the wait. *)
Lemma reveal_follows_an_accepted_commit_witness :
  let L := since (start sample_state)
             (fst (run fair_world (spinWheel sample_env sample_state)
                     (start sample_state))) in
  let msg := message_of sample_publicKey
               (revealInstruction sample_env sample_publicKey
                  (fill_random fair_world 0 32)) in
  L = firstn 10 L ++ ev_hash msg :: skipn 11 L /\
  existsb (has_discriminant 2) (instructions msg) = true /\
  exists l0 tx txid,
    firstn 10 L = l0 ++ [ev_sendTransaction tx (rpc_ok txid); ev_sleep 2000].
Proof.
  intros L msg.
  assert (H1 : L = firstn 10 L ++ ev_hash msg :: skipn 11 L)
    by (vm_compute; reflexivity).
  assert (H2 : existsb (has_discriminant 2) (instructions msg) = true)
    by reflexivity.
  split; [exact H1|]. split; [exact H2|].
  destruct (reveal_follows_an_accepted_commit sample_env fair_world sample_state
              (start sample_state) (firstn 10 L) msg (skipn 11 L) H1 H2)
    as [l0 [tx [txid [E _]]]].
  now exists l0, tx, txid.
Defined.

(** Two environments with the same random Number and nothing else in
    common show the same page. *)
Lemma prize_is_the_local_draw_witness :
  spin_succeeds fair_world (start sample_state) /\
  spin_succeeds second_fair_world (start sample_state) /\
  ui (fst (run fair_world (spinWheel sample_env sample_state) (start sample_state))) =
  ui (fst (run second_fair_world (spinWheel sample_env sample_state)
             (start sample_state))).
Proof.
  assert (H2 : spin_succeeds second_fair_world (start sample_state))
    by (repeat split; eexists; reflexivity).
  split; [exact fair_world_succeeds|]. split; [exact H2|].
  exact (prize_is_the_local_draw sample_env fair_world second_fair_world sample_state
           (start sample_state) eq_refl fair_world_succeeds H2 eq_refl).
Defined.

(** A whole spin in the fair world. *)
Lemma spin_cycle_witness :
  let s' := session sample_env fair_world
              (click_spin :: repeat (answer 0) 6 ++ [timer_fires 0])
              (opening sample_state) in
  in_unit_interval (random fair_world 0) = true /\
  tasks s' = [] /\ timers (page s') = [] /\
  isSpinning (wheelState (ui (page s'))) = false /\
  spin_refused (ui (page s')) = false.
Proof.
  intros s'.
  assert (Hr : in_unit_interval
                 (random fair_world (n_random (calls (page (opening sample_state)))))
               = true) by (vm_compute; reflexivity).
  split; [exact Hr|].
  pose proof (spin_cycle sample_env fair_world (opening sample_state)
                eq_refl eq_refl eq_refl fair_world_succeeds Hr) as H.
  cbv zeta in H. destruct H as [Ha [Hb [Hc [_ [Hd _]]]]].
  repeat split; assumption.
Defined.

(** After the click, the sample page shows the game without a prize and
    with the button disabled. *)
Lemma prize_hidden_while_spinning_witness :
  let s := session sample_env fair_world [click_spin] (opening sample_state) in
  length (tasks s) = 1%nat /\
  render (ui (page s)) = view_game false true None.
Proof.
  intros s.
  assert (H1 : length (tasks s) = 1%nat) by reflexivity.
  assert (H2 : render (ui (page s)) = view_game false true None) by reflexivity.
  split; [exact H1|].
  assert (Hbusy : tasks s <> [] \/ timers (page s) <> []).
  { left. intros E. rewrite E in H1. discriminate H1. }
  destruct (prize_hidden_while_spinning sample_env fair_world sample_state [click_spin]
              false true None Hbusy H2) as [_ _].
  exact H2.
Defined.

(** A wallet that calls no callback: the inline-signing revision submits
    unsigned, the current component submits nothing. *)
Lemma inline_commit_goes_unsigned_witness :
  spin_refused sample_state = false /\
  wallet silent_world (n_sign (calls (start sample_state))) = noCallback /\
  (exists tx rest,
     submitted (since (start sample_state)
                  (fst (run silent_world (InlineSigning.spinWheel sample_env sample_state)
                          (start sample_state)))) = tx :: rest /\
     signatures tx = [None]) /\
  submitted (since (start sample_state)
               (fst (run silent_world (spinWheel sample_env sample_state)
                       (start sample_state)))) = [].
Proof.
  split; [reflexivity|]. split; [reflexivity|].
  destruct (inline_commit_goes_unsigned sample_env silent_world sample_state
              (start sample_state) eq_refl eq_refl)
    as [[tx [rest [Ha [Hb _]]]] Hc].
  split; [now exists tx, rest|exact Hc].
Defined.




(** The transaction [initializeWheel] submits in the fair world. *)
Lemma initialize_submits_one_instruction_witness :
  exists tx,
    submitted (since (start sample_state)
                 (fst (run fair_world (initializeWheel sample_env sample_state)
                         (start sample_state)))) = [tx] /\
    map accounts (instructions (message tx)) =
      [[ {| pubkey := PubkeyUtil_fromHex (VITE_WHEEL_STATE_ACCOUNT sample_env);
            is_signer := false; is_writable := true |};
         {| pubkey := PubkeyUtil_fromHex sample_publicKey;
            is_signer := true; is_writable := true |} ]].
Proof.
  set (L := submitted (since (start sample_state)
                         (fst (run fair_world (initializeWheel sample_env sample_state)
                                 (start sample_state))))).
  set (tx := nth 0 L {| version := 0; signatures := [];
                        message := {| signers := []; instructions := [] |} |}).
  assert (H : In tx L) by (vm_compute; left; reflexivity).
  exists tx.
  destruct (initialize_submits_one_instruction sample_env fair_world sample_state
              (start sample_state) tx H) as [pk [d [sg [Hpk [_ [Htx Hone]]]]]].
  split; [exact Hone|].
  injection Hpk as <-. rewrite Htx. reflexivity.
Defined.

(** The user cancels the signature of the initialization. *)
Lemma initialize_failures_reach_the_caller_witness :
  initialize_refused sample_state = false /\
  step_fails cancelling_world 0 0 /\
  is_thrown (snd (run cancelling_world (initializeWheel sample_env sample_state)
                    (start sample_state))) = true /\
  ui (fst (run cancelling_world (initializeWheel sample_env sample_state)
             (start sample_state))) = sample_state.
Proof.
  assert (H1 : initialize_refused sample_state = false) by reflexivity.
  assert (H2 : step_fails cancelling_world 0 0) by exact I.
  split; [exact H1|]. split; [exact H2|].
  pose proof (initialize_failures_reach_the_caller sample_env cancelling_world
                sample_state (start sample_state) H1) as H.
  cbv zeta in H. destruct H as [_ [Hb [_ Hd]]].
  destruct (Hb None eq_refl H2) as [Ht _].
  split; [exact Ht|exact (Hd Ht)].
Defined.

(** An initialization reported as failed returns normally all the same,
    and the page stays uninitialized, the account being still absent. *)
Lemma initialize_ends_with_the_reader_witness :
  initialize_refused sample_state = false /\
  processed_result failed_status_world 0 = rpc_ok (Some (Failed "custom program error")) /\
  snd (run failed_status_world (initializeWheel sample_env sample_state)
         (start sample_state)) = Normal tt /\
  isInitialized (ui (fst (run failed_status_world
                            (initializeWheel sample_env sample_state)
                            (start sample_state)))) = false.
Proof.
  assert (H1 : initialize_refused sample_state = false) by reflexivity.
  assert (H2 : step_succeeds failed_status_world 0 0)
    by (split; eexists; reflexivity).
  split; [exact H1|]. split; [reflexivity|].
  pose proof (initialize_ends_with_the_reader sample_env failed_status_world
                sample_state (start sample_state) None
                (Some (Failed "custom program error")) H1 eq_refl H2 eq_refl) as H.
  cbv zeta in H. destruct H as [Ha [_ [_ [_ He]]]].
  split; [exact Ha|]. apply He. apply no_account.
Defined.

(** A spin of the fixed-text revision in the fair world. *)
Lemma fixed_text_spin_witness :
  spin_refused sample_state = false /\
  snd (run fair_world (FixedText.spinWheel sample_env sample_state)
         (start sample_state)) = Normal tt /\
  hashed (since (start sample_state)
            (fst (run fair_world (FixedText.spinWheel sample_env sample_state)
                    (start sample_state)))) = [].
Proof.
  split; [reflexivity|].
  pose proof (fixed_text_spin sample_env fair_world sample_state (start sample_state)
                eq_refl) as H.
  cbv zeta in H. destruct H as [Ha [Hb _]]. split; [exact Ha|exact Hb].
Defined.


(** A spin of the inline-signing revision in the fair world. *)
Lemma inline_spin_witness :
  spin_refused sample_state = false /\
  snd (run fair_world (InlineSigning.spinWheel sample_env sample_state)
         (start sample_state)) = Normal tt /\
  length (hashed (since (start sample_state)
                    (fst (run fair_world (InlineSigning.spinWheel sample_env sample_state)
                            (start sample_state))))) = 1%nat.
Proof.
  split; [reflexivity|].
  pose proof (inline_spin sample_env fair_world sample_state (start sample_state)
                eq_refl) as H.
  cbv zeta in H. destruct H as [pk [_ [Ha [Hb _]]]].
  split; [exact Ha|]. rewrite Hb. reflexivity.
Defined.

(** A spin of the first revision in the fair world. *)
Lemma single_spin_witness :
  spin_refused sample_state = false /\
  snd (run fair_world (SingleSpin.spinWheel sample_env sample_state)
         (start sample_state)) = Normal tt /\
  map sp_message
    (requests (since (start sample_state)
                 (fst (run fair_world (SingleSpin.spinWheel sample_env sample_state)
                         (start sample_state))))) = ["Spin the wheel!"].
Proof.
  split; [reflexivity|].
  pose proof (single_spin sample_env fair_world sample_state (start sample_state)
                eq_refl) as H.
  cbv zeta in H. destruct H as [Ha [_ [k [_ [Hb _]]]]]. split; [exact Ha|exact Hb].
Defined.

(** A spin whose commit is rejected is over after the six answers too. *)
Lemma six_answers_end_a_spin_witness :
  let s' := session sample_env cancelling_world (click_spin :: repeat (answer 0) 6)
              (opening sample_state) in
  tasks (opening sample_state) = [] /\
  tasks s' = [] /\
  page s' = fst (run cancelling_world (spinWheel sample_env sample_state)
                   (start sample_state)).
Proof.
  intros s'. split; [reflexivity|].
  pose proof (six_answers_end_a_spin sample_env cancelling_world (opening sample_state)
                eq_refl) as H.
  cbv zeta in H. destruct H as [Ha [Hb _]]. split; [exact Ha|exact Hb].
Defined.

(** The account holds what [initializeWheel] sends, and a user whose key
    is the start of the encoded prizes passes for the administrator: the
    key begins with the hex text of the count 3. *)
Lemma admin_check_reads_the_prizes_witness :
  snd (run written_world (checkAdminStatus sample_env prizes_as_key_state)
         (start prizes_as_key_state)) = Normal true /\
  exists pk rest,
    publicKey prizes_as_key_state = Some pk /\ pk = ("03000000" ++ rest)%string.
Proof.
  assert (H1 : snd (run written_world (checkAdminStatus sample_env prizes_as_key_state)
                      (start prizes_as_key_state)) = Normal true)
    by (vm_compute; reflexivity).
  split; [exact H1|].
  destruct (admin_check_reads_the_prizes sample_env written_world prizes_as_key_state
              (start prizes_as_key_state) 1 (map prize_option wheelData) [34; 33; 33] []
              eq_refl H1) as [pk [rest [Hpk Hrest]]].
  exists pk, rest. split; [exact Hpk|exact Hrest].
Defined.

